(** * voice-bot: retrieval service and session orchestrator

    A shallow embedding of the hard parts of the voice-bot repository:

    - [src/lib/rag/retrieve.js], [src/lib/rag/qdrant-retrieve.js],
      [lib/clients/smartEmbedding.js], [lib/clients/localEmbedding.js]
      (the context retrieval service);
    - [src/app/api/assistant/voice/rag-context/route.js] (the relevance gate);
    - [src/components/VoiceChat.jsx] (prewarm cache, retry controller,
      transcript accumulator, greeting, disconnect).

    JavaScript strings are sequences of UTF-16 code units, modelled as
    [list N].  Asynchronous functions are modelled sequentially: one call is
    one atomic step, every collaborator (embedding model, vector store,
    [fetch]) is an oracle of the environment, and every call to a
    collaborator is recorded in a trace. *)

From Stdlib Require Import String Ascii NArith ZArith QArith Reals Lra Lia.
From Stdlib Require Import SpecFloat.
From stdpp Require Import base option list gmap.

Set Default Proof Using "Type".

(* ===================================================================== *)
(** * JavaScript strings *)
(* ===================================================================== *)

Module Js.

(** A string literal of the source, as code units (Latin-1 literals only). *)
Definition lit (s : string) : list N :=
  List.map N_of_ascii (list_ascii_of_string s).

(** ECMAScript [WhiteSpace] and [LineTerminator] code units, the characters
    removed by [String.prototype.trim]. *)
Definition isWhiteSpace (c : N) : bool :=
  ((9 <=? c) && (c <=? 13) || (c =? 32) || (c =? 160) || (c =? 5760)
   || (8192 <=? c) && (c <=? 8202) || (c =? 8232) || (c =? 8233)
   || (c =? 8239) || (c =? 8287) || (c =? 12288) || (c =? 65279))%N.

Fixpoint trimStart (s : list N) : list N :=
  match s with
  | c :: s' => if isWhiteSpace c then trimStart s' else s
  | [] => []
  end.

Definition trimEnd (s : list N) : list N := rev (trimStart (rev s)).

Definition trim (s : list N) : list N := trimEnd (trimStart s).

(** [ToBoolean] on a string: only the empty string is falsy. *)
Definition truthy (s : list N) : bool :=
  match s with [] => false | _ :: _ => true end.

(** [a || b] on possibly undefined strings. *)
Definition or_else (a b : option (list N)) : option (list N) :=
  match a with
  | Some s => if truthy s then a else b
  | None => b
  end.

(** [!!v] on a possibly undefined string. *)
Definition truthy_opt (a : option (list N)) : bool :=
  match a with Some s => truthy s | None => false end.

Fixpoint startsWith (p s : list N) : bool :=
  match p, s with
  | [], _ => true
  | a :: p', b :: s' => (a =? b)%N && startsWith p' s'
  | _ :: _, [] => false
  end.

(** [s.includes(p)] *)
Fixpoint includes (s p : list N) : bool :=
  startsWith p s || match s with [] => false | _ :: s' => includes s' p end.

(** [s.slice(0, n)] and [s.substring(0, n)] for [n >= 0]. *)
Definition slice0 (n : nat) (s : list N) : list N := take n s.

(** [array.join(sep)] on strings. *)
Fixpoint join (sep : list N) (l : list (list N)) : list N :=
  match l with
  | [] => []
  | [x] => x
  | x :: l' => x ++ sep ++ join sep l'
  end.

(** Decimal rendering of a non-negative integer ([String(n)]). *)
Fixpoint digits (fuel : nat) (n : N) (acc : list N) : list N :=
  match fuel with
  | O => acc
  | S fuel' =>
      let acc' := (48 + n mod 10)%N :: acc in
      if (n <? 10)%N then acc' else digits fuel' (n / 10)%N acc'
  end.

Definition ofNat (n : nat) : list N :=
  let m := N.of_nat n in digits (S (N.to_nat (N.log2 m))) m [].

(** [s.toLowerCase()], on the ASCII letters; other code units are kept. *)
Definition toLowerCase (s : list N) : list N :=
  List.map (fun c => if (65 <=? c) && (c <=? 90) then c + 32 else c)%N s.

End Js.

(* ===================================================================== *)
(** * lib/clients/localEmbedding.js: padEmbeddingTo1536 *)
(* ===================================================================== *)

(** The arithmetic [padEmbeddingTo1536] is written in.  The function is
    embedded once, over this interface, and instantiated twice: with the
    real numbers (what the normalisation computes when rounding is left
    out) and with IEEE 754 binary64 numbers stored into a [Float32Array]
    (what the JavaScript engine computes). *)
Class Arith (A : Type) := {
  num_zero : A;
  num_one : A;
  num_add : A -> A -> A;
  num_mul : A -> A -> A;
  num_div : A -> A -> A;
  num_sqrt : A -> A;
  (** [x > 0] *)
  num_pos : A -> bool;
  (** the number read back from a [Float32Array] slot after storing [x] *)
  num_f32 : A -> A;
}.

(** [for (let i = 0; i < n; i++) body] on a loop state. *)
Definition for_loop {St : Type} (n : nat) (body : nat -> St -> St) (s : St)
  : St :=
  fold_left (fun s i => body i s) (seq 0 n) s.

Section PadEmbedding.
Context {A : Type} {arith : Arith A}.

Definition targetDim : nat := 1536.

(** [embedding[i]] for an index in range. *)
Definition at_index (embedding : list A) (i : nat) : A :=
  nth i embedding num_zero.

Definition padEmbeddingTo1536 (embedding : list A) : list A :=
  let originalDim := length embedding in
  if originalDim =? targetDim then embedding
  else if targetDim <? originalDim then take targetDim embedding
  else
    (* new Float32Array(targetDim) *)
    let padded := replicate targetDim num_zero in
    (* Copy original values *)
    let padded :=
      for_loop originalDim
        (fun i padded => <[i := num_f32 (at_index embedding i)]> padded)
        padded in
    let sumSq :=
      for_loop originalDim
        (fun i sumSq =>
           let val := at_index embedding i in
           num_add sumSq (num_mul val val))
        num_zero in
    let magnitude := num_sqrt sumSq in
    (* Normalize in single pass *)
    if num_pos magnitude then
      let invMagnitude := num_div num_one magnitude in
      for_loop originalDim
        (fun i padded =>
           <[i := num_f32 (num_mul (at_index embedding i) invMagnitude)]>
             padded)
        padded
    else padded.

(** The L2 norm of a vector, computed as the source computes [magnitude]. *)
Definition l2norm (v : list A) : A :=
  num_sqrt
    (for_loop (length v)
       (fun i sumSq => let val := at_index v i in
                       num_add sumSq (num_mul val val))
       num_zero).
End PadEmbedding.

(** Exact arithmetic: rounding left out. *)
#[global] Instance R_arith : Arith R := {|
  num_zero := 0%R;
  num_one := 1%R;
  num_add := Rplus;
  num_mul := Rmult;
  num_div := Rdiv;
  num_sqrt := sqrt;
  num_pos := fun x => if Rlt_dec 0 x then true else false;
  num_f32 := fun x => x;
|}.

(** IEEE 754 arithmetic as JavaScript has it: binary64 operations rounding
    to nearest even, and a store into a [Float32Array] that rounds to
    binary32. *)
Module Ieee.
Definition prec64 : Z := 53.
Definition emax64 : Z := 1024.
Definition prec32 : Z := 24.
Definition emax32 : Z := 128.

Definition round_to (prec emax : Z) (x : spec_float) : spec_float :=
  match x with
  | S754_finite s m e => binary_round prec emax s m e
  | _ => x
  end.

(** [Math.fround] *)
Definition fround (x : spec_float) : spec_float :=
  round_to prec64 emax64 (round_to prec32 emax32 x).

(** The binary64 number nearest to [m * 2^e]. *)
Definition double (m e : Z) : spec_float :=
  binary_normalize prec64 emax64 m e false.

#[global] Instance arith : Arith spec_float := {|
  num_zero := S754_zero false;
  num_one := double 1 0;
  num_add := SFadd prec64 emax64;
  num_mul := SFmul prec64 emax64;
  num_div := SFdiv prec64 emax64;
  num_sqrt := SFsqrt prec64 emax64;
  num_pos := fun x => SFltb (S754_zero false) x;
  num_f32 := fround;
|}.

(** The rational number a binary floating-point number stands for;
    infinities and NaN stand for none. *)
Definition toQ (x : spec_float) : option Q :=
  match x with
  | S754_zero _ => Some 0%Q
  | S754_finite s m e =>
      Some ((if s then -1 else 1) * inject_Z (Zpos m) * Qpower 2 e)%Q
  | _ => None
  end.




(** Every entry of [out] is [c] times the entry of [v] at the same index,
    as exact numbers. *)
Definition scaledBy (c : Q) (v out : list spec_float) : Prop :=
  forall i x, v !! i = Some x ->
    exists y qx qy,
      out !! i = Some y /\ toQ x = Some qx /\ toQ y = Some qy
      /\ (qy == c * qx)%Q.

(** A counting number as a binary64 number. *)
Definition ofNat (n : nat) : spec_float := double (Z.of_nat n) 0.

(** [ToBoolean] on a number: zero and NaN are falsy. *)
Definition truthy (x : spec_float) : bool :=
  match x with
  | S754_zero _ | S754_nan => false
  | _ => true
  end.

(** [Math.max(a, b)] *)
Definition max (a b : spec_float) : spec_float :=
  match a, b with
  | S754_nan, _ | _, S754_nan => S754_nan
  | _, _ =>
      if SFltb a b then b
      else if SFltb b a then a
      else match a with S754_zero true => b | _ => a end
  end.
End Ieee.

Coercion Ieee.ofNat : nat >-> spec_float.

(** The sum of squares, as [padEmbeddingTo1536] accumulates it. *)
Definition sumSq (v : list R) : R :=
  fold_left (fun acc val => (acc + val * val)%R) v 0%R.

(** The scalar the padded vector is multiplied with: [1 / magnitude], and
    [1] for the zero vector, which is copied as it is. *)
Definition scaleOf (v : list R) : R :=
  if Rlt_dec 0 (l2norm v) then (1 / l2norm v)%R else 1%R.

(* ===================================================================== *)
(** * Exceptions and collaborator calls *)
(* ===================================================================== *)

(** A thrown [Error] object, with the fields the handlers read:
    [error.message] and [error.data?.status?.error]. *)
Record JsError := mkError {
  message : option (list N);
  data_status_error : option (list N);
}.

Definition Error (msg : list N) : JsError := mkError (Some msg) None.
Definition TypeError (msg : string) : JsError := Error (Js.lit msg).

(** Outcome of an awaited call: a value or a thrown error. *)
Inductive result (A : Type) : Type :=
| Ok (a : A)
| Throw (e : JsError).
Arguments Ok {A} a.
Arguments Throw {A} e.

(** An entry of a query vector as JavaScript sees it: a number (an IEEE 754
    binary64 value, NaN included) or a value of another type. *)
Inductive EmbElem :=
| ENumber (x : spec_float)
| ENotNumber.

(** What an embedding call may hand back: null or undefined, a value that
    is not an array, or an array. *)
Inductive EmbVal :=
| EmbNullish
| EmbNotArray
| EmbArray (l : list EmbElem).

Record Payload := {
  p_document_id : option (list N);
  p_chunk_index : option N;
  p_chunk_id : option (list N);
  p_text : option (list N);
  p_content : option (list N);
  p_category : option (list N);
  p_file_name : option (list N);
}.

(** One point returned by the vector store.  A score is a finite number,
    kept as a rational: comparing it with 0.25 is exact in binary64. *)
Record Hit := {
  hit_id : N;
  score : option Q;
  payload : option Payload;
}.

(** A Context Chunk as returned by [retrieveChunksFromQdrant]. *)
Record Chunk := {
  id : N;
  document_id : option (list N);
  chunk_index : option N;
  chunk_id : option (list N);
  content : list N;
  category : option (list N);
  file_name : option (list N);
  similarity : option Q;
}.

Record CollectionInfo := {
  name : list N;
  isNamedVector : option bool;
}.

Record SearchRequest := {
  req_named : bool;
  req_vector : list EmbElem;
  req_limit : spec_float;
  req_filter : option (list N);
  req_timeout : option nat;
}.

(** Outgoing calls of the retrieval service, in the order they are made. *)
Inductive Call :=
| CallGetQdrantClient
| CallEnsureCollectionOnce
| CallEmbeddingModel (text : list N)
| CallSearch (req : SearchRequest)
| CallGetCollection.

(** The collaborators of the retrieval service: each field is the outcome
    the collaborator produces when it is called. *)
Record Env := {
  env_getQdrantClient : result unit;
  env_ensureCollectionOnce : result CollectionInfo;
  env_generateLocalEmbedding : list N -> result EmbVal;
  env_search : SearchRequest -> result (option (list Hit));
  env_getCollection : result N;
  env_development : bool;
}.

(** What the feature-extraction pipeline hands back, after the conversions
    to a plain array that [generateLocalEmbedding] tries in turn. *)
Inductive ModelOutput :=
| OutArray (data : list spec_float)
(* [Array.from(output)] throws with this message: the output is null or
   undefined *)
| OutNotConvertible (message : list N).

(** The collaborators of [generateLocalEmbedding]: loading the model and
    running it. *)
Record Embedder := {
  getEmbedder : result unit;
  model : list N -> result ModelOutput;
}.

(** [generateLocalEmbedding(text)] of [lib/clients/localEmbedding.js]; its
    [catch] block logs and throws the error again. *)
Definition generateLocalEmbedding (e : Embedder) (text : option (list N))
  : result EmbVal :=
  if negb (Js.truthy_opt text) then
    Throw (Error (Js.lit "Invalid input: text must be a non-empty string"))
  else
    let text := default [] text in
    let maxLength := 8000%N in
    let truncatedText :=
      if (maxLength <? N.of_nat (length text))%N
      then Js.slice0 (N.to_nat maxLength) text
      else text in
    match getEmbedder e with
    | Throw error => Throw error
    | Ok _ =>
        match model e truncatedText with
        | Throw error => Throw error
        | Ok (OutNotConvertible message) =>
            Throw (Error (Js.lit "Cannot convert embedding output to array: "
                          ++ message))
        | Ok (OutArray []) =>
            (* typeof [] *)
            Throw (Error (Js.lit "Invalid embedding output: expected array, got object"))
        | Ok (OutArray baseEmbedding) =>
            Ok (EmbArray (ENumber <$> padEmbeddingTo1536 baseEmbedding))
        end
    end.

(** Computations that may throw and that log their collaborator calls. *)
Definition M (A : Type) : Type := list Call -> result A * list Call.

Definition ret {A} (a : A) : M A := fun t => (Ok a, t).
Definition throw {A} (e : JsError) : M A := fun t => (Throw e, t).
Definition bind {A B} (m : M A) (k : A -> M B) : M B :=
  fun t => match m t with
           | (Ok a, t') => k a t'
           | (Throw e, t') => (Throw e, t')
           end.
(** [try { m } catch (e) { h e }] *)
Definition try_catch {A} (m : M A) (h : JsError -> M A) : M A :=
  fun t => match m t with
           | (Ok a, t') => (Ok a, t')
           | (Throw e, t') => h e t'
           end.
(** An awaited collaborator call with outcome [r]. *)
Definition call {A} (c : Call) (r : result A) : M A :=
  fun t => (r, t ++ [c]).

Declare Scope js_scope.
Delimit Scope js_scope with js.
Notation "'let*' x ':=' m 'in' k" := (bind m (fun x => k))
  (at level 10, x name, m at level 100, k at level 200) : js_scope.
Notation "'exec' m 'then' k" := (bind m (fun _ => k))
  (at level 10, m at level 100, k at level 200) : js_scope.

Definition run {A} (m : M A) : result A * list Call := m [].

(* ===================================================================== *)
(** * lib/clients/openai.js and lib/clients/smartEmbedding.js *)
(* ===================================================================== *)

Open Scope js_scope.

(** [generateEmbedding] of the OpenAI stub: always throws. *)
Definition generateOpenAIEmbedding (text : list N) : M EmbVal :=
  throw (Error (Js.lit "OpenAI embeddings are not configured. The codebase is configured to use local embeddings only. If you need OpenAI embeddings, configure OPENAI_API_KEY environment variable and implement the OpenAI client.")).

(** The awaited call [generateLocalEmbedding(text)], as the retrieval service
    sees it. *)
Definition callLocalEmbedding (env : Env) (text : list N) : M EmbVal :=
  call (CallEmbeddingModel text) (env_generateLocalEmbedding env text).

(** [!Array.isArray(embedding) || embedding.length !== 1536] *)
Definition bad_dimensions (e : EmbVal) : bool :=
  match e with
  | EmbArray l => negb (length l =? 1536)
  | _ => true
  end.

Definition generateQueryEmbedding (env : Env) (text : list N)
    (useLocal fallbackToOpenAI : bool) : M EmbVal :=
  if useLocal then
    try_catch
      (let* embedding := callLocalEmbedding env text in
       if bad_dimensions embedding
       then throw (Error (Js.lit "Invalid embedding dimensions: "
                          ++ match embedding with
                             | EmbArray l => Js.ofNat (length l)
                             | _ => Js.lit "undefined"
                             end))
       else ret embedding)
      (fun error =>
         if fallbackToOpenAI then generateOpenAIEmbedding text
         else throw error)
  else generateOpenAIEmbedding text.

(* ===================================================================== *)
(** * src/lib/rag/qdrant-retrieve.js *)
(* ===================================================================== *)

(** [typeof v !== 'number' || isNaN(v)] *)
Definition not_a_valid_number (v : EmbElem) : bool :=
  match v with
  | ENumber x => match x with S754_nan => true | _ => false end
  | ENotNumber => true
  end.

(** The guard of the "Validate embedding" step. *)
Definition invalid_embedding (e : EmbVal) : bool :=
  match e with
  | EmbArray l => negb (length l =? 1536) || existsb not_a_valid_number l
  | _ => true
  end.

(** [score || null]: a zero score is falsy. *)
Definition score_or_null (s : option Q) : option Q :=
  match s with
  | Some q => if Qeq_bool q 0 then None else Some q
  | None => None
  end.

(** [n || null] on an index. *)
Definition index_or_null (n : option N) : option N :=
  match n with
  | Some 0%N => None
  | _ => n
  end.

Definition payload_field {A} (f : Payload -> option A) (p : option Payload)
  : option A := p ≫= f.

(** The object literal built by [searchResult.map]. *)
Definition chunk_of_hit (r : Hit) : Chunk :=
  let p := payload r in
  {| id := hit_id r;
     document_id := Js.or_else (payload_field p_document_id p) None;
     chunk_index := index_or_null (payload_field p_chunk_index p);
     chunk_id := Js.or_else (payload_field p_chunk_id p) None;
     content := default [] (Js.or_else (payload_field p_text p)
                              (Js.or_else (payload_field p_content p)
                                 (Some [])));
     category := Js.or_else (payload_field p_category p) None;
     file_name := Js.or_else (payload_field p_file_name p) None;
     similarity := score_or_null (score r) |}.

(** The test that decides whether a failed filtered search is retried. *)
Definition is_missing_index_error (filterError : JsError) : bool :=
  let errorMessage := default [] (Js.or_else (message filterError) (Some [])) in
  let errorData :=
    default [] (Js.or_else (data_status_error filterError) (Some [])) in
  let fullErrorText := Js.toLowerCase (errorMessage ++ Js.lit " " ++ errorData) in
  Js.includes fullErrorText (Js.lit "index required")
  || (Js.includes fullErrorText (Js.lit "index")
      && Js.includes fullErrorText (Js.lit "category")).

Definition search (env : Env) (req : SearchRequest) : M (option (list Hit)) :=
  call (CallSearch req) (env_search env req).

(** [retrieveChunksFromQdrant({ query, queryEmbedding, matchCount, category })] *)
Definition retrieveChunksFromQdrant (env : Env) (query : list N)
    (queryEmbedding : option EmbVal) (matchCount : spec_float)
    (category : option (list N)) : M (list Chunk) :=
  exec call CallGetQdrantClient (env_getQdrantClient env) then
  let* collectionInfo :=
    call CallEnsureCollectionOnce (env_ensureCollectionOnce env) in
  let isNamedVector :=
    match isNamedVector collectionInfo with Some false => false | _ => true end in
  let* embedding :=
    match queryEmbedding with
    | Some e => ret e
    | None => generateQueryEmbedding env query true false
    end in
  (* both branches log [embedding.length] *)
  exec match embedding with
       | EmbNullish =>
           throw (TypeError "Cannot read properties of undefined (reading 'length')")
       | _ => ret tt
       end then
  if invalid_embedding embedding then
    (* the development-only diagnostics call [embedding?.slice(0, 5)] *)
    exec match embedding with
         | EmbNotArray =>
             if env_development env
             then throw (TypeError "embedding?.slice is not a function")
             else ret tt
         | _ => ret tt
         end then
    ret []
  else
    let vector := match embedding with EmbArray l => l | _ => [] end in
    try_catch
      (let filter :=
         if Js.truthy_opt category then category else None in
       let* searchResult :=
         match filter with
         | Some _ =>
             try_catch
               (search env {| req_named := isNamedVector; req_vector := vector;
                              req_limit := matchCount; req_filter := filter;
                              req_timeout := Some 500 |})
               (fun filterError =>
                  if is_missing_index_error filterError then
                    search env {| req_named := isNamedVector;
                                  req_vector := vector;
                                  req_limit := matchCount; req_filter := None;
                                  req_timeout := None |}
                  else throw filterError)
         | None =>
             search env {| req_named := isNamedVector; req_vector := vector;
                           req_limit := matchCount; req_filter := None;
                           req_timeout := Some 500 |}
         end in
       exec match searchResult with
            | Some (_ :: _) => ret tt
            | _ =>
                (* diagnostics, in a try/catch of their own *)
                try_catch
                  (exec call CallGetCollection (env_getCollection env) then
                   ret tt)
                  (fun infoError => ret tt)
            end then
       match searchResult with
       | Some hits => ret (List.map chunk_of_hit hits)
       | None =>
           throw (TypeError "Cannot read properties of undefined (reading 'map')")
       end)
      (fun error => throw error).

(* ===================================================================== *)
(** * src/lib/rag/retrieve.js *)
(* ===================================================================== *)

(** [!query || !query.trim()] *)
Definition blank (query : option (list N)) : bool :=
  match query with
  | None => true
  | Some q => negb (Js.truthy q) || negb (Js.truthy (Js.trim q))
  end.

(** [error.message?.includes(p)] *)
Definition message_includes (error : JsError) (p : string) : bool :=
  match message error with
  | Some m => Js.includes m (Js.lit p)
  | None => false
  end.

(** [retrieveChunks({ query, matchCount = 5, category = null })].
    [query] is a string or undefined, as the JSDoc of the function says. *)
Definition retrieveChunks (env : Env) (query : option (list N))
    (matchCount : spec_float) (category : option (list N)) : M (list Chunk) :=
  if blank query then ret []
  else
    try_catch
      (let* chunks :=
         retrieveChunksFromQdrant env (Js.trim (default [] query)) None
           matchCount category in
       ret chunks)
      (fun error =>
         if message_includes error "OPENAI_API_KEY"
            || message_includes error "API key"
         then ret []
         else ret []).

(* ===================================================================== *)
(** * src/app/api/assistant/voice/rag-context/route.js *)
(* ===================================================================== *)

(** The JSON body of a response of the context retrieval endpoint. *)
Record RagData := {
  context : option (list N);
  instructions : option (list N);
  chunksFound : option nat;
  reason : option (list N);
  topSimilarity : option Q;
  error : option (list N);
  details : option (list N);
}.

Record HttpResponse := {
  status : nat;
  json : RagData;
}.

Definition no_data : RagData :=
  {| context := None; instructions := None; chunksFound := None;
     reason := None; topSimilarity := None; error := None; details := None |}.

(** [response.ok] *)
Definition ok (r : HttpResponse) : bool :=
  (200 <=? status r) && (status r <=? 299).

(** Similarity threshold - chunks below this score are considered irrelevant *)
Definition SIMILARITY_THRESHOLD : Q := 25 # 100.

(** [a < b] on numbers. *)
Definition Qltb (a b : Q) : bool := negb (Qle_bool b a).

Definition bullet : list N := [8226%N].
Definition newline : list N := [10%N].

(** [buildContextBlock(chunks)] *)
Definition buildContextBlock (chunks : list Chunk) : list N :=
  match chunks with
  | [] => Js.lit "No matching knowledge base context was found."
  | _ =>
      Js.join (newline ++ newline)
        (imap (fun index chunk =>
                 let category :=
                   default (Js.lit "General")
                     (Js.or_else (category chunk) (Some (Js.lit "General"))) in
                 let fileName :=
                   default (Js.lit "Unknown")
                     (Js.or_else (file_name chunk) (Some (Js.lit "Unknown"))) in
                 let label :=
                   Js.lit "Source " ++ Js.ofNat (index + 1) ++ Js.lit " ("
                   ++ category ++ Js.lit " " ++ bullet ++ Js.lit " "
                   ++ fileName ++ Js.lit ")" in
                 label ++ Js.lit ":" ++ newline ++ Js.trim (content chunk))
           chunks)
  end.

(** [chunks[0]?.similarity || 0] *)
Definition topSimilarityOf (chunks : list Chunk) : Q :=
  match chunks with
  | c0 :: _ => default 0%Q (score_or_null (similarity c0))
  | [] => 0%Q
  end.

(** The relevance gate: the body of [if (chunks && chunks.length > 0) ... else ...]
    of the route, a function of the retrieval result list. *)
Definition gate (chunks : list Chunk) : HttpResponse :=
  match chunks with
  | _ :: _ =>
      let topSimilarity := topSimilarityOf chunks in
      if Qltb topSimilarity SIMILARITY_THRESHOLD then
        {| status := 200;
           json := {| context := None; instructions := None;
                      chunksFound := Some 0;
                      reason := Some (Js.lit "below_threshold");
                      topSimilarity := Some topSimilarity;
                      error := None; details := None |} |}
      else
        let contextBlock := buildContextBlock chunks in
        {| status := 200;
           json := {| context := Some contextBlock; instructions := None;
                      chunksFound := Some (length chunks);
                      reason := None; topSimilarity := None;
                      error := None; details := None |} |}
  | [] =>
      {| status := 200;
         json := {| context := None; instructions := None;
                    chunksFound := Some 0; reason := None;
                    topSimilarity := None; error := None; details := None |} |}
  end.

(** A value that [request.json()] can resolve to. *)
#[warnings="-register-all"]
Inductive JsonValue :=
| JsonNull
| JsonBool (b : bool)
| JsonNumber (x : spec_float)
| JsonString (s : list N)
| JsonArray (items : list JsonValue)
| JsonObject (fields : list (list N * JsonValue)).

(** [value.key] on a parsed value: an object has the properties that the
    text listed, the last one when a key is repeated; the other values have
    neither a [question] nor a [matchCount].  [None] is [undefined]. *)
Definition property (key : list N) (value : JsonValue) : option JsonValue :=
  match value with
  | JsonObject fields =>
      snd <$> List.find (fun kv => bool_decide (fst kv = key)) (rev fields)
  | _ => None
  end.

(** [ToBoolean] *)
Definition ToBoolean (value : JsonValue) : bool :=
  match value with
  | JsonNull => false
  | JsonBool b => b
  | JsonNumber x => Ieee.truthy x
  | JsonString s => Js.truthy s
  | JsonArray _ | JsonObject _ => true
  end.

(** The conversions of the engine that are taken as given: [ToNumber] on a
    string, and on an array (its elements joined, then read as a string;
    this throws when joining does). *)
Record Engine := {
  StringToNumber : list N -> spec_float;
  ArrayToNumber : list JsonValue -> result spec_float;
}.

(** [ToNumber].  A parsed object has no callable property, so one with a
    [toString] of its own cannot be converted and the others convert to
    ["[object Object]"], which is not a number. *)
Definition ToNumber (engine : Engine) (value : JsonValue)
  : result spec_float :=
  match value with
  | JsonNull => Ok (S754_zero false)
  | JsonBool b => Ok (if b then Ieee.ofNat 1 else S754_zero false)
  | JsonNumber x => Ok x
  | JsonString s => Ok (StringToNumber engine s)
  | JsonArray items => ArrayToNumber engine items
  | JsonObject _ =>
      match property (Js.lit "toString") value with
      | Some _ => Throw (TypeError "Cannot convert object to primitive value")
      | None => Ok S754_nan
      end
  end.

(** [const { question, matchCount = 5 } = body]: what the route reads of the
    body; destructuring [null] throws. *)
Record RagRequestBody := {
  body_question : option JsonValue;
  body_matchCount : JsonValue;
}.

Definition destructure (body : JsonValue) : result RagRequestBody :=
  match body with
  | JsonNull =>
      Throw (TypeError
               "Cannot destructure property 'question' of 'body' as it is null.")
  | _ =>
      Ok {| body_question := property (Js.lit "question") body;
            body_matchCount :=
              default (JsonNumber (Ieee.ofNat 5))
                (property (Js.lit "matchCount") body) |}
  end.

(** [Math.max(matchCount || 5, 1)].  The log line before it renders
    [matchCount || 5] as a string, which throws for the same values. *)
Definition effectiveMatchCount (engine : Engine) (matchCount : JsonValue)
  : result spec_float :=
  match ToNumber engine (if ToBoolean matchCount then matchCount
                         else JsonNumber (Ieee.ofNat 5)) with
  | Ok n => Ok (Ieee.max n (Ieee.ofNat 1))
  | Throw e => Throw e
  end.

(** [question.trim()] on a truthy value: only a string has the method. *)
Definition trimOf (question : JsonValue) : result (list N) :=
  match question with
  | JsonString s => Ok (Js.trim s)
  | _ => Throw (TypeError "question.trim is not a function")
  end.

(** [POST(request)] of the context retrieval endpoint.  [body] is the
    outcome of [request.json()]. *)
Definition POST (engine : Engine) (env : Env) (body : result JsonValue)
  : M HttpResponse :=
  try_catch
    (let* body := (fun t => (body, t)) in
     let* body := (fun t => (destructure body, t)) in
     let required :=
       {| status := 400;
          json := {| context := None; instructions := None;
                     chunksFound := None; reason := None;
                     topSimilarity := None;
                     error := Some (Js.lit "Question is required");
                     details := None |} |} in
     match body_question body with
     | None => ret required
     | Some question =>
         if negb (ToBoolean question) then ret required
         else
           let* trimmed := (fun t => (trimOf question, t)) in
           if negb (Js.truthy trimmed) then ret required
           else
             try_catch
               (let* effective :=
                  (fun t =>
                     (effectiveMatchCount engine (body_matchCount body), t)) in
                let* chunks := retrieveChunks env (Some trimmed) effective None in
                ret (gate chunks))
               (fun ragError =>
                  ret {| status := 200;
                         json := {| context := None; instructions := None;
                                    chunksFound := Some 0; reason := None;
                                    topSimilarity := None;
                                    error := message ragError;
                                    details := None |} |})
     end)
    (fun error =>
       ret {| status := 500;
              json := {| context := None; instructions := None;
                         chunksFound := None; reason := None;
                         topSimilarity := None;
                         error := Some (Js.lit "Failed to fetch RAG context");
                         details := message error |} |}).

(** The same endpoint in the earlier copy of the route (the file that still
    returns [instructions]): it has no similarity test.  [additional] is the
    fixed text that the route wraps around the context block and [silence]
    the fixed text it appends when there is none. *)
Definition gate_earlier (defaultInstructions : list N)
    (additional : list N -> list N) (silence : list N)
    (chunks : list Chunk) : HttpResponse :=
  match chunks with
  | _ :: _ =>
      let contextBlock := buildContextBlock chunks in
      {| status := 200;
         json := {| context := Some contextBlock;
                    instructions :=
                      Some (defaultInstructions ++ additional contextBlock);
                    chunksFound := Some (length chunks);
                    reason := None; topSimilarity := None;
                    error := None; details := None |} |}
  | [] =>
      {| status := 200;
         json := {| context := None;
                    instructions := Some (defaultInstructions ++ silence);
                    chunksFound := Some 0; reason := None;
                    topSimilarity := None; error := None; details := None |} |}
  end.

(* ===================================================================== *)
(** * src/components/VoiceChat.jsx: control channel and prewarm cache *)
(* ===================================================================== *)

(** [RTCDataChannel.readyState] *)
Inductive ReadyState := RsConnecting | RsOpen | RsClosing | RsClosed.

Inductive Role := User | Assistant.

(** The [content] of an outgoing message.  The long prompt templates of the
    source are kept symbolic; what is pasted into them is kept. *)
Inductive Content :=
| Text (s : list N)
| InlinePromptWith (context : list N)
| IshuPromptWith (context : list N)
| GreetingInstructions.

(** Messages the component writes to the control channel. *)
Inductive ChannelMsg :=
| SessionUpdate (instructions : Content)
| ConversationItemCreate (role : Role) (content : Content).

#[global] Instance Role_eq_dec : EqDecision Role.
Proof. solve_decision. Defined.
#[global] Instance Content_eq_dec : EqDecision Content.
Proof. solve_decision. Defined.
#[global] Instance ChannelMsg_eq_dec : EqDecision ChannelMsg.
Proof. solve_decision. Defined.

Inductive TimerAction :=
| TSendGreeting (enableAudio : bool)
| TGreetingTrigger.

(** The control channel as the component sees it: the refs that guard it,
    every message handed to [send] so far, and the pending [setTimeout]s of
    the greeting logic (with their delay in ms). *)
Record Link := {
  dataChannelRef : option ReadyState;
  hasGreetedRef : bool;
  sent : list ChannelMsg;
  timers : list (nat * TimerAction);
}.

Definition isOpen (l : Link) : bool :=
  match dataChannelRef l with Some RsOpen => true | _ => false end.

(** [dataChannelRef.current.send(msg)]: throws when the ref is null or the
    channel is not open. *)
Definition send (msg : ChannelMsg) (l : Link) : result Link :=
  match dataChannelRef l with
  | None => Throw (TypeError "Cannot read properties of null (reading 'send')")
  | Some RsOpen =>
      Ok {| dataChannelRef := dataChannelRef l;
            hasGreetedRef := hasGreetedRef l;
            sent := sent l ++ [msg];
            timers := timers l |}
  | Some _ => Throw (Error (Js.lit "InvalidStateError"))
  end.

Definition setTimeout (action : TimerAction) (delay : nat) (l : Link) : Link :=
  {| dataChannelRef := dataChannelRef l;
     hasGreetedRef := hasGreetedRef l;
     sent := sent l;
     timers := timers l ++ [(delay, action)] |}.

Definition set_hasGreeted (b : bool) (l : Link) : Link :=
  {| dataChannelRef := dataChannelRef l;
     hasGreetedRef := b;
     sent := sent l;
     timers := timers l |}.

Definition set_dataChannel (dc : option ReadyState) (l : Link) : Link :=
  {| dataChannelRef := dc;
     hasGreetedRef := hasGreetedRef l;
     sent := sent l;
     timers := timers l |}.

(** Requests the component issues with [fetch]. *)
Inductive NetRequest :=
| RagContextFetch (question : list N) (category sessionId : option (list N))
    (intent : list N) (matchCount : nat)
| SaveFetch (sessionId : list N) (messages : list (Role * list N * list N))
    (exchanges : list (list N * list N * list N)).

(** What an awaited [fetch] followed by [response.json()] produces. *)
Inductive FetchOutcome :=
| Rejected (e : JsError)
| Resolved (r : HttpResponse)
| ResolvedUnparsable (status : nat).

(** The prewarm refs: the cache, whether an [AbortController] is stored,
    and how many times a stored controller was aborted. *)
Record Prewarm := {
  prewarmCacheRef : gmap (list N) RagData;
  prewarmAbortRef : bool;
  aborts : nat;
}.

(** The cache key
    [`${sessionId || "anon"}::${category || "general"}::${trimmed.slice(0, 100)}`] *)
Definition cacheKey (sessionId category : option (list N)) (trimmed : list N)
  : list N :=
  default [] (Js.or_else sessionId (Some (Js.lit "anon")))
  ++ Js.lit "::"
  ++ default [] (Js.or_else category (Some (Js.lit "general")))
  ++ Js.lit "::"
  ++ Js.slice0 100 trimmed.

(** The body of the POST to [/api/assistant/voice/rag-context]. *)
Definition ragRequest (sessionId category : option (list N))
    (trimmed : list N) : NetRequest :=
  RagContextFetch trimmed category sessionId
    (default [] (Js.or_else category (Some (Js.lit "general")))) 3.

(** [prewarmContext(question)]: the new prewarm refs and the requests
    issued. *)
Definition prewarmContext (fetch : NetRequest -> FetchOutcome)
    (sessionId category : option (list N)) (question : option (list N))
    (l : Link) (pw : Prewarm) : Prewarm * list NetRequest :=
  if blank question then (pw, [])
  else if negb (isOpen l) then (pw, [])
  else
    let trimmed := Js.trim (default [] question) in
    let key := cacheKey sessionId category trimmed in
    match prewarmCacheRef pw !! key with
    | Some _ => (pw, [])
    | None =>
        let aborts' := if prewarmAbortRef pw then S (aborts pw) else aborts pw in
        let request := ragRequest sessionId category trimmed in
        let cache' :=
          match fetch request with
          | Resolved response =>
              if ok response
              then <[key := json response]> (prewarmCacheRef pw)
              else prewarmCacheRef pw
          | _ => prewarmCacheRef pw
          end in
        ({| prewarmCacheRef := cache'; prewarmAbortRef := false;
            aborts := aborts' |}, [request])
    end.

(** [data.chunksFound > 0 && data.context] *)
Definition has_context (data : RagData) : bool :=
  match chunksFound data with
  | Some n => (0 <? n) && Js.truthy_opt (context data)
  | None => false
  end.

(** [prewarmed && prewarmed.context] *)
Definition usable (prewarmed : option RagData) : bool :=
  match prewarmed with
  | Some data => Js.truthy_opt (context data)
  | None => false
  end.

(** [fetchAndSendContext(question)]: the channel afterwards and the requests
    issued.  The outer [try/catch] swallows a failing [send]. *)
Definition fetchAndSendContext (fetch : NetRequest -> FetchOutcome)
    (sessionId category : option (list N)) (question : option (list N))
    (pw : Prewarm) (l : Link) : Link * list NetRequest :=
  if negb (isOpen l) then (l, [])
  else if blank question then (l, [])
  else
    let q := default [] question in
    let key := cacheKey sessionId category (Js.trim q) in
    let prewarmed := prewarmCacheRef pw !! key in
    if usable prewarmed then
      let contextMessage :=
        ConversationItemCreate Assistant
          (InlinePromptWith (default [] (prewarmed ≫= context))) in
      match send contextMessage l with
      | Ok l' => (l', [])
      | Throw _ => (l, [])
      end
    else
      let request := ragRequest sessionId category (Js.trim q) in
      match fetch request with
      | Rejected fetchError => (l, [request])
      | ResolvedUnparsable _ => (l, [request])
      | Resolved response =>
          if negb (ok response) then (l, [request])
          else
            let data := json response in
            if has_context data then
              let contextMessage :=
                ConversationItemCreate Assistant
                  match Js.or_else (instructions data) None with
                  | Some i => Text i
                  | None => IshuPromptWith (default [] (context data))
                  end in
              match send contextMessage l with
              | Ok l' => (l', [request])
              | Throw _ => (l, [request])
              end
            else (l, [request])
      end.

(* ===================================================================== *)
(** * src/components/VoiceChat.jsx: greeting *)
(* ===================================================================== *)

(** The synthetic user turn that triggers the greeting. *)
Definition greetingTrigger : ChannelMsg :=
  ConversationItemCreate User (Text (Js.lit "Hello")).

(** [sendSessionUpdate(dataChannel, sessionConfig)] of [lib/webrtc/events.js] *)
Definition sendSessionUpdate (instructions : Content) (l : Link) : result Link :=
  if isOpen l then send (SessionUpdate instructions) l else Ok l.

(** [sendGreeting()], the closure defined at the end of a successful
    [connect()]; [enableAudio] is the prop captured by that closure. *)
Definition sendGreeting (enableAudio : bool) (l : Link) : Link :=
  if negb (hasGreetedRef l) && isOpen l && enableAudio then
    let l1 := set_hasGreeted true l in
    match sendSessionUpdate GreetingInstructions l1 with
    | Ok l2 => setTimeout TGreetingTrigger 300 l2
    | Throw error => l1
    end
  else
    match dataChannelRef l with
    | Some RsOpen | None => l
    | Some _ => setTimeout (TSendGreeting enableAudio) 300 l
    end.

(** The last statement of a successful [connect()]. *)
Definition connectedTail (enableAudio : bool) (l : Link) : Link :=
  if isOpen l then sendGreeting enableAudio l
  else setTimeout (TSendGreeting enableAudio) 500 l.

(** Running the callback of a timer.  An exception in the trigger callback
    is uncaught and leaves the refs as they are. *)
Definition runTimer (action : TimerAction) (l : Link) : Link :=
  match action with
  | TSendGreeting enableAudio => sendGreeting enableAudio l
  | TGreetingTrigger =>
      match send greetingTrigger l with
      | Ok l' => l'
      | Throw _ => l
      end
  end.

(** What can happen to the channel logic during one session lifetime. *)
Inductive LinkEvent :=
| EvConnected (enableAudio : bool)          (* a [connect()] reached its end *)
| EvChannel (dc : option ReadyState)        (* the channel ref or its state changes:
                                               open, close, cleanup, a new channel *)
| EvTimer (i : nat).                        (* the [i]-th pending timer fires *)

Definition linkStep (l : Link) (ev : LinkEvent) : Link :=
  match ev with
  | EvConnected enableAudio => connectedTail enableAudio l
  | EvChannel dc => set_dataChannel dc l
  | EvTimer i =>
      match timers l !! i with
      | Some (_, action) =>
          runTimer action
            {| dataChannelRef := dataChannelRef l;
               hasGreetedRef := hasGreetedRef l;
               sent := sent l;
               timers := delete i (timers l) |}
      | None => l
      end
  end.

Definition linkRun (l : Link) (evs : list LinkEvent) : Link :=
  fold_left linkStep evs l.

(** A freshly mounted component. *)
Definition newLink : Link :=
  {| dataChannelRef := None; hasGreetedRef := false; sent := []; timers := [] |}.

Definition is_greetingTrigger (m : ChannelMsg) : bool :=
  bool_decide (m = greetingTrigger).

(** How many greeting triggers were handed to the channel. *)
Definition greetingsSent (l : Link) : nat :=
  length (List.filter is_greetingTrigger (sent l)).

Definition is_triggerTimer (t : nat * TimerAction) : bool :=
  match t with (_, TGreetingTrigger) => true | _ => false end.

Definition triggersPending (l : Link) : nat :=
  length (List.filter is_triggerTimer (timers l)).

(** An event of a session in which audio is disabled. *)
Definition audioOff (ev : LinkEvent) : bool :=
  match ev with
  | EvConnected enableAudio => negb enableAudio
  | _ => true
  end.

(** While audio is disabled the flag stays down and every pending timer is
    a retry of [sendGreeting] with audio disabled. *)
Definition mutedInv (l : Link) : Prop :=
  hasGreetedRef l = false
  /\ Forall (fun t => snd t = TSendGreeting false) (timers l).

(** The invariant of the greeting logic: the trigger is pending or sent at
    most once in total, and not at all while the flag is down. *)
Definition greetingInv (l : Link) : Prop :=
  triggersPending l + greetingsSent l <= 1
  /\ (hasGreetedRef l = false -> triggersPending l + greetingsSent l = 0).

(* ===================================================================== *)
(** * src/components/VoiceChat.jsx: retry controller *)
(* ===================================================================== *)

Definition maxRetries : nat := 5.        (* Maximum retry attempts *)
Definition baseRetryDelay : Z := 2000.   (* Base delay in ms (2 seconds) *)

(** A retry handed to [setTimeout]: its delay in ms and the attempt number
    it is logged with. *)
Record RetryTimer := {
  delay : Z;
  attempt : nat;
}.

(** The refs and state of the retry logic.  [scheduled] lists every retry
    ever handed to [setTimeout], oldest first; [error_state] is the [error]
    state of the component. *)
Record RetryCtl := {
  retryCountRef : nat;
  retryTimeoutRef : option RetryTimer;
  scheduled : list RetryTimer;
  error_state : option (list N);
}.

(** [RTCPeerConnection.connectionState] and [.iceConnectionState] *)
Inductive PcState :=
| PcNew | PcConnecting | PcConnected | PcDisconnected | PcFailed | PcClosed.

Record PeerConnection := {
  connectionState : PcState;
  iceConnectionState : PcState;
}.

#[global] Instance PcState_eq_dec : EqDecision PcState.
Proof. solve_decision. Defined.

(** [scheduleRetry()] of [setupConnectionStateMonitoring] *)
Definition scheduleRetry (autoConnect : bool) (st : RetryCtl) : RetryCtl :=
  if negb autoConnect then st
  else if maxRetries <=? retryCountRef st then
    {| retryCountRef := retryCountRef st;
       retryTimeoutRef := retryTimeoutRef st;
       scheduled := scheduled st;
       error_state :=
         Some (Js.lit "Connection lost. Please try refreshing the page.") |}
  else
    let delay := (baseRetryDelay * 2 ^ Z.of_nat (retryCountRef st))%Z in
    let currentRetry := retryCountRef st + 1 in
    let timer := {| delay := delay; attempt := currentRetry |} in
    {| retryCountRef := currentRetry;
       retryTimeoutRef := Some timer;
       scheduled := scheduled st ++ [timer];
       error_state := error_state st |}.

(** [handleConnectionStateChange()], on a snapshot of the connection. *)
Definition handleConnectionStateChange (autoConnect : bool)
    (pc : PeerConnection) (st : RetryCtl) : RetryCtl :=
  let connState := connectionState pc in
  let iceState := iceConnectionState pc in
  if bool_decide (connState = PcDisconnected)
     || bool_decide (iceState = PcDisconnected)
  then scheduleRetry autoConnect st
  else if bool_decide (connState = PcFailed) || bool_decide (iceState = PcFailed)
  then scheduleRetry autoConnect st
  else if bool_decide (connState = PcConnected)
          && bool_decide (iceState = PcConnected)
  then {| retryCountRef := 0; retryTimeoutRef := None;
          scheduled := scheduled st; error_state := error_state st |}
  else st.

(** The callback of the timer set by [scheduleRetry], up to the point where
    it calls [connect()]: the state afterwards and whether [connect()] is
    called. *)
Definition retryTimerFires (autoConnect : bool) (pcRef : option PeerConnection)
    (st : RetryCtl) : RetryCtl * bool :=
  if negb autoConnect then (st, false)
  else
    match pcRef with
    | Some {| connectionState := PcConnected; iceConnectionState := PcConnected |} =>
        ({| retryCountRef := 0; retryTimeoutRef := retryTimeoutRef st;
            scheduled := scheduled st; error_state := error_state st |}, false)
    | _ => (st, true)
    end.

(** The [catch (err)] block of [connect()]. *)
Definition connectFailed (err : JsError) (st : RetryCtl) : RetryCtl :=
  let error' := Js.or_else (message err) (Some (Js.lit "Connection failed")) in
  if retryCountRef st <? maxRetries then
    let count := retryCountRef st + 1 in
    let delay := (baseRetryDelay * 2 ^ Z.of_nat (count - 1))%Z in
    let timer := {| delay := delay; attempt := count |} in
    {| retryCountRef := count;
       retryTimeoutRef := Some timer;
       scheduled := scheduled st ++ [timer];
       error_state := error' |}
  else
    {| retryCountRef := 0;
       retryTimeoutRef := retryTimeoutRef st;
       scheduled := scheduled st;
       error_state := error' |}.

(** The success path of [connect()]: [retryCountRef.current = 0]. *)
Definition connectSucceeded (st : RetryCtl) : RetryCtl :=
  {| retryCountRef := 0; retryTimeoutRef := retryTimeoutRef st;
     scheduled := scheduled st; error_state := None |}.

(** Connection events of one session, as the retry logic sees them. *)
Inductive RetryEvent :=
| EvStateChange (pc : PeerConnection)
| EvRetryTimer (pcRef : option PeerConnection)
| EvConnectFailed (err : JsError)
| EvConnectSucceeded.

Definition retryStep (autoConnect : bool) (st : RetryCtl) (ev : RetryEvent)
  : RetryCtl :=
  match ev with
  | EvStateChange pc => handleConnectionStateChange autoConnect pc st
  | EvRetryTimer pcRef => fst (retryTimerFires autoConnect pcRef st)
  | EvConnectFailed err => connectFailed err st
  | EvConnectSucceeded => connectSucceeded st
  end.

Definition retryRun (autoConnect : bool) (st : RetryCtl)
    (evs : list RetryEvent) : RetryCtl :=
  fold_left (retryStep autoConnect) evs st.

Definition newRetryCtl : RetryCtl :=
  {| retryCountRef := 0; retryTimeoutRef := None; scheduled := [];
     error_state := None |}.

(** An event that reports a failed attempt or a lost connection. *)
Definition isFailure (ev : RetryEvent) : bool :=
  match ev with
  | EvStateChange pc =>
      bool_decide (connectionState pc = PcDisconnected)
      || bool_decide (iceConnectionState pc = PcDisconnected)
      || bool_decide (connectionState pc = PcFailed)
      || bool_decide (iceConnectionState pc = PcFailed)
  | EvConnectFailed _ => true
  | _ => false
  end.

(** A scheduled retry is well timed when its attempt number is between 1
    and the ceiling and its delay is [base * 2^(attempt - 1)]. *)
Definition wellTimed (t : RetryTimer) : Prop :=
  1 <= attempt t <= maxRetries
  /\ delay t = (baseRetryDelay * 2 ^ (Z.of_nat (attempt t) - 1))%Z.

(** The invariant of the retry logic. *)
Definition retryInv (st : RetryCtl) : Prop :=
  retryCountRef st <= maxRetries /\ Forall wellTimed (scheduled st).

(* ===================================================================== *)
(** * src/lib/webrtc/events.js and the transcript handlers *)
(* ===================================================================== *)

(** The fields of an inbound event that [handleDataChannelEvent] and the
    handlers read, for string-valued fields. *)
Record ResponseEvent := {
  ev_transcript : option (list N);
  ev_delta : option (list N);
  ev_text : option (list N);
  ev_item_transcript : option (list N);
  ev_item_output_audio_transcript : option (list N);
  ev_item_text : option (list N);
  ev_item_content : option (list N);
  ev_part_transcript : option (list N);
  ev_part_text : option (list N);
  ev_part_content : option (list N);
  ev_part_delta : option (list N);
  ev_item_role : option (list N);
  ev_item_type : option (list N);
  ev_item_input_audio_transcript : option (list N);
  ev_error : option (list N);
}.

Record Message := {
  role : Role;
  msg_content : list N;
  createdAt : list N;
}.

Record Transcript := {
  currentUserMessageRef : list N;
  currentAssistantMessageRef : list N;
  conversationMessagesRef : list Message;
}.

(** Chained [a || b || ...] ending in [""]. *)
Definition first_truthy (l : list (option (list N))) : list N :=
  default [] (fold_right Js.or_else (Some []) l).

(** [extractText(value)] on a string or a falsy value. *)
Definition extractText (value : list N) : list N :=
  if negb (Js.truthy value) then [] else value.

(** [onResponseTranscript(event)] *)
Definition onResponseTranscript (event : ResponseEvent) (st : Transcript)
  : Transcript :=
  let text :=
    extractText
      (first_truthy
         [ev_transcript event; ev_delta event; ev_item_transcript event;
          ev_item_output_audio_transcript event; ev_item_text event;
          ev_item_content event; ev_part_transcript event;
          ev_part_text event; ev_part_content event; ev_part_delta event]) in
  let trimmedText := Js.trim text in
  if Js.truthy trimmedText then
    let currentText := currentAssistantMessageRef st in
    let isDelta :=
      Js.truthy_opt (Js.or_else (ev_delta event) (ev_part_delta event)) in
    let newText := if isDelta then currentText ++ trimmedText else trimmedText in
    if bool_decide (newText ≠ currentText)
       && (length currentText <? length newText)
    then {| currentUserMessageRef := currentUserMessageRef st;
            currentAssistantMessageRef := newText;
            conversationMessagesRef := conversationMessagesRef st |}
    else st
  else st.

(** [onResponseDone()]; [now] is [new Date().toISOString()]. *)
Definition onResponseDone (now : list N) (st : Transcript) : Transcript :=
  let assistantMsg := currentAssistantMessageRef st in
  if Js.truthy assistantMsg && Js.truthy (Js.trim assistantMsg) then
    {| currentUserMessageRef := currentUserMessageRef st;
       currentAssistantMessageRef := currentAssistantMessageRef st;
       conversationMessagesRef :=
         conversationMessagesRef st
         ++ [{| role := Assistant; msg_content := assistantMsg;
                createdAt := now |}] |}
  else st.

(** [onTranscriptionCompleted(event)], as far as the three refs go; [now] is
    [new Date().toISOString()]. *)
Definition onTranscriptionCompletedRefs (event : ResponseEvent) (now : list N)
    (st : Transcript) : Transcript :=
  let text :=
    first_truthy [ev_transcript event; ev_item_input_audio_transcript event] in
  if Js.truthy text && Js.truthy (Js.trim text) then
    if bool_decide (currentUserMessageRef st ≠ text) then
      {| currentUserMessageRef := text;
         currentAssistantMessageRef := currentAssistantMessageRef st;
         conversationMessagesRef :=
           conversationMessagesRef st
           ++ [{| role := User; msg_content := text; createdAt := now |}] |}
    else st
  else st.

(** The [type] of an inbound event: the case labels of
    [handleDataChannelEvent], and [OtherType] for its [default]. *)
Inductive WireType :=
| SessionCreated
| SessionUpdated
| ConversationCreated
| ConversationItemCreated
| InputAudioBufferSpeechStarted
| InputAudioBufferSpeechStopped
| InputAudioBufferCommitted
| ConversationItemInputAudioTranscriptionCompleted
| ResponseCreated
| ResponseOutputItemAdded
| ResponseContentPartAdded
| ResponseAudioTranscriptDelta
| ResponseAudioTranscriptDone
| ResponseAudioTranscriptCompleted
| ResponseDone
| ResponseCompleted
| ConversationItemOutputAudioCompleted
| ResponseStarted
| ErrorType
| OtherType.

#[global] Instance WireType_eq_dec : EqDecision WireType.
Proof. solve_decision. Defined.

(** [{ ...event, transcript: transcript }] *)
Definition withTranscript (transcript : list N) (event : ResponseEvent)
  : ResponseEvent :=
  {| ev_transcript := Some transcript;
     ev_delta := ev_delta event;
     ev_text := ev_text event;
     ev_item_transcript := ev_item_transcript event;
     ev_item_output_audio_transcript := ev_item_output_audio_transcript event;
     ev_item_text := ev_item_text event;
     ev_item_content := ev_item_content event;
     ev_part_transcript := ev_part_transcript event;
     ev_part_text := ev_part_text event;
     ev_part_content := ev_part_content event;
     ev_part_delta := ev_part_delta event;
     ev_item_role := ev_item_role event;
     ev_item_type := ev_item_type event;
     ev_item_input_audio_transcript := ev_item_input_audio_transcript event;
     ev_error := ev_error event |}.

(** [event.item?.role === r && event.item?.type === "message"] *)
Definition isMessageOf (r : list N) (event : ResponseEvent) : bool :=
  bool_decide (ev_item_role event = Some r)
  && bool_decide (ev_item_type event = Some (Js.lit "message")).

(** The [handlers] object, over the state [S] that the callbacks work on;
    a callback may be missing. *)
Record Handlers (S : Type) := {
  h_onSessionUpdate : option (ResponseEvent -> S -> S);
  h_onSpeechStarted : option (ResponseEvent -> S -> S);
  h_onSpeechStopped : option (ResponseEvent -> S -> S);
  h_onTranscriptionCompleted : option (ResponseEvent -> S -> S);
  h_onResponseStarted : option (ResponseEvent -> S -> S);
  h_onResponseTranscript : option (ResponseEvent -> S -> S);
  h_onResponseDone : option (ResponseEvent -> S -> S);
  h_onError : option (ResponseEvent -> S -> S);
}.

Arguments h_onSessionUpdate {S} _.
Arguments h_onSpeechStarted {S} _.
Arguments h_onSpeechStopped {S} _.
Arguments h_onTranscriptionCompleted {S} _.
Arguments h_onResponseStarted {S} _.
Arguments h_onResponseTranscript {S} _.
Arguments h_onResponseDone {S} _.
Arguments h_onError {S} _.

(** [if (handlers.onX) handlers.onX(event)] *)
Definition invoke {S : Type} (handler : option (ResponseEvent -> S -> S))
    (event : ResponseEvent) (st : S) : S :=
  match handler with
  | Some h => h event st
  | None => st
  end.

(** [handleDataChannelEvent(event, handlers)]; [type] is [event.type]. *)
Definition handleDataChannelEvent {S : Type} (type : WireType)
    (event : ResponseEvent) (handlers : Handlers S) (st : S) : S :=
  match type with
  | SessionCreated | SessionUpdated =>
      invoke (h_onSessionUpdate handlers) event st
  | ConversationCreated => st
  | ConversationItemCreated =>
      if isMessageOf (Js.lit "user") event then st
      else if isMessageOf (Js.lit "assistant") event then
        invoke (h_onResponseStarted handlers) event st
      else st
  | InputAudioBufferSpeechStarted =>
      invoke (h_onSpeechStarted handlers) event st
  | InputAudioBufferSpeechStopped =>
      invoke (h_onSpeechStopped handlers) event st
  | InputAudioBufferCommitted => st
  | ConversationItemInputAudioTranscriptionCompleted =>
      invoke (h_onTranscriptionCompleted handlers) event st
  | ResponseCreated => invoke (h_onResponseStarted handlers) event st
  | ResponseOutputItemAdded =>
      if isMessageOf (Js.lit "assistant") event then
        if Js.truthy_opt (ev_item_content event) then
          invoke (h_onResponseTranscript handlers)
            (withTranscript (default [] (ev_item_content event)) event) st
        else st
      else st
  | ResponseContentPartAdded =>
      let transcript :=
        first_truthy [ev_part_transcript event; ev_part_text event;
                      ev_part_content event; ev_part_delta event] in
      if Js.truthy transcript then
        invoke (h_onResponseTranscript handlers)
          (withTranscript transcript event) st
      else st
  | ResponseAudioTranscriptDone
  | ResponseAudioTranscriptDelta
  | ResponseAudioTranscriptCompleted =>
      match h_onResponseTranscript handlers with
      | Some onResponseTranscript =>
          let transcript :=
            first_truthy [ev_transcript event; ev_delta event; ev_text event] in
          if Js.truthy transcript then
            onResponseTranscript (withTranscript transcript event) st
          else st
      | None => st
      end
  | ResponseDone | ResponseCompleted | ConversationItemOutputAudioCompleted =>
      invoke (h_onResponseDone handlers) event st
  | ResponseStarted => invoke (h_onResponseStarted handlers) event st
  | ErrorType => invoke (h_onError handlers) event st
  | OtherType => st
  end.

(** The handlers of [connect()], as far as the three refs go: the handlers
    that write none of them leave the state as it is. *)
Definition refHandlers (now : list N) : Handlers Transcript :=
  {| h_onSessionUpdate := Some (fun _ st => st);
     h_onSpeechStarted := Some (fun _ st => st);
     h_onSpeechStopped := Some (fun _ st => st);
     h_onTranscriptionCompleted :=
       Some (fun event => onTranscriptionCompletedRefs event now);
     h_onResponseStarted := Some (fun _ st => st);
     h_onResponseTranscript := Some onResponseTranscript;
     h_onResponseDone := Some (fun _ => onResponseDone now);
     h_onError := Some (fun _ st => st) |}.

(** A partial: [{ type: "response.audio_transcript.delta", delta }]. *)
Definition partialEvent (delta : list N) : ResponseEvent :=
  {| ev_transcript := None; ev_delta := Some delta; ev_text := None;
     ev_item_transcript := None; ev_item_output_audio_transcript := None;
     ev_item_text := None; ev_item_content := None;
     ev_part_transcript := None; ev_part_text := None;
     ev_part_content := None; ev_part_delta := None;
     ev_item_role := None; ev_item_type := None;
     ev_item_input_audio_transcript := None; ev_error := None |}.

(** A full transcript: [{ type: "response.audio_transcript.done", transcript }]. *)
Definition fullEvent (transcript : list N) : ResponseEvent :=
  {| ev_transcript := Some transcript; ev_delta := None; ev_text := None;
     ev_item_transcript := None; ev_item_output_audio_transcript := None;
     ev_item_text := None; ev_item_content := None;
     ev_part_transcript := None; ev_part_text := None;
     ev_part_content := None; ev_part_delta := None;
     ev_item_role := None; ev_item_type := None;
     ev_item_input_audio_transcript := None; ev_error := None |}.

Definition newTranscript : Transcript :=
  {| currentUserMessageRef := []; currentAssistantMessageRef := [];
     conversationMessagesRef := [] |}.

(* ===================================================================== *)
(** * src/components/VoiceChat.jsx: saveConversation and disconnect *)
(* ===================================================================== *)

(** Everything the component keeps for one mounted voice chat. *)
Record VoiceChat := {
  retry : RetryCtl;
  transcript : Transcript;
  link : Link;
  prewarm : Prewarm;
  pcRef : option PeerConnection;
  streamRef : bool;
  listeners : bool;
  speechRecognitionRef : bool;
  isConnected : bool;
  isConnecting : bool;
  isRecording : bool;
  isPlaying : bool;
  interimTranscript : list N;
  conversationMessages : list Message;
  sessionId : option (list N);
  requests : list NetRequest;
  cleanups : nat;
  conversationEnded : list (list Message * option (list N));
}.

(** The [exchanges] loop of [saveConversation]: messages are read two by
    two, and a pair is kept when it is a user turn followed by an assistant
    turn. *)
Fixpoint buildExchanges (messages : list Message)
  : list (list N * list N * list N) :=
  match messages with
  | userMsg :: assistantMsg :: rest =>
      (if bool_decide (role userMsg = User)
          && bool_decide (role assistantMsg = Assistant)
       then [(msg_content userMsg, msg_content assistantMsg,
              createdAt assistantMsg)]
       else [])
      ++ buildExchanges rest
  | _ => []
  end.

(** [saveConversation()]: the request it issues, if any.  Its own
    [try/catch] keeps every failure inside. *)
Definition saveConversation (sessionId : option (list N))
    (messages : list Message) : list NetRequest :=
  match sessionId with
  | Some sid =>
      if negb (Js.truthy sid) then []
      else
        match messages with
        | [] => []
        | _ =>
            [SaveFetch sid
               (List.map (fun msg => (role msg, msg_content msg, createdAt msg))
                  messages)
               (buildExchanges messages)]
        end
  | None => []
  end.

(** [disconnect()].  [onConversationEnd] tells whether the parent passed
    that callback. *)
Definition disconnect (onConversationEnd : bool) (vc : VoiceChat) : VoiceChat :=
  let messagesToShow := conversationMessagesRef (transcript vc) in
  let saved := saveConversation (sessionId vc) messagesToShow in
  {| retry :=
       {| retryCountRef := 0; retryTimeoutRef := None;
          scheduled := scheduled (retry vc); error_state := None |};
     transcript :=
       {| currentUserMessageRef := [];
          currentAssistantMessageRef := [];
          conversationMessagesRef := [] |};
     link := set_dataChannel None (link vc);
     prewarm := prewarm vc;
     pcRef := None;
     streamRef := false;
     listeners := match pcRef vc with Some _ => false | None => listeners vc end;
     speechRecognitionRef := false;
     isConnected := false;
     isConnecting := false;
     isRecording := false;
     isPlaying := false;
     interimTranscript := [];
     conversationMessages := [];
     sessionId := None;
     requests := requests vc ++ saved;
     cleanups :=
       match pcRef vc with
       | Some _ => S (cleanups vc)
       | None => if streamRef vc then S (cleanups vc) else cleanups vc
       end;
     conversationEnded :=
       match messagesToShow with
       | _ :: _ =>
           if onConversationEnd
           then conversationEnded vc ++ [(messagesToShow, sessionId vc)]
           else conversationEnded vc
       | [] => conversationEnded vc
       end |}.

(* ===================================================================== *)
(** * Sample inputs *)
(* ===================================================================== *)

(** An environment in which every collaborator answers and the store is
    empty. *)
Definition quietEnv : Env :=
  {| env_getQdrantClient := Ok tt;
     env_ensureCollectionOnce :=
       Ok {| name := Js.lit "document_chunks"; isNamedVector := Some true |};
     env_generateLocalEmbedding := fun _ => Ok (EmbArray (replicate 1536 (ENumber (S754_zero false))));
     env_search := fun _ => Ok (Some []);
     env_getCollection := Ok 0%N;
     env_development := false |}.


(** The vector store is unreachable: every search throws. *)
Definition unreachableStoreEnv : Env :=
  {| env_getQdrantClient := Ok tt;
     env_ensureCollectionOnce :=
       Ok {| name := Js.lit "document_chunks"; isNamedVector := Some true |};
     env_generateLocalEmbedding := fun _ => Ok (EmbArray (replicate 1536 (ENumber (S754_zero false))));
     env_search := fun _ => Throw (Error (Js.lit "fetch failed"));
     env_getCollection := Throw (Error (Js.lit "fetch failed"));
     env_development := false |}.

(** The embedding call hands back 384 numbers. *)
Definition shortEmbeddingEnv : Env :=
  {| env_getQdrantClient := Ok tt;
     env_ensureCollectionOnce :=
       Ok {| name := Js.lit "document_chunks"; isNamedVector := Some true |};
     env_generateLocalEmbedding := fun _ => Ok (EmbArray (replicate 384 (ENumber (S754_zero false))));
     env_search := fun _ => Ok (Some []);
     env_getCollection := Ok 0%N;
     env_development := false |}.

(** A chunk of the knowledge base with a given similarity. *)
Definition sampleChunk (text : string) (s : Q) : Chunk :=
  {| id := 1%N; document_id := Some (Js.lit "doc");
     chunk_index := None; chunk_id := Some (Js.lit "doc_0");
     content := Js.lit text; category := Some (Js.lit "fees");
     file_name := Some (Js.lit "fees.pdf"); similarity := Some s |}.

Definition feesChunk : Chunk := sampleChunk "B.Tech fees are 8 lakhs." (61 # 100).
Definition weatherChunk : Chunk := sampleChunk "B.Tech fees are 8 lakhs." (4 # 100).

Definition feesQuestion : list N :=
  Js.lit "What are the fees for the B.Tech program?".
Definition weatherQuestion : list N := Js.lit "What's the weather today?".

(** A channel that is open, before anything was sent. *)
Definition openLink : Link :=
  {| dataChannelRef := Some RsOpen; hasGreetedRef := false; sent := [];
     timers := [] |}.

Definition emptyPrewarm : Prewarm :=
  {| prewarmCacheRef := ∅; prewarmAbortRef := false; aborts := 0 |}.

(** The endpoint in front of a store that holds [feesChunk] for the fees
    question and answers everything else with [weatherChunk]. *)
Definition sampleFetch (request : NetRequest) : FetchOutcome :=
  match request with
  | RagContextFetch question _ _ _ _ =>
      if bool_decide (question = feesQuestion)
      then Resolved (gate [feesChunk])
      else Resolved (gate [weatherChunk])
  | SaveFetch _ _ _ => Rejected (Error (Js.lit "not a retrieval request"))
  end.

(** The prewarm refs after [prewarmContext] ran on a question. *)
Definition prewarmedWith (question : list N) : Prewarm :=
  fst (prewarmContext sampleFetch None None (Some question) openLink emptyPrewarm).

(** A connected chat with one exchange and a prewarmed entry. *)
Definition sampleChat : VoiceChat :=
  {| retry := {| retryCountRef := 2;
                 retryTimeoutRef := Some {| delay := 4000; attempt := 2 |};
                 scheduled := [{| delay := 2000; attempt := 1 |};
                               {| delay := 4000; attempt := 2 |}];
                 error_state := None |};
     transcript :=
       {| currentUserMessageRef := feesQuestion;
          currentAssistantMessageRef := Js.lit "8 lakhs only";
          conversationMessagesRef :=
            [{| role := User; msg_content := feesQuestion;
                createdAt := Js.lit "2025-01-01T00:00:00.000Z" |};
             {| role := Assistant; msg_content := Js.lit "8 lakhs only";
                createdAt := Js.lit "2025-01-01T00:00:02.000Z" |}] |};
     link := {| dataChannelRef := Some RsOpen; hasGreetedRef := true;
                sent := [greetingTrigger]; timers := [] |};
     prewarm := prewarmedWith feesQuestion;
     pcRef := Some {| connectionState := PcConnected;
                      iceConnectionState := PcConnected |};
     streamRef := true;
     listeners := true;
     speechRecognitionRef := true;
     isConnected := true;
     isConnecting := false;
     isRecording := false;
     isPlaying := false;
     interimTranscript := [];
     conversationMessages := [];
     sessionId := Some (Js.lit "voice-1");
     requests := [];
     cleanups := 0;
     conversationEnded := [] |}.

(** Inbound events, as they arrive, on the three refs. *)
Definition transcriptRun (st : Transcript)
    (evs : list (WireType * ResponseEvent)) : Transcript :=
  fold_left
    (fun st ev => handleDataChannelEvent (fst ev) (snd ev) (refHandlers []) st)
    evs st.

(** A reply whose partial "Hello" arrives twice, then its full transcript,
    then the completion event. *)
Definition duplicatedPartialReply : list (WireType * ResponseEvent) :=
  [(ResponseAudioTranscriptDelta, partialEvent (Js.lit "Hello"));
   (ResponseAudioTranscriptDelta, partialEvent (Js.lit "Hello"));
   (ResponseAudioTranscriptDone, fullEvent (Js.lit "Hello"));
   (ResponseDone, fullEvent [])].

(** A reply in two partials, its full transcript and the completion. *)
Definition plainReply : list (WireType * ResponseEvent) :=
  [(ResponseAudioTranscriptDelta, partialEvent (Js.lit "Hello"));
   (ResponseAudioTranscriptDelta, partialEvent (Js.lit " there"));
   (ResponseAudioTranscriptDone, fullEvent (Js.lit "Hello there"));
   (ResponseDone, fullEvent [])].

(** The channel opens, [connect()] completes with audio disabled (a session
    kept warm in the background), the channel opens again after a
    reconnection and [connect()] completes once more. *)
Definition mutedSession : list LinkEvent :=
  [EvChannel (Some RsOpen); EvConnected false;
   EvChannel (Some RsClosed); EvChannel (Some RsOpen); EvConnected false].

(** [connect()] completes before the channel is open; the channel opens,
    the retry of [sendGreeting] fires, then the trigger timer; the
    connection is lost and re-established, and [connect()] completes again. *)
Definition reconnectingSession : list LinkEvent :=
  [EvChannel (Some RsConnecting); EvConnected true;
   EvChannel (Some RsOpen); EvTimer 0; EvTimer 0;
   EvChannel None; EvChannel (Some RsConnecting); EvChannel (Some RsOpen);
   EvConnected true; EvChannel (Some RsOpen); EvConnected true].

(** The greeting is armed and the channel is torn down before the 300 ms
    trigger timer fires. *)
Definition tornDownSession : list LinkEvent :=
  [EvChannel (Some RsOpen); EvConnected true; EvChannel None; EvTimer 0;
   EvChannel (Some RsOpen); EvConnected true].

Definition connectionRefused : JsError := Error (Js.lit "Failed to send offer").

(** Six connection attempts in a row fail. *)
Definition sixFailures : list RetryEvent :=
  replicate 6 (EvConnectFailed connectionRefused).

(** Three failures, then an attempt that succeeds. *)
Definition threeFailuresThenSuccess : list RetryEvent :=
  replicate 3 (EvConnectFailed connectionRefused) ++ [EvConnectSucceeded].

(** A live connection drops five times and the monitor schedules every
    retry; the drop after that finds the counter at the ceiling. *)
Definition lostConnection : PeerConnection :=
  {| connectionState := PcDisconnected; iceConnectionState := PcDisconnected |}.

(** The retrieval service in front of the local embedding model. *)
Definition withEmbedder (e : Embedder) (env : Env) : Env :=
  {| env_getQdrantClient := env_getQdrantClient env;
     env_ensureCollectionOnce := env_ensureCollectionOnce env;
     env_generateLocalEmbedding := fun text => generateLocalEmbedding e (Some text);
     env_search := env_search env;
     env_getCollection := env_getCollection env;
     env_development := env_development env |}.

(** A model that answers with 384 numbers, the third of them NaN. *)
Definition nanEmbedder : Embedder :=
  {| getEmbedder := Ok tt;
     model := fun _ =>
       Ok (OutArray (<[2 := S754_nan]> (replicate 384 (Ieee.double 1 (-4))))) |}.

(** Two binary32 numbers, 0.60000008 and 0.80000001: a vector of norm 1 up
    to binary32 rounding (1.00000006), as a model run with
    [normalize: true] hands back. *)
Definition nearUnitVector : list spec_float :=
  [Ieee.double 10066331 (-24); Ieee.double 13421773 (-24)].

(** A model whose output is that vector. *)
Definition nearUnitEmbedder : Embedder :=
  {| getEmbedder := Ok tt;
     model := fun _ => Ok (OutArray nearUnitVector) |}.

(** A model that fails to load. *)
Definition brokenEmbedder : Embedder :=
  {| getEmbedder := Throw (Error (Js.lit "Failed to load model"));
     model := fun _ =>
       Ok (OutNotConvertible (Js.lit "undefined is not iterable")) |}.

(* ===================================================================== *)
(** * src/lib/clients/qdrant.js: ensureCollectionOnce *)
(* ===================================================================== *)

(** [collectionInfo.config?.params?.vectors]: the entry [content] with its
    [size] (a named vector), and a [size] of its own (a single vector). *)
Record Vectors := {
  vectors_content : option (option nat);
  vectors_size : option nat;
}.

(** The object kept in [cachedCollectionInfo]. *)
Record CachedCollection := {
  cached_name : list N;
  cached_exists : bool;
  cached_info : option Vectors;
  cached_isNamedVector : bool;
}.

(** An awaited call of the client: done, or failed with an error that may
    carry a [status]. *)
Inductive outcome (A : Type) : Type :=
| Done (a : A)
| Fails (e : JsError) (status : option nat).
Arguments Done {A} a.
Arguments Fails {A} e status.

(** The vector store as [ensureCollectionOnce] meets it: the outcome of the
    first [getCollection], of [createCollection], and of a [getCollection]
    made after [createCollection] was tried. *)
Record QdrantClient := {
  getQdrantClient : result unit;
  getCollection : result (option Vectors);
  createCollection : outcome unit;
  getCollectionAgain : outcome (option Vectors);
}.

Inductive ClientCall :=
| GetCollection (name : list N)
| CreateCollection (name : list N) (size : nat).

(** [!!n] on a number. *)
Definition truthy_nat (n : option nat) : bool :=
  match n with Some (S _) => true | _ => false end.

(** [collectionName || process.env.QDRANT_COLLECTION_NAME || 'document_chunks'] *)
Definition collectionNameOf (envName collectionName : option (list N)) : list N :=
  default [] (Js.or_else collectionName
                (Js.or_else envName (Some (Js.lit "document_chunks")))).

(** [createError.message?.includes('already exists') || createError.status === 409] *)
Definition alreadyExists (createError : JsError) (status : option nat) : bool :=
  message_includes createError "already exists" || bool_decide (status = Some 409).

(** The [catch (createError)] block: the collection was created by another
    request, so it is read (the store answers as it did just before), or
    the error is thrown again. *)
Definition afterCreateError (client : QdrantClient) (name : list N)
    (createError : JsError) (status : option nat)
    (cachedCollectionInfo : option CachedCollection) (calls : list ClientCall)
  : result CachedCollection * option CachedCollection * list ClientCall :=
  if alreadyExists createError status then
    match getCollectionAgain client with
    | Done existingInfo =>
        let cached :=
          {| cached_name := name; cached_exists := true;
             cached_info := existingInfo;
             cached_isNamedVector :=
               match existingInfo ≫= vectors_content with
               | Some _ => true
               | None => false
               end |} in
        (Ok cached, Some cached, calls ++ [GetCollection name])
    | Fails error _ =>
        (Throw error, cachedCollectionInfo, calls ++ [GetCollection name])
    end
  else (Throw createError, cachedCollectionInfo, calls).

(** [ensureCollectionOnce(collectionName)]: the outcome, the new value of
    the module variable [cachedCollectionInfo], and the calls made to the
    client. *)
Definition ensureCollectionOnce (client : QdrantClient)
    (envName collectionName : option (list N))
    (cachedCollectionInfo : option CachedCollection)
  : result CachedCollection * option CachedCollection * list ClientCall :=
  let name := collectionNameOf envName collectionName in
  let miss :=
    match getQdrantClient client with
    | Throw error => (Throw error, cachedCollectionInfo, [])
    | Ok _ =>
        (* client.getCollection(name).catch(() => null) *)
        match getCollection client with
        | Ok vectors =>
            let named :=
              match vectors ≫= vectors_content with
              | Some _ => true
              | None => false
              end in
            let vectorSize :=
              match vectors ≫= vectors_content with
              | Some size => size
              | None =>
                  if truthy_nat (vectors ≫= vectors_size)
                  then vectors ≫= vectors_size
                  else None
              end in
            if truthy_nat vectorSize && negb (default 0 vectorSize =? 1536) then
              (Throw (Error (Js.lit "Collection " ++ name
                             ++ Js.lit " has wrong vector size: "
                             ++ Js.ofNat (default 0 vectorSize)
                             ++ Js.lit ", expected 1536")),
               cachedCollectionInfo, [GetCollection name])
            else
              let cached :=
                {| cached_name := name; cached_exists := true;
                   cached_info := vectors; cached_isNamedVector := named |} in
              (Ok cached, Some cached, [GetCollection name])
        | Throw _ =>
            match createCollection client with
            | Done _ =>
                match getCollectionAgain client with
                | Done newCollectionInfo =>
                    let cached :=
                      {| cached_name := name; cached_exists := false;
                         cached_info := newCollectionInfo;
                         cached_isNamedVector := true |} in
                    (Ok cached, Some cached,
                     [GetCollection name; CreateCollection name 1536;
                      GetCollection name])
                | Fails createError status =>
                    afterCreateError client name createError status
                      cachedCollectionInfo
                      [GetCollection name; CreateCollection name 1536;
                       GetCollection name]
                end
            | Fails createError status =>
                afterCreateError client name createError status
                  cachedCollectionInfo
                  [GetCollection name; CreateCollection name 1536]
            end
        end
    end in
  match cachedCollectionInfo with
  | Some cached =>
      if bool_decide (cached_name cached = name)
      then (Ok cached, cachedCollectionInfo, [])
      else miss
  | None => miss
  end.

(** What [retrieveChunksFromQdrant] reads from the cached object. *)
Definition collectionInfoOf (cached : CachedCollection) : CollectionInfo :=
  {| name := cached_name cached;
     isNamedVector := Some (cached_isNamedVector cached) |}.

(* ===================================================================== *)
(** * src/lib/rag/qdrant-retrieve.js: storeChunkInQdrant *)
(* ===================================================================== *)

(** The arguments of [storeChunkInQdrant]. *)
Record StoreParams := {
  sp_document_id : option (list N);
  sp_chunk_index : option N;
  sp_content : option (list N);
  sp_category : option (list N);
  sp_file_name : option (list N);
  sp_embedding : EmbVal;
  (* [embedding?.length] when [embedding] is not an array *)
  sp_embedding_length : option nat;
  sp_collectionName : option (list N);
  sp_isNamedVector : bool;
}.

(** One point handed to [client.upsert]. *)
Record Point := {
  point_id : list N;
  point_named : bool;
  point_vector : list EmbElem;
  point_payload : Payload;
}.

Inductive StoreCall :=
| Upsert (collectionName : list N) (point : Point).

Record StoreReceipt := {
  success : bool;
  pointId : list N;
  chunkId : list N;
}.

(** [`${v}`] on a string or undefined. *)
Definition interpolate (v : option (list N)) : list N :=
  default (Js.lit "undefined") v.

(** [`${n}`] on a number or undefined. *)
Definition interpolate_index (n : option N) : list N :=
  match n with
  | Some n => Js.ofNat (N.to_nat n)
  | None => Js.lit "undefined"
  end.

(** [v && String(v).trim()] *)
Definition present (v : option (list N)) : bool :=
  match v with
  | Some s => Js.truthy s && Js.truthy (Js.trim s)
  | None => false
  end.

(** The payload object built by [storeChunkInQdrant]. *)
Definition payloadOf (p : StoreParams) : Payload :=
  {| p_document_id := Some (default [] (Js.or_else (sp_document_id p) (Some [])));
     p_chunk_index := Some (default 0%N (index_or_null (sp_chunk_index p)));
     p_chunk_id :=
       Some (interpolate (sp_document_id p) ++ Js.lit "_"
             ++ interpolate_index (sp_chunk_index p));
     p_text := Some (default [] (Js.or_else (sp_content p) (Some [])));
     p_content := None;
     p_category := if present (sp_category p) then sp_category p else None;
     p_file_name := if present (sp_file_name p) then sp_file_name p else None |}.

(** [storeChunkInQdrant(params)]: the outcome and the calls to the client.
    [client] is the outcome of [getQdrantClient()], [uuid] the value of
    [randomUUID()] and [upsert] the outcome of [client.upsert]. *)
Definition storeChunkInQdrant (client : result unit) (uuid : list N)
    (upsert : result unit) (p : StoreParams)
  : result StoreReceipt * list StoreCall :=
  match client with
  | Throw error => (Throw error, [])
  | Ok _ =>
      if negb (Js.truthy_opt (sp_collectionName p)) then
        (Throw (Error (Js.lit "Collection name is required. Call ensureCollectionOnce() first.")),
         [])
      else
        match sp_embedding p with
        | EmbArray embedding =>
            if negb (length embedding =? 1536) then
              (Throw (Error (Js.lit "Invalid embedding vector: expected array of 1536 numbers, got "
                             ++ Js.ofNat (length embedding) ++ Js.lit " items")),
               [])
            else if existsb not_a_valid_number embedding then
              (Throw (Error (Js.lit "Invalid embedding: all values must be numbers")),
               [])
            else
              let payload := payloadOf p in
              let point :=
                {| point_id := uuid; point_named := sp_isNamedVector p;
                   point_vector := embedding; point_payload := payload |} in
              let calls := [Upsert (default [] (sp_collectionName p)) point] in
              match upsert with
              | Ok _ =>
                  (Ok {| success := true; pointId := uuid;
                         chunkId := default [] (p_chunk_id payload) |}, calls)
              | Throw error => (Throw error, calls)
              end
        | _ =>
            (Throw (Error (Js.lit "Invalid embedding vector: expected array of 1536 numbers, got "
                           ++ Js.ofNat (default 0 (sp_embedding_length p))
                           ++ Js.lit " items")),
             [])
        end
  end.

(* ===================================================================== *)
(** * src/components/VoiceChat.jsx: the handlers of one connection *)
(* ===================================================================== *)

(** The values the handlers of one [connect()] close over: the session id
    of the render that built [connect] (read by the handlers themselves, by
    their [saveConversation] and by their [prewarmContext]), the session id
    inside the [fetchAndSendContext] of that render, the category of that
    render, [fetch], and whether [initializeSpeechRecognition()] yields a
    recogniser in this browser. *)
Record Closure := {
  cl_sessionId : option (list N);
  cl_fetchSessionId : option (list N);
  cl_category : option (list N);
  cl_fetch : NetRequest -> FetchOutcome;
  cl_speechRecognition : bool;
}.

(** The chat with the parts the handlers write replaced. *)
Definition updated (t : Transcript) (l : Link) (interim : list N)
    (messages : list Message) (reqs : list NetRequest) (vc : VoiceChat)
  : VoiceChat :=
  {| retry := retry vc;
     transcript := t;
     link := l;
     prewarm := prewarm vc;
     pcRef := pcRef vc;
     streamRef := streamRef vc;
     listeners := listeners vc;
     speechRecognitionRef := speechRecognitionRef vc;
     isConnected := isConnected vc;
     isConnecting := isConnecting vc;
     isRecording := isRecording vc;
     isPlaying := isPlaying vc;
     interimTranscript := interim;
     conversationMessages := messages;
     sessionId := sessionId vc;
     requests := reqs;
     cleanups := cleanups vc;
     conversationEnded := conversationEnded vc |}.

(** [setIsRecording(b)] *)
Definition setIsRecording (b : bool) (vc : VoiceChat) : VoiceChat :=
  {| retry := retry vc;
     transcript := transcript vc;
     link := link vc;
     prewarm := prewarm vc;
     pcRef := pcRef vc;
     streamRef := streamRef vc;
     listeners := listeners vc;
     speechRecognitionRef := speechRecognitionRef vc;
     isConnected := isConnected vc;
     isConnecting := isConnecting vc;
     isRecording := b;
     isPlaying := isPlaying vc;
     interimTranscript := interimTranscript vc;
     conversationMessages := conversationMessages vc;
     sessionId := sessionId vc;
     requests := requests vc;
     cleanups := cleanups vc;
     conversationEnded := conversationEnded vc |}.

(** [setIsPlaying(b)] *)
Definition setIsPlaying (b : bool) (vc : VoiceChat) : VoiceChat :=
  {| retry := retry vc;
     transcript := transcript vc;
     link := link vc;
     prewarm := prewarm vc;
     pcRef := pcRef vc;
     streamRef := streamRef vc;
     listeners := listeners vc;
     speechRecognitionRef := speechRecognitionRef vc;
     isConnected := isConnected vc;
     isConnecting := isConnecting vc;
     isRecording := isRecording vc;
     isPlaying := b;
     interimTranscript := interimTranscript vc;
     conversationMessages := conversationMessages vc;
     sessionId := sessionId vc;
     requests := requests vc;
     cleanups := cleanups vc;
     conversationEnded := conversationEnded vc |}.

(** [setError(message)] *)
Definition setError (message : list N) (vc : VoiceChat) : VoiceChat :=
  {| retry :=
       {| retryCountRef := retryCountRef (retry vc);
          retryTimeoutRef := retryTimeoutRef (retry vc);
          scheduled := scheduled (retry vc);
          error_state := Some message |};
     transcript := transcript vc;
     link := link vc;
     prewarm := prewarm vc;
     pcRef := pcRef vc;
     streamRef := streamRef vc;
     listeners := listeners vc;
     speechRecognitionRef := speechRecognitionRef vc;
     isConnected := isConnected vc;
     isConnecting := isConnecting vc;
     isRecording := isRecording vc;
     isPlaying := isPlaying vc;
     interimTranscript := interimTranscript vc;
     conversationMessages := conversationMessages vc;
     sessionId := sessionId vc;
     requests := requests vc;
     cleanups := cleanups vc;
     conversationEnded := conversationEnded vc |}.

(** The chat after a [prewarmContext] that left the refs [pw] and issued
    the requests [reqs]. *)
Definition afterPrewarm (pw : Prewarm) (reqs : list NetRequest) (vc : VoiceChat)
  : VoiceChat :=
  {| retry := retry vc;
     transcript := transcript vc;
     link := link vc;
     prewarm := pw;
     pcRef := pcRef vc;
     streamRef := streamRef vc;
     listeners := listeners vc;
     speechRecognitionRef := speechRecognitionRef vc;
     isConnected := isConnected vc;
     isConnecting := isConnecting vc;
     isRecording := isRecording vc;
     isPlaying := isPlaying vc;
     interimTranscript := interimTranscript vc;
     conversationMessages := conversationMessages vc;
     sessionId := sessionId vc;
     requests := requests vc ++ reqs;
     cleanups := cleanups vc;
     conversationEnded := conversationEnded vc |}.

(** [startInterimSTT()]: the recogniser is created on first use, when the
    browser has one, and the interim transcript is reset. *)
Definition startInterimSTT (cl : Closure) (vc : VoiceChat) : VoiceChat :=
  if negb (speechRecognitionRef vc) && negb (cl_speechRecognition cl) then vc
  else
    {| retry := retry vc;
       transcript := transcript vc;
       link := link vc;
       prewarm := prewarm vc;
       pcRef := pcRef vc;
       streamRef := streamRef vc;
       listeners := listeners vc;
       speechRecognitionRef := true;
       isConnected := isConnected vc;
       isConnecting := isConnecting vc;
       isRecording := isRecording vc;
       isPlaying := isPlaying vc;
       interimTranscript := [];
       conversationMessages := conversationMessages vc;
       sessionId := sessionId vc;
       requests := requests vc;
       cleanups := cleanups vc;
       conversationEnded := conversationEnded vc |}.

(** [stopInterimSTT()] *)
Definition stopInterimSTT (vc : VoiceChat) : VoiceChat :=
  if negb (speechRecognitionRef vc) then vc
  else updated (transcript vc) (link vc) [] (conversationMessages vc)
         (requests vc) vc.

(** [if (sessionId) saveConversation()] inside a handler. *)
Definition saveIncrementally (sessionId : option (list N))
    (messages : list Message) : list NetRequest :=
  if Js.truthy_opt sessionId then saveConversation sessionId messages else [].

(** [onSpeechStarted()]: the prewarm uses the last accepted user message,
    when there is one. *)
Definition onSpeechStarted (cl : Closure) (vc : VoiceChat) : VoiceChat :=
  let vc := startInterimSTT cl (setIsRecording true vc) in
  if Js.truthy (currentUserMessageRef (transcript vc)) then
    let warmed :=
      prewarmContext (cl_fetch cl) (cl_sessionId cl) (cl_category cl)
        (Some (currentUserMessageRef (transcript vc))) (link vc) (prewarm vc) in
    afterPrewarm (fst warmed) (snd warmed) vc
  else vc.

(** [onSpeechStopped()] *)
Definition onSpeechStopped (vc : VoiceChat) : VoiceChat :=
  stopInterimSTT (setIsRecording false vc).

(** [onTranscriptionCompleted(event)]; [now] is [new Date().toISOString()]. *)
Definition onTranscriptionCompleted (cl : Closure) (event : ResponseEvent)
    (now : list N) (vc : VoiceChat) : VoiceChat :=
  let text :=
    first_truthy [ev_transcript event; ev_item_input_audio_transcript event] in
  let vc := stopInterimSTT vc in
  if Js.truthy text && Js.truthy (Js.trim text) then
    if bool_decide (currentUserMessageRef (transcript vc) ≠ text) then
      let userMsg := {| role := User; msg_content := text; createdAt := now |} in
      let messages := conversationMessagesRef (transcript vc) ++ [userMsg] in
      let saved := saveIncrementally (cl_sessionId cl) messages in
      let sentContext :=
        fetchAndSendContext (cl_fetch cl) (cl_fetchSessionId cl)
          (cl_category cl) (Some text) (prewarm vc) (link vc) in
      updated
        {| currentUserMessageRef := text;
           currentAssistantMessageRef :=
             currentAssistantMessageRef (transcript vc);
           conversationMessagesRef := messages |}
        (fst sentContext) [] messages
        (requests vc ++ saved ++ snd sentContext) vc
    else vc
  else vc.

(** [onResponseStarted()] *)
Definition onResponseStarted (vc : VoiceChat) : VoiceChat :=
  setIsPlaying true vc.

(** [onResponseTranscript(event)] on the chat: it writes the ref of the
    reply and nothing else that is kept here. *)
Definition onResponseTranscriptHeard (event : ResponseEvent) (vc : VoiceChat)
  : VoiceChat :=
  updated (onResponseTranscript event (transcript vc)) (link vc)
    (interimTranscript vc) (conversationMessages vc) (requests vc) vc.

(** [onResponseDone()] with the state update and the incremental save that
    follow the ref update. *)
Definition onResponseDoneSaved (cl : Closure) (now : list N) (vc : VoiceChat)
  : VoiceChat :=
  let assistantMsg := currentAssistantMessageRef (transcript vc) in
  if Js.truthy assistantMsg && Js.truthy (Js.trim assistantMsg) then
    let t := onResponseDone now (transcript vc) in
    updated t (link vc) (interimTranscript vc) (conversationMessagesRef t)
      (requests vc
       ++ saveIncrementally (cl_sessionId cl) (conversationMessagesRef t)) vc
  else vc.

(** [onError(event)]:
    [setError(event.error || "An error occurred in the voice chat")] *)
Definition onError (event : ResponseEvent) (vc : VoiceChat) : VoiceChat :=
  setError
    (default []
       (Js.or_else (ev_error event)
          (Some (Js.lit "An error occurred in the voice chat")))) vc.

(** [dataChannelCallback], the handlers object of [connect()].  What the
    handlers only measure, log or report to the parent component (the
    timing refs, the console, [onMessageAdd]) is not part of the chat's
    state here.  [onResponseDone] also sets a timer that lowers
    [isPlaying] half a second later; its firing is not an inbound message
    and is not followed. *)
Definition dataChannelCallback (cl : Closure) (now : list N)
  : Handlers VoiceChat :=
  {| h_onSessionUpdate := Some (fun _ vc => vc);
     h_onSpeechStarted := Some (fun _ => onSpeechStarted cl);
     h_onSpeechStopped := Some (fun _ => onSpeechStopped);
     h_onTranscriptionCompleted :=
       Some (fun event => onTranscriptionCompleted cl event now);
     h_onResponseStarted := Some (fun _ => onResponseStarted);
     h_onResponseTranscript := Some onResponseTranscriptHeard;
     h_onResponseDone := Some (fun _ => onResponseDoneSaved cl now);
     h_onError := Some onError |}.

(** One inbound message of the control channel, with the clock reading at
    its arrival. *)
Record Inbound := {
  in_type : WireType;
  in_event : ResponseEvent;
  in_now : list N;
}.

(** The callback handed to [setupDataChannel]:
    [(event) => handleDataChannelEvent(event, dataChannelCallback)]. *)
Definition sessionStep (cl : Closure) (vc : VoiceChat) (ev : Inbound)
  : VoiceChat :=
  handleDataChannelEvent (in_type ev) (in_event ev)
    (dataChannelCallback cl (in_now ev)) vc.

Definition sessionRun (cl : Closure) (vc : VoiceChat)
    (evs : list Inbound) : VoiceChat :=
  fold_left (sessionStep cl) evs vc.

Definition isTranscription (ev : Inbound) : bool :=
  bool_decide (in_type ev = ConversationItemInputAudioTranscriptionCompleted).

Definition isSave (r : NetRequest) : bool :=
  match r with SaveFetch _ _ _ => true | _ => false end.

(** One exchange of a conversation, and the log of a conversation made of
    whole exchanges. *)
Record Exchange := {
  question : list N;
  askedAt : list N;
  answer : list N;
  answeredAt : list N;
}.

Definition exchangeMessages (x : Exchange) : list Message :=
  [{| role := User; msg_content := question x; createdAt := askedAt x |};
   {| role := Assistant; msg_content := answer x; createdAt := answeredAt x |}].

Definition exchangesLog (xs : list Exchange) : list Message :=
  concat (exchangeMessages <$> xs).

(* ===================================================================== *)
(** * More sample inputs *)
(* ===================================================================== *)

(** A store without the collection: the first read fails, the creation and
    the read after it succeed. *)
Definition emptyStore : QdrantClient :=
  {| getQdrantClient := Ok tt;
     getCollection := Throw (Error (Js.lit "Not found"));
     createCollection := Done tt;
     getCollectionAgain :=
       Done (Some {| vectors_content := Some (Some 1536);
                     vectors_size := None |}) |}.

(** A store whose collection holds vectors of 384 numbers. *)
Definition smallVectorStore : QdrantClient :=
  {| getQdrantClient := Ok tt;
     getCollection :=
       Ok (Some {| vectors_content := Some (Some 384); vectors_size := None |});
     createCollection := Fails (Error (Js.lit "already exists")) (Some 409);
     getCollectionAgain :=
       Done (Some {| vectors_content := Some (Some 384);
                     vectors_size := None |}) |}.

(** A store that cannot be reached. *)
Definition unreachableStore : QdrantClient :=
  {| getQdrantClient := Ok tt;
     getCollection := Throw (Error (Js.lit "fetch failed"));
     createCollection := Fails (Error (Js.lit "fetch failed")) None;
     getCollectionAgain := Fails (Error (Js.lit "fetch failed")) None |}.

Definition zeroVector : list EmbElem :=
  replicate 1536 (ENumber (S754_zero false)).

(** The first chunk of a document, with an embedding of 384 numbers. *)
Definition shortChunk : StoreParams :=
  {| sp_document_id := Some (Js.lit "doc");
     sp_chunk_index := Some 0%N;
     sp_content := Some (Js.lit "B.Tech fees are 8 lakhs.");
     sp_category := Some (Js.lit "fees");
     sp_file_name := Some (Js.lit "fees.pdf");
     sp_embedding := EmbArray (replicate 384 (ENumber (S754_zero false)));
     sp_embedding_length := None;
     sp_collectionName := Some (Js.lit "document_chunks");
     sp_isNamedVector := true |}.

(** The category filter meets a collection without a payload index: the
    filtered search fails, the plain one finds one chunk. *)
Definition missingIndexEnv : Env :=
  {| env_getQdrantClient := Ok tt;
     env_ensureCollectionOnce :=
       Ok {| name := Js.lit "document_chunks"; isNamedVector := Some true |};
     env_generateLocalEmbedding := fun _ => Ok (EmbArray zeroVector);
     env_search := fun req =>
       match req_filter req with
       | Some _ =>
           Throw (Error (Js.lit "Bad request: Index required but not found for category"))
       | None =>
           Ok (Some [{| hit_id := 7%N; score := Some (61 # 100);
                        payload := None |}])
       end;
     env_getCollection := Ok 1%N;
     env_development := false |}.

(** A call that names the collection [name] and, when it creates it, asks
    for vectors of 1536 numbers. *)
Definition namesOnly (name : list N) (c : ClientCall) : Prop :=
  match c with
  | GetCollection n => n = name
  | CreateCollection n size => n = name /\ size = 1536
  end.

Definition isCreate (c : ClientCall) : bool :=
  match c with CreateCollection _ _ => true | _ => false end.

(** The searches among the calls of a trace, oldest first. *)
Definition searchesOf (t : list Call) : list SearchRequest :=
  omap (fun c => match c with CallSearch req => Some req | _ => None end) t.

(** A search request that [retrieveChunksFromQdrant] may issue for a given
    limit and category. *)
Definition wellFormedSearch (matchCount : spec_float)
    (category : option (list N))
    (req : SearchRequest) : Prop :=
  invalid_embedding (EmbArray (req_vector req)) = false
  /\ req_limit req = matchCount
  /\ (req_filter req = None
      \/ (req_filter req = category /\ Js.truthy_opt category = true)).

(** A message content that carries a non-empty text. *)
Definition nonEmptyContent (c : Content) : bool :=
  match c with
  | Text s | InlinePromptWith s | IshuPromptWith s => Js.truthy s
  | GreetingInstructions => false
  end.

(** [sessionId || "anon"], the first part of the cache key. *)
Definition sessionKey (sessionId : option (list N)) : list N :=
  default [] (Js.or_else sessionId (Some (Js.lit "anon"))).

(** Two questions of more than 100 code units that differ in their last
    word only. *)
Definition longQuestion (lastWord : string) : list N :=
  Js.lit "I would like to know everything about the admission process, the required documents, the deadlines and the "
  ++ Js.lit lastWord.

(** The prewarm refs with one entry: the answer of the endpoint for
    [feesChunk], stored under the key of [question]. *)
Definition prewarmedFor (question : list N) : Prewarm :=
  {| prewarmCacheRef :=
       {[ cacheKey None None (Js.trim question) := json (gate [feesChunk]) ]};
     prewarmAbortRef := false;
     aborts := 0 |}.

(** The events that lead from a finished [connect()] to the greeting: the
    trigger timer fires when the channel is already open, and otherwise the
    channel opens, the retry timer fires and then the trigger timer. *)
Definition greetingScript (l : Link) : list LinkEvent :=
  let n := length (timers l) in
  if isOpen l then [EvConnected true; EvTimer n]
  else [EvConnected true; EvChannel (Some RsOpen); EvTimer n; EvTimer n].

(** A request that carries the values of the closure [cl]: a save the
    session id the handlers read, a retrieval the category and the session
    id of [fetchAndSendContext] or of [prewarmContext]. *)
Definition fromClosure (cl : Closure) (r : NetRequest) : Prop :=
  match r with
  | SaveFetch sid _ _ => cl_sessionId cl = Some sid
  | RagContextFetch _ category sessionId _ _ =>
      category = cl_category cl
      /\ (sessionId = cl_fetchSessionId cl \/ sessionId = cl_sessionId cl)
  end.

(** The handlers of a [connect()] made while no session id was set. *)
Definition firstConnect : Closure :=
  {| cl_sessionId := None; cl_fetchSessionId := None; cl_category := None;
     cl_fetch := sampleFetch; cl_speechRecognition := true |}.

(** The handlers of a [connect()] made after the session id was set,
    while [fetchAndSendContext] still is the one of an earlier render. *)
Definition laterConnect : Closure :=
  {| cl_sessionId := Some (Js.lit "voice-1"); cl_fetchSessionId := None;
     cl_category := None; cl_fetch := sampleFetch;
     cl_speechRecognition := true |}.

(** The session id of each retrieval request, in the order of issue. *)
Definition retrievalSessionIds (reqs : list NetRequest)
  : list (option (list N)) :=
  omap (fun r => match r with
                 | RagContextFetch _ _ sessionId _ _ => Some sessionId
                 | SaveFetch _ _ _ => None
                 end) reqs.

(** [{ type: "response.content_part.added", part: { text } }] *)
Definition partEvent (text : list N) : ResponseEvent :=
  {| ev_transcript := None; ev_delta := None; ev_text := None;
     ev_item_transcript := None; ev_item_output_audio_transcript := None;
     ev_item_text := None; ev_item_content := None;
     ev_part_transcript := None; ev_part_text := Some text;
     ev_part_content := None; ev_part_delta := None;
     ev_item_role := None; ev_item_type := None;
     ev_item_input_audio_transcript := None; ev_error := None |}.

Definition isNull (value : JsonValue) : bool :=
  match value with JsonNull => true | _ => false end.

(** The status the endpoint answers with, read off the body alone. *)
Definition statusFor (body : result JsonValue) : nat :=
  match body with
  | Throw _ => 500
  | Ok body =>
      if isNull body then 500
      else
        match property (Js.lit "question") body with
        | None => 400
        | Some question =>
            if negb (ToBoolean question) then 400
            else match question with
                 | JsonString s => if Js.truthy (Js.trim s) then 200 else 400
                 | _ => 500
                 end
        end
  end.

(** The limit the endpoint asks the store for, when it gets that far. *)
Definition limitFor (engine : Engine) (body : result JsonValue)
  : result spec_float :=
  match body with
  | Ok body =>
      effectiveMatchCount engine
        (default (JsonNumber (Ieee.ofNat 5))
           (property (Js.lit "matchCount") body))
  | Throw e => Throw e
  end.

(** An engine as far as the examples go: it reads the string ["7"] as 7
    and every other string, and every array, as NaN. *)
Definition sampleEngine : Engine :=
  {| StringToNumber :=
       fun s => if bool_decide (s = Js.lit "7") then Ieee.ofNat 7 else S754_nan;
     ArrayToNumber := fun _ => Ok S754_nan |}.

(** [{ question, matchCount }] *)
Definition askWith (question matchCount : JsonValue) : JsonValue :=
  JsonObject [(Js.lit "question", question); (Js.lit "matchCount", matchCount)].

(** The greeting was attempted and no trigger is pending any more. *)
Definition greetingSpent (l : Link) : Prop :=
  hasGreetedRef l = true /\ triggersPending l = 0.

(** Proof step shared by the properties of the handlers: one inbound
    message reduced to the handler its label selects. *)
Ltac dispatch :=
  unfold sessionStep, handleDataChannelEvent;
  cbn [dataChannelCallback refHandlers invoke in_type in_event in_now
       h_onSessionUpdate h_onSpeechStarted h_onSpeechStopped
       h_onTranscriptionCompleted h_onResponseStarted h_onResponseTranscript
       h_onResponseDone h_onError].

(** Proof step for an answer of the endpoint that is given before the
    retrieval starts. *)
Ltac answered_early :=
  do 2 eexists; split; [reflexivity|]; split; [reflexivity|];
  split; [discriminate | intros _; reflexivity].

(** Proof steps shared by the properties of the retrieval service. *)
Ltac run_js :=
  unfold run, retrieveChunksFromQdrant, generateQueryEmbedding,
    callLocalEmbedding, generateOpenAIEmbedding, search, try_catch, bind,
    call, ret, throw.

Ltac done_searching Ht :=
  cbn; rewrite ?omap_app, ?Ht; cbn;
  (split;
   [repeat (apply Forall_cons_2;
            [match goal with
             | Hwf : forall _ _ _, _ -> wellFormedSearch _ _ _ |- _ =>
                 apply Hwf; auto
             end|]);
    apply Forall_nil_2
   |split; [lia|first [discriminate|lia|intros ?; cbn in *; congruence]]]).

(* ===================================================================== *)
(** * Properties of the retrieval service *)
(* ===================================================================== *)

Lemma trimStart_whitespace (s : list N) :
  Forall (fun c => Js.isWhiteSpace c = true) s -> Js.trimStart s = [].
Proof.
  induction 1 as [|c s Hc _ IH]; simpl; [reflexivity|].
  rewrite Hc. exact IH.
Qed.

Lemma trim_whitespace (s : list N) :
  Forall (fun c => Js.isWhiteSpace c = true) s -> Js.trim s = [].
Proof.
  intros H. unfold Js.trim. rewrite (trimStart_whitespace s H). reflexivity.
Qed.

Lemma blank_whitespace (s : list N) :
  Forall (fun c => Js.isWhiteSpace c = true) s -> blank (Some s) = true.
Proof.
  intros H. unfold blank. rewrite (trim_whitespace s H). simpl.
  apply orb_true_r.
Qed.

(** The [catch] block of [retrieveChunks] turns every thrown error into the
    empty list and leaves the trace alone. *)
Lemma retrieveChunks_unfold env query matchCount category t :
  blank query = false ->
  retrieveChunks env query matchCount category t =
  match retrieveChunksFromQdrant env (Js.trim (default [] query)) None
          matchCount category t with
  | (Ok chunks, t') => (Ok chunks, t')
  | (Throw _, t') => (Ok [], t')
  end.
Proof.
  intros Hb. unfold retrieveChunks. rewrite Hb.
  unfold try_catch, bind, ret.
  destruct (retrieveChunksFromQdrant _ _ _ _ _ t) as [[chunks|e] t']; [reflexivity|].
  destruct (message_includes e "OPENAI_API_KEY" || message_includes e "API key");
    reflexivity.
Qed.

(** C10.  A query that is undefined, empty or made of whitespace only makes
    [retrieveChunks] return the empty list at once: the trace of
    collaborator calls stays empty, so neither the embedding model nor the
    vector store is called. *)
Theorem retrieveChunks_blank_query env query matchCount category :
  query = None
  \/ (exists s, query = Some s /\ Forall (fun c => Js.isWhiteSpace c = true) s) ->
  run (retrieveChunks env query matchCount category) = (Ok [], []).
Proof.
  intros H. assert (Hb : blank query = true).
  { destruct H as [-> | (s & -> & Hs)]; [reflexivity|].
    apply blank_whitespace, Hs. }
  unfold run, retrieveChunks. rewrite Hb. reflexivity.
Qed.

Lemma retrieveChunks_blank_query_witness :
  run (retrieveChunks quietEnv (Some (Js.lit "  ")) 5 None) = (Ok [], []).
Proof.
  apply (retrieveChunks_blank_query quietEnv (Some (Js.lit "  ")) 5 None).
  right. exists (Js.lit "  "). split; [reflexivity|].
  repeat constructor.
Defined.

(** With a query that is not blank the collaborators are called. *)
Example retrieveChunks_calls_collaborators :
  snd (run (retrieveChunks quietEnv (Some (Js.lit " fees ")) 3 None)) =
  [CallGetQdrantClient; CallEnsureCollectionOnce;
   CallEmbeddingModel (Js.lit "fees");
   CallSearch {| req_named := true;
                 req_vector := replicate 1536 (ENumber (S754_zero false));
                 req_limit := 3; req_filter := None;
                 req_timeout := Some 500 |};
   CallGetCollection].
Proof. vm_compute. reflexivity. Qed.

(** What [retrieveChunksFromQdrant] does once the client and the collection
    are there and the embedding call has answered. *)
Lemma generateQueryEmbedding_local env text t :
  generateQueryEmbedding env text true false t =
  match env_generateLocalEmbedding env text with
  | Ok embedding =>
      if bad_dimensions embedding
      then (Throw (Error (Js.lit "Invalid embedding dimensions: "
                          ++ match embedding with
                             | EmbArray l => Js.ofNat (length l)
                             | _ => Js.lit "undefined"
                             end)), t ++ [CallEmbeddingModel text])
      else (Ok embedding, t ++ [CallEmbeddingModel text])
  | Throw e => (Throw e, t ++ [CallEmbeddingModel text])
  end.
Proof.
  unfold generateQueryEmbedding, try_catch, bind, callLocalEmbedding, call.
  destruct (env_generateLocalEmbedding env text) as [embedding|e]; [|reflexivity].
  destruct (bad_dimensions embedding); reflexivity.
Qed.

Lemma bad_dimensions_invalid e : bad_dimensions e = true -> invalid_embedding e = true.
Proof.
  destruct e as [| |l]; simpl; try reflexivity.
  intros ->. reflexivity.
Qed.

(** An embedding that fails the validation never reaches the vector store:
    the result is the empty list or a thrown error. *)
Lemma retrieveChunksFromQdrant_invalid_embedding env query matchCount category t v :
  env_generateLocalEmbedding env query = Ok v ->
  invalid_embedding v = true ->
  match fst (retrieveChunksFromQdrant env query None matchCount category t) with
  | Ok chunks => chunks = []
  | Throw _ => True
  end.
Proof.
  intros Hv Hinv.
  unfold retrieveChunksFromQdrant, bind, call.
  destruct (env_getQdrantClient env); [|exact I].
  destruct (env_ensureCollectionOnce env); [|exact I].
  rewrite generateQueryEmbedding_local, Hv.
  destruct (bad_dimensions v) eqn:Hbad; [exact I|].
  destruct v as [| |l]; try discriminate Hbad.
  unfold ret. simpl. simpl in Hinv. rewrite Hinv. reflexivity.
Qed.

(** When the embedding model throws nothing is returned but the error. *)
Lemma retrieveChunksFromQdrant_embedding_failure env query matchCount category t e :
  env_generateLocalEmbedding env query = Throw e ->
  exists e', fst (retrieveChunksFromQdrant env query None matchCount category t)
             = Throw e'.
Proof.
  intros He.
  unfold retrieveChunksFromQdrant, bind, call.
  destruct (env_getQdrantClient env); [|eauto].
  destruct (env_ensureCollectionOnce env); [|eauto].
  rewrite generateQueryEmbedding_local, He. eauto.
Qed.

(** When every request to the vector store throws, the result is the empty
    list (rejected embedding) or a thrown error. *)
Lemma retrieveChunksFromQdrant_search_failure env query matchCount category t :
  (forall req, exists e, env_search env req = Throw e) ->
  match fst (retrieveChunksFromQdrant env query None matchCount category t) with
  | Ok chunks => chunks = []
  | Throw _ => True
  end.
Proof.
  intros Hs.
  unfold retrieveChunksFromQdrant, bind, call.
  destruct (env_getQdrantClient env); [|exact I].
  destruct (env_ensureCollectionOnce env); [|exact I].
  rewrite generateQueryEmbedding_local.
  destruct (env_generateLocalEmbedding env query) as [v|]; [|exact I].
  destruct (bad_dimensions v) eqn:Hbad; [exact I|].
  destruct v as [| |l]; try discriminate Hbad.
  unfold ret, throw. simpl.
  destruct (negb (length l =? 1536) || existsb not_a_valid_number l);
    [reflexivity|].
  unfold try_catch, search, call, bind, throw.
  destruct (Js.truthy_opt category).
  - destruct category as [c|].
    + destruct (Hs {| req_named := match isNamedVector a0 with
                                   | Some false => false | _ => true end;
                      req_vector := l; req_limit := matchCount;
                      req_filter := Some c; req_timeout := Some 500 |})
        as [e1 ->].
      destruct (is_missing_index_error e1); [|exact I].
      destruct (Hs {| req_named := match isNamedVector a0 with
                                     | Some false => false | _ => true end;
                      req_vector := l; req_limit := matchCount;
                      req_filter := None; req_timeout := None |})
        as [e2 ->].
      exact I.
    + destruct (Hs {| req_named := match isNamedVector a0 with
                                   | Some false => false | _ => true end;
                      req_vector := l; req_limit := matchCount;
                      req_filter := None; req_timeout := Some 500 |})
        as [e1 ->].
      exact I.
  - destruct (Hs {| req_named := match isNamedVector a0 with
                                 | Some false => false | _ => true end;
                    req_vector := l; req_limit := matchCount;
                    req_filter := None; req_timeout := Some 500 |})
      as [e1 ->].
    exact I.
Qed.

(** C9.  [retrieveChunks] never raises: for every environment and every
    query it returns a list.  Whatever [retrieveChunksFromQdrant] throws
    becomes the empty list; in particular a failing embedding model, a
    failing vector store and an embedding that is not an array of 1536
    numbers all give the empty list. *)
Theorem retrieveChunks_never_raises env query matchCount category :
  let outcome := fst (run (retrieveChunks env query matchCount category)) in
  let trimmed := Js.trim (default [] query) in
  (exists chunks, outcome = Ok chunks)
  /\ (forall e,
        fst (run (retrieveChunksFromQdrant env trimmed None matchCount category))
        = Throw e -> outcome = Ok [])
  /\ (forall e, env_generateLocalEmbedding env trimmed = Throw e ->
                outcome = Ok [])
  /\ ((forall req, exists e, env_search env req = Throw e) -> outcome = Ok [])
  /\ (forall v, env_generateLocalEmbedding env trimmed = Ok v ->
                invalid_embedding v = true -> outcome = Ok []).
Proof.
  intros outcome trimmed. subst outcome. unfold run.
  destruct (blank query) eqn:Hb.
  { unfold retrieveChunks. rewrite Hb. simpl. eauto 10. }
  rewrite (retrieveChunks_unfold _ _ _ _ _ Hb). fold trimmed.
  repeat split.
  - destruct (retrieveChunksFromQdrant _ _ _ _ _ _) as [[chunks|e] t']; eauto.
  - intros e He. unfold run in He.
    destruct (retrieveChunksFromQdrant _ _ _ _ _ _) as [[chunks|e'] t'];
      [discriminate He | reflexivity].
  - intros e He.
    destruct (retrieveChunksFromQdrant_embedding_failure env trimmed matchCount
                category [] e He) as [e' He'].
    destruct (retrieveChunksFromQdrant _ _ _ _ _ _) as [[chunks|e''] t'];
      [discriminate He' | reflexivity].
  - intros Hs.
    pose proof (retrieveChunksFromQdrant_search_failure env trimmed matchCount
                  category [] Hs) as H.
    destruct (retrieveChunksFromQdrant _ _ _ _ _ _) as [[chunks|e''] t'];
      simpl in *; [subst; reflexivity | reflexivity].
  - intros v Hv Hinv.
    pose proof (retrieveChunksFromQdrant_invalid_embedding env trimmed matchCount
                  category [] v Hv Hinv) as H.
    destruct (retrieveChunksFromQdrant _ _ _ _ _ _) as [[chunks|e''] t'];
      simpl in *; [subst; reflexivity | reflexivity].
Qed.

(** A store that is unreachable, and a model that returns 384 numbers
    without padding: both give the empty list. *)
Example retrieveChunks_store_unreachable :
  run (retrieveChunks unreachableStoreEnv (Some (Js.lit "fees")) 3 None)
  = (Ok [],
     [CallGetQdrantClient; CallEnsureCollectionOnce;
      CallEmbeddingModel (Js.lit "fees");
      CallSearch {| req_named := true;
                    req_vector := replicate 1536 (ENumber (S754_zero false));
                    req_limit := 3; req_filter := None;
                    req_timeout := Some 500 |}]).
Proof. vm_compute. reflexivity. Qed.

Example retrieveChunks_short_embedding :
  run (retrieveChunks shortEmbeddingEnv (Some (Js.lit "fees")) 3 None)
  = (Ok [],
     [CallGetQdrantClient; CallEnsureCollectionOnce;
      CallEmbeddingModel (Js.lit "fees")]).
Proof. vm_compute. reflexivity. Qed.

(* ===================================================================== *)
(** * Properties of the relevance gate *)
(* ===================================================================== *)

Lemma buildContextBlock_truthy c0 rest :
  Js.truthy (buildContextBlock (c0 :: rest)) = true.
Proof.
  unfold buildContextBlock. simpl imap.
  destruct (imap _ rest); reflexivity.
Qed.

Lemma Qltb_true a b : Qltb a b = true <-> (a < b)%Q.
Proof.
  unfold Qltb. rewrite negb_true_iff.
  split.
  - intros H. apply Qnot_le_lt. intros Hle.
    apply Qle_bool_iff in Hle. congruence.
  - intros H. destruct (Qle_bool b a) eqn:E; [|reflexivity].
    apply Qle_bool_iff in E. exfalso. apply (Qlt_not_le _ _ H E).
Qed.

Lemma Qltb_false a b : Qltb a b = false <-> (b <= a)%Q.
Proof.
  unfold Qltb. rewrite negb_false_iff. apply Qle_bool_iff.
Qed.

(** [similarity || 0] is the similarity, as a number. *)
Lemma topSimilarityOf_similarity c0 rest s :
  similarity c0 = Some s -> (topSimilarityOf (c0 :: rest) == s)%Q.
Proof.
  intros Hs. unfold topSimilarityOf, score_or_null. rewrite Hs.
  destruct (Qeq_bool s 0) eqn:E; simpl; [|reflexivity].
  apply Qeq_bool_iff in E. symmetry. exact E.
Qed.

Lemma gate_below c0 rest :
  (topSimilarityOf (c0 :: rest) < SIMILARITY_THRESHOLD)%Q ->
  context (json (gate (c0 :: rest))) = None
  /\ chunksFound (json (gate (c0 :: rest))) = Some 0
  /\ ok (gate (c0 :: rest)) = true.
Proof.
  intros Hlt. unfold gate.
  apply Qltb_true in Hlt. rewrite Hlt. repeat split.
Qed.

Lemma gate_above c0 rest :
  (SIMILARITY_THRESHOLD <= topSimilarityOf (c0 :: rest))%Q ->
  context (json (gate (c0 :: rest))) = Some (buildContextBlock (c0 :: rest))
  /\ chunksFound (json (gate (c0 :: rest))) = Some (S (length rest))
  /\ instructions (json (gate (c0 :: rest))) = None
  /\ ok (gate (c0 :: rest)) = true.
Proof.
  intros Hle. unfold gate.
  apply Qltb_false in Hle. rewrite Hle. repeat split.
Qed.

(** What the client does with an answer of the endpoint. *)
Lemma fetchAndSendContext_fetch fetch sessionId category q pw l response :
  isOpen l = true ->
  blank (Some q) = false ->
  usable (prewarmCacheRef pw !! cacheKey sessionId category (Js.trim q)) = false ->
  fetch (ragRequest sessionId category (Js.trim q)) = Resolved response ->
  ok response = true ->
  sent (fst (fetchAndSendContext fetch sessionId category (Some q) pw l)) =
  if has_context (json response)
  then sent l ++ [ConversationItemCreate Assistant
                    match Js.or_else (instructions (json response)) None with
                    | Some i => Text i
                    | None => IshuPromptWith (default [] (context (json response)))
                    end]
  else sent l.
Proof.
  intros Hopen Hq Hu Hf Hok.
  unfold fetchAndSendContext. rewrite Hopen, Hq. simpl negb. cbv iota.
  simpl default. rewrite Hu, Hf, Hok. simpl negb. cbv iota.
  destruct (has_context (json response)); [|reflexivity].
  unfold send. unfold isOpen in Hopen.
  destruct (dataChannelRef l) as [[]|]; try discriminate Hopen.
  reflexivity.
Qed.

(** C1.  The relevance gate is a strict threshold at 0.25.  Take any
    non-empty result list, with top similarity [top] (the similarity of its
    first chunk, a missing one counting as 0), answered by the endpoint to
    a context fetch of the client (channel open, question not blank, no
    usable prewarm entry).  Below 0.25 the answer has a null context and
    [chunksFound = 0] and nothing is sent to the backend; from 0.25 on the
    answer carries the context block and the client sends it as a
    conversation item.  Hence context is injected iff [0.25 <= top]. *)
Theorem relevance_gate_threshold fetch sessionId category q pw l c0 rest :
  let chunks := c0 :: rest in
  let top := topSimilarityOf chunks in
  let l' := fst (fetchAndSendContext fetch sessionId category (Some q) pw l) in
  let injection :=
    ConversationItemCreate Assistant (IshuPromptWith (buildContextBlock chunks)) in
  isOpen l = true ->
  blank (Some q) = false ->
  usable (prewarmCacheRef pw !! cacheKey sessionId category (Js.trim q)) = false ->
  fetch (ragRequest sessionId category (Js.trim q)) = Resolved (gate chunks) ->
  ((top < SIMILARITY_THRESHOLD)%Q ->
     context (json (gate chunks)) = None
     /\ chunksFound (json (gate chunks)) = Some 0
     /\ sent l' = sent l)
  /\ ((SIMILARITY_THRESHOLD <= top)%Q ->
        context (json (gate chunks)) = Some (buildContextBlock chunks)
        /\ sent l' = sent l ++ [injection])
  /\ (sent l' = sent l ++ [injection] <-> (SIMILARITY_THRESHOLD <= top)%Q)
  /\ (forall s, similarity c0 = Some s -> (top == s)%Q).
Proof.
  intros chunks top l' injection Hopen Hq Hu Hf. subst chunks top.
  assert (Hbelow : (topSimilarityOf (c0 :: rest) < SIMILARITY_THRESHOLD)%Q ->
                   context (json (gate (c0 :: rest))) = None
                   /\ chunksFound (json (gate (c0 :: rest))) = Some 0
                   /\ sent l' = sent l).
  { intros Hlt.
    destruct (gate_below c0 rest Hlt) as (Hc & Hn & Hok).
    repeat split; [exact Hc | exact Hn |].
    subst l'. rewrite (fetchAndSendContext_fetch _ _ _ _ _ _ _ Hopen Hq Hu Hf Hok).
    unfold has_context. rewrite Hn. reflexivity. }
  assert (Habove : (SIMILARITY_THRESHOLD <= topSimilarityOf (c0 :: rest))%Q ->
                   context (json (gate (c0 :: rest)))
                   = Some (buildContextBlock (c0 :: rest))
                   /\ sent l' = sent l ++ [injection]).
  { intros Hle.
    destruct (gate_above c0 rest Hle) as (Hc & Hn & Hi & Hok).
    split; [exact Hc|].
    subst l'. rewrite (fetchAndSendContext_fetch _ _ _ _ _ _ _ Hopen Hq Hu Hf Hok).
    unfold has_context. rewrite Hn, Hc, Hi.
    unfold Js.truthy_opt. rewrite buildContextBlock_truthy. reflexivity. }
  split; [exact Hbelow|]. split; [exact Habove|]. split.
  - split; [|apply Habove].
    intros Hsent.
    destruct (Qlt_le_dec (topSimilarityOf (c0 :: rest)) SIMILARITY_THRESHOLD)
      as [Hlt|Hle]; [|exact Hle].
    destruct (Hbelow Hlt) as (_ & _ & Hsame). rewrite Hsame in Hsent.
    exfalso. apply (f_equal length) in Hsent.
    rewrite length_app in Hsent. simpl in Hsent. lia.
  - intros s Hs. apply topSimilarityOf_similarity, Hs.
Qed.

Lemma relevance_gate_threshold_witness :
  sent (fst (fetchAndSendContext sampleFetch None None (Some feesQuestion)
               emptyPrewarm openLink))
  = [ConversationItemCreate Assistant
       (IshuPromptWith (buildContextBlock [feesChunk]))].
Proof.
  destruct (relevance_gate_threshold sampleFetch None None feesQuestion
              emptyPrewarm openLink feesChunk [])
    as (_ & Habove & _).
  - reflexivity.
  - vm_compute. reflexivity.
  - vm_compute. reflexivity.
  - vm_compute. reflexivity.
  - apply Habove. vm_compute. discriminate.
Defined.

(** The two scenarios of the specification. *)
Example gate_fees_scenario :
  chunksFound (json (gate [feesChunk])) = Some 1
  /\ Js.truthy_opt (context (json (gate [feesChunk]))) = true.
Proof. vm_compute. split; reflexivity. Qed.

Example gate_weather_scenario :
  json (gate [weatherChunk])
  = {| context := None; instructions := None; chunksFound := Some 0;
       reason := Some (Js.lit "below_threshold");
       topSimilarity := Some (4 # 100); error := None; details := None |}
  /\ sent (fst (fetchAndSendContext sampleFetch None None (Some weatherQuestion)
                  emptyPrewarm openLink)) = [].
Proof. vm_compute. split; reflexivity. Qed.

(** The earlier copy of the route answers with a context block whatever the
    similarity is. *)
Lemma gate_earlier_has_no_threshold defaultInstructions additional silence c0 rest :
  context (json (gate_earlier defaultInstructions additional silence (c0 :: rest)))
  = Some (buildContextBlock (c0 :: rest)).
Proof. reflexivity. Qed.

(* ===================================================================== *)
(** * Properties of the prewarm cache *)
(* ===================================================================== *)

Lemma send_open msg l :
  isOpen l = true ->
  send msg l = Ok {| dataChannelRef := dataChannelRef l;
                     hasGreetedRef := hasGreetedRef l;
                     sent := sent l ++ [msg];
                     timers := timers l |}.
Proof.
  unfold isOpen, send. destruct (dataChannelRef l) as [[]|]; try discriminate.
  reflexivity.
Qed.

(** A usable entry under the key of the call: the cached context is sent
    and the retrieval endpoint is left alone. *)
Lemma fetchAndSendContext_hit fetch sessionId category q pw l data :
  isOpen l = true ->
  blank (Some q) = false ->
  prewarmCacheRef pw !! cacheKey sessionId category (Js.trim q) = Some data ->
  Js.truthy_opt (context data) = true ->
  fetchAndSendContext fetch sessionId category (Some q) pw l
  = ({| dataChannelRef := dataChannelRef l;
        hasGreetedRef := hasGreetedRef l;
        sent := sent l ++ [ConversationItemCreate Assistant
                             (InlinePromptWith (default [] (context data)))];
        timers := timers l |}, []).
Proof.
  intros Hopen Hq Hk Hctx.
  unfold fetchAndSendContext. rewrite Hopen, Hq. simpl negb. cbv iota.
  simpl default. rewrite Hk. unfold usable. rewrite Hctx.
  rewrite (send_open _ _ Hopen). reflexivity.
Qed.

(** C7, as the code has it.  When the prewarm cache holds, under the key of
    the call, an entry whose context is a non-empty string, a context fetch
    on an open channel sends that cached context and issues no request. *)
Theorem prewarm_hit_skips_network fetch sessionId category q pw l data :
  isOpen l = true ->
  blank (Some q) = false ->
  prewarmCacheRef pw !! cacheKey sessionId category (Js.trim q) = Some data ->
  Js.truthy_opt (context data) = true ->
  let out := fetchAndSendContext fetch sessionId category (Some q) pw l in
  snd out = []
  /\ sent (fst out)
     = sent l ++ [ConversationItemCreate Assistant
                    (InlinePromptWith (default [] (context data)))].
Proof.
  intros Hopen Hq Hk Hctx out. subst out.
  rewrite (fetchAndSendContext_hit _ _ _ _ _ _ _ Hopen Hq Hk Hctx).
  split; reflexivity.
Qed.

Lemma prewarm_hit_skips_network_witness :
  snd (fetchAndSendContext sampleFetch None None (Some feesQuestion)
         (prewarmedWith feesQuestion) openLink) = []
  /\ sent (fst (fetchAndSendContext sampleFetch None None (Some feesQuestion)
                  (prewarmedWith feesQuestion) openLink))
     = [ConversationItemCreate Assistant
          (InlinePromptWith (buildContextBlock [feesChunk]))].
Proof.
  apply (prewarm_hit_skips_network sampleFetch None None feesQuestion
           (prewarmedWith feesQuestion) openLink (json (gate [feesChunk]))).
  - reflexivity.
  - reflexivity.
  - vm_compute. reflexivity.
  - vm_compute. reflexivity.
Defined.

(** A prewarm that stored an answer below the threshold does not spare the
    request: the entry is populated under the matching key, its context is
    null, and the full context fetch goes to the network again. *)
Lemma prewarm_entry_without_context_refetches :
  prewarmCacheRef (prewarmedWith weatherQuestion)
    !! cacheKey None None (Js.trim weatherQuestion)
  = Some (json (gate [weatherChunk]))
  /\ snd (fetchAndSendContext sampleFetch None None (Some weatherQuestion)
            (prewarmedWith weatherQuestion) openLink)
     = [ragRequest None None weatherQuestion].
Proof. vm_compute. split; reflexivity. Qed.

(** [prewarmContext] stores the answer under the key that a later
    [fetchAndSendContext] with the same session, category and question
    computes. *)
Lemma prewarmContext_populates fetch sessionId category q l pw response :
  isOpen l = true ->
  blank (Some q) = false ->
  prewarmCacheRef pw !! cacheKey sessionId category (Js.trim q) = None ->
  fetch (ragRequest sessionId category (Js.trim q)) = Resolved response ->
  ok response = true ->
  prewarmCacheRef (fst (prewarmContext fetch sessionId category (Some q) l pw))
    !! cacheKey sessionId category (Js.trim q) = Some (json response).
Proof.
  intros Hopen Hq Hk Hf Hok. unfold prewarmContext.
  rewrite Hq, Hopen. simpl negb. cbv iota. simpl default.
  rewrite Hk, Hf, Hok. simpl. apply lookup_insert_eq.
Qed.

(** A prewarm whose answer carries a context, followed by the full fetch
    for the same session, category and question: one request in all. *)
Lemma prewarm_then_fetch fetch sessionId category q l pw response :
  isOpen l = true ->
  blank (Some q) = false ->
  prewarmCacheRef pw !! cacheKey sessionId category (Js.trim q) = None ->
  fetch (ragRequest sessionId category (Js.trim q)) = Resolved response ->
  ok response = true ->
  Js.truthy_opt (context (json response)) = true ->
  let warmed := prewarmContext fetch sessionId category (Some q) l pw in
  snd warmed = [ragRequest sessionId category (Js.trim q)]
  /\ snd (fetchAndSendContext fetch sessionId category (Some q) (fst warmed) l)
     = [].
Proof.
  intros Hopen Hq Hk Hf Hok Hctx warmed. split.
  - subst warmed. unfold prewarmContext.
    rewrite Hq, Hopen. simpl negb. cbv iota. simpl default.
    rewrite Hk. reflexivity.
  - rewrite (fetchAndSendContext_hit fetch sessionId category q (fst warmed) l
               (json response) Hopen Hq); [reflexivity| |exact Hctx].
    apply (prewarmContext_populates _ _ _ _ _ _ _ Hopen Hq Hk Hf Hok).
Qed.

(* ===================================================================== *)
(** * Properties of disconnect *)
(* ===================================================================== *)

(** C8, as the code has it.  [disconnect()] resets the message buffers, the
    session id, the connection refs and the retry counter and timer, and it
    leaves the prewarm refs, the cache among them, as they were. *)
Theorem disconnect_resets_session onConversationEnd vc :
  let vc' := disconnect onConversationEnd vc in
  conversationMessagesRef (transcript vc') = []
  /\ conversationMessages vc' = []
  /\ currentUserMessageRef (transcript vc') = []
  /\ currentAssistantMessageRef (transcript vc') = []
  /\ sessionId vc' = None
  /\ pcRef vc' = None
  /\ dataChannelRef (link vc') = None
  /\ retryCountRef (retry vc') = 0
  /\ retryTimeoutRef (retry vc') = None
  /\ prewarm vc' = prewarm vc.
Proof. repeat split. Qed.

(** After [disconnect()] the prewarm cache of [sampleChat] still holds its
    entry. *)
Lemma disconnect_keeps_prewarm_cache :
  prewarmCacheRef (prewarm (disconnect true sampleChat))
    !! cacheKey None None (Js.trim feesQuestion)
  = Some (json (gate [feesChunk]))
  /\ prewarmCacheRef (prewarm (disconnect true sampleChat)) <> ∅.
Proof.
  assert (H : prewarmCacheRef (prewarm (disconnect true sampleChat))
              !! cacheKey None None (Js.trim feesQuestion)
              = Some (json (gate [feesChunk]))).
  { vm_compute. reflexivity. }
  split; [exact H|].
  intros Hempty. rewrite Hempty, lookup_empty in H. discriminate H.
Qed.

(** The conversation is handed to the parent and saved before the buffers
    are cleared. *)
Example disconnect_flushes :
  let vc' := disconnect true sampleChat in
  conversationEnded vc'
  = [(conversationMessagesRef (transcript sampleChat), Some (Js.lit "voice-1"))]
  /\ length (requests vc') = 1.
Proof. vm_compute. split; reflexivity. Qed.

(* ===================================================================== *)
(** * Properties of the transcript accumulator *)
(* ===================================================================== *)

(** One [onResponseTranscript] either keeps the accumulated text or replaces
    it by a strictly longer one. *)
Lemma onResponseTranscript_step event st :
  let st' := onResponseTranscript event st in
  (currentAssistantMessageRef st' = currentAssistantMessageRef st
   \/ length (currentAssistantMessageRef st)
      < length (currentAssistantMessageRef st'))
  /\ conversationMessagesRef st' = conversationMessagesRef st.
Proof.
  unfold onResponseTranscript.
  destruct (Js.truthy _); [|auto].
  destruct (bool_decide _ && (_ <? _)) eqn:E; [|auto].
  apply andb_true_iff in E as [_ E]. apply Nat.ltb_lt in E.
  simpl. auto.
Qed.

Lemma onResponseDone_keeps_text now st :
  currentAssistantMessageRef (onResponseDone now st)
  = currentAssistantMessageRef st.
Proof.
  unfold onResponseDone. destruct (_ && _); reflexivity.
Qed.

Lemma onTranscriptionCompletedRefs_keeps_text event now st :
  currentAssistantMessageRef (onTranscriptionCompletedRefs event now st)
  = currentAssistantMessageRef st.
Proof.
  unfold onTranscriptionCompletedRefs.
  destruct (_ && _); [|reflexivity].
  case_bool_decide; reflexivity.
Qed.

Lemma handleDataChannelEvent_step type event now st :
  let st' := handleDataChannelEvent type event (refHandlers now) st in
  currentAssistantMessageRef st' = currentAssistantMessageRef st
  \/ length (currentAssistantMessageRef st)
     < length (currentAssistantMessageRef st').
Proof.
  unfold handleDataChannelEvent.
  destruct type; cbn [refHandlers invoke h_onSessionUpdate h_onSpeechStarted
                      h_onSpeechStopped h_onTranscriptionCompleted
                      h_onResponseStarted h_onResponseTranscript
                      h_onResponseDone h_onError];
    repeat case_match;
    try (left; reflexivity);
    try (left; apply onResponseDone_keeps_text);
    try (left; apply onTranscriptionCompletedRefs_keeps_text);
    apply onResponseTranscript_step.
Qed.

Lemma transcriptRun_length evs : forall st,
  length (currentAssistantMessageRef st)
  <= length (currentAssistantMessageRef (transcriptRun st evs)).
Proof.
  induction evs as [|ev evs IH]; intros st; simpl; [lia|].
  etransitivity; [|apply IH].
  destruct (handleDataChannelEvent_step (fst ev) (snd ev) [] st) as [-> | H]; lia.
Qed.

(** What a full-transcript event does. *)
Lemma onResponseTranscript_full text st :
  Js.truthy (Js.trim text) = true ->
  currentAssistantMessageRef (onResponseTranscript (fullEvent text) st)
  = if length (currentAssistantMessageRef st) <? length (Js.trim text)
    then Js.trim text
    else currentAssistantMessageRef st.
Proof.
  intros Ht. unfold onResponseTranscript.
  assert (Hx : extractText
                 (first_truthy
                    [ev_transcript (fullEvent text); ev_delta (fullEvent text);
                     ev_item_transcript (fullEvent text);
                     ev_item_output_audio_transcript (fullEvent text);
                     ev_item_text (fullEvent text);
                     ev_item_content (fullEvent text);
                     ev_part_transcript (fullEvent text);
                     ev_part_text (fullEvent text);
                     ev_part_content (fullEvent text);
                     ev_part_delta (fullEvent text)]) = text).
  { unfold first_truthy, extractText. simpl.
    destruct text; reflexivity. }
  rewrite Hx, Ht. simpl Js.truthy_opt. cbv iota.
  destruct (length (currentAssistantMessageRef st) <? length (Js.trim text)) eqn:E.
  - rewrite andb_true_r.
    destruct (bool_decide (Js.trim text ≠ currentAssistantMessageRef st)) eqn:D;
      [reflexivity|].
    apply bool_decide_eq_false in D.
    apply Nat.ltb_lt in E.
    assert (Js.trim text = currentAssistantMessageRef st)
      by (destruct (decide (Js.trim text = currentAssistantMessageRef st));
          [assumption | contradiction]).
    congruence.
  - rewrite andb_false_r. reflexivity.
Qed.

(** What a partial does. *)
Lemma onResponseTranscript_partial delta st :
  Js.truthy delta = true ->
  Js.truthy (Js.trim delta) = true ->
  currentAssistantMessageRef (onResponseTranscript (partialEvent delta) st)
  = currentAssistantMessageRef st ++ Js.trim delta.
Proof.
  intros Hd Ht. unfold onResponseTranscript.
  assert (Hx : extractText
                 (first_truthy
                    [ev_transcript (partialEvent delta);
                     ev_delta (partialEvent delta);
                     ev_item_transcript (partialEvent delta);
                     ev_item_output_audio_transcript (partialEvent delta);
                     ev_item_text (partialEvent delta);
                     ev_item_content (partialEvent delta);
                     ev_part_transcript (partialEvent delta);
                     ev_part_text (partialEvent delta);
                     ev_part_content (partialEvent delta);
                     ev_part_delta (partialEvent delta)]) = delta).
  { unfold first_truthy, extractText. simpl. rewrite Hd. simpl.
    rewrite Hd. reflexivity. }
  rewrite Hx, Ht. simpl Js.or_else. rewrite Hd. simpl Js.truthy_opt.
  rewrite Hd. cbv iota.
  destruct (Js.trim delta) as [|c s] eqn:Et; [discriminate Ht|].
  assert (Hlen : (length (currentAssistantMessageRef st)
                  <? length (currentAssistantMessageRef st ++ c :: s)) = true).
  { apply Nat.ltb_lt. rewrite length_app. simpl. lia. }
  rewrite Hlen, andb_true_r.
  destruct (bool_decide _) eqn:D; [reflexivity|].
  apply bool_decide_eq_false in D.
  exfalso. apply D. intros Heq. apply (f_equal length) in Heq.
  rewrite length_app in Heq. simpl in Heq. lia.
Qed.

(** C5, as the code has it.  Over any interleaving of events the accumulated
    assistant text never gets shorter, each [onResponseTranscript] keeps it
    or replaces it by a strictly longer text, and a full transcript whose
    trimmed text is strictly longer than the accumulated text replaces it
    (a full transcript that is not longer leaves it as it is). *)
Theorem transcript_accumulation :
  (forall evs st,
     length (currentAssistantMessageRef st)
     <= length (currentAssistantMessageRef (transcriptRun st evs)))
  /\ (forall event st,
        currentAssistantMessageRef (onResponseTranscript event st)
        <> currentAssistantMessageRef st ->
        length (currentAssistantMessageRef st)
        < length (currentAssistantMessageRef (onResponseTranscript event st)))
  /\ (forall text st,
        Js.truthy (Js.trim text) = true ->
        currentAssistantMessageRef (onResponseTranscript (fullEvent text) st)
        = if length (currentAssistantMessageRef st) <? length (Js.trim text)
          then Js.trim text
          else currentAssistantMessageRef st).
Proof.
  split; [exact transcriptRun_length|].
  split; [|exact onResponseTranscript_full].
  intros event st Hne.
  destruct (onResponseTranscript_step event st) as [[H|H] _];
    [contradiction | exact H].
Qed.

(** A reply whose partial arrives twice: after the completion event the
    accumulated text is not the full text of the final event. *)
Lemma transcript_not_final_text :
  currentAssistantMessageRef (transcriptRun newTranscript duplicatedPartialReply)
  = Js.lit "HelloHello"
  /\ currentAssistantMessageRef (transcriptRun newTranscript duplicatedPartialReply)
     <> Js.lit "Hello".
Proof.
  assert (H : currentAssistantMessageRef
                (transcriptRun newTranscript duplicatedPartialReply)
              = Js.lit "HelloHello") by (vm_compute; reflexivity).
  split; [exact H|]. rewrite H. vm_compute. discriminate.
Qed.

(** A reply without duplicates ends on its full text, and the completion
    event records it. *)
Example transcript_plain_reply :
  currentAssistantMessageRef (transcriptRun newTranscript plainReply)
  = Js.lit "Hello there"
  /\ List.map msg_content
       (conversationMessagesRef (transcriptRun newTranscript plainReply))
     = [Js.lit "Hello there"].
Proof. vm_compute. split; reflexivity. Qed.

(** The text of one reply is still there when the next one starts: only
    [disconnect] clears it. *)
Example transcript_second_reply :
  currentAssistantMessageRef
    (transcriptRun newTranscript
       (plainReply
        ++ [(ResponseAudioTranscriptDelta, partialEvent (Js.lit "Sure"));
            (ResponseAudioTranscriptDone, fullEvent (Js.lit "Sure"));
            (ResponseDone, fullEvent [])]))
  = Js.lit "Hello thereSure".
Proof. vm_compute. reflexivity. Qed.

(* ===================================================================== *)
(** * Properties of the greeting *)
(* ===================================================================== *)

Lemma greetingInv_set_dataChannel dc l :
  greetingInv l -> greetingInv (set_dataChannel dc l).
Proof. intros H; exact H. Qed.

Lemma greetingInv_retry_timer enableAudio d l :
  greetingInv l -> greetingInv (setTimeout (TSendGreeting enableAudio) d l).
Proof.
  unfold greetingInv, triggersPending, greetingsSent. simpl.
  rewrite List.filter_app, length_app. simpl. rewrite Nat.add_0_r. auto.
Qed.

Lemma greetingInv_sendGreeting enableAudio l :
  greetingInv l -> greetingInv (sendGreeting enableAudio l).
Proof.
  intros Hinv. unfold sendGreeting.
  destruct (negb (hasGreetedRef l) && isOpen l && enableAudio) eqn:G.
  - apply andb_true_iff in G as [G _]. apply andb_true_iff in G as [Hg Hopen].
    apply negb_true_iff in Hg.
    destruct Hinv as [_ Hzero]. specialize (Hzero Hg).
    unfold sendSessionUpdate.
    assert (Hopen1 : isOpen (set_hasGreeted true l) = true) by exact Hopen.
    rewrite Hopen1, (send_open _ _ Hopen1).
    unfold greetingInv, triggersPending, greetingsSent in *. simpl.
    rewrite !List.filter_app, !length_app. simpl.
    split; [lia | discriminate].
  - destruct (dataChannelRef l) as [[]|]; try exact Hinv;
      apply greetingInv_retry_timer, Hinv.
Qed.

Lemma filter_delete_length {A} (p : A -> bool) (ts : list A) : forall i t,
  ts !! i = Some t ->
  length (List.filter p (delete i ts)) + (if p t then 1 else 0)
  = length (List.filter p ts).
Proof.
  induction ts as [|a ts IH]; intros [|i] t Hl; simpl in *; try discriminate.
  - injection Hl as ->. destruct (p t); simpl; lia.
  - specialize (IH i t Hl). destruct (p a); simpl; lia.
Qed.

Lemma greetingInv_step l ev : greetingInv l -> greetingInv (linkStep l ev).
Proof.
  intros Hinv. destruct ev as [enableAudio|dc|i]; simpl.
  - unfold connectedTail. destruct (isOpen l).
    + apply greetingInv_sendGreeting, Hinv.
    + apply greetingInv_retry_timer, Hinv.
  - exact Hinv.
  - destruct (timers l !! i) as [[d action]|] eqn:Hi; [|exact Hinv].
    pose proof (filter_delete_length is_triggerTimer (timers l) i (d, action) Hi)
      as Hdel.
    set (l0 := {| dataChannelRef := dataChannelRef l;
                  hasGreetedRef := hasGreetedRef l;
                  sent := sent l;
                  timers := delete i (timers l) |}).
    destruct action as [enableAudio|]; simpl in Hdel.
    + apply greetingInv_sendGreeting.
      unfold greetingInv, triggersPending, greetingsSent in *. simpl.
      rewrite Nat.add_0_r in Hdel. rewrite Hdel. exact Hinv.
    + unfold runTimer, send. unfold l0 at 1. simpl.
      destruct Hinv as [Hle Hzero].
      unfold greetingInv, triggersPending, greetingsSent in *.
      destruct (dataChannelRef l) as [[]|]; simpl;
        try rewrite List.filter_app, length_app; simpl;
        (split; [lia | intros Hg; specialize (Hzero Hg); lia]).
Qed.

Lemma greetingInv_run evs : forall l,
  greetingInv l -> greetingInv (linkRun l evs).
Proof.
  induction evs as [|ev evs IH]; intros l Hinv; simpl; [exact Hinv|].
  apply IH, greetingInv_step, Hinv.
Qed.

Lemma mutedInv_retry_timer d l :
  mutedInv l -> mutedInv (setTimeout (TSendGreeting false) d l).
Proof.
  intros [Hg Ht]. split; [exact Hg|]. simpl.
  apply Forall_app. split; [exact Ht|]. repeat constructor.
Qed.

Lemma mutedInv_sendGreeting l :
  mutedInv l -> mutedInv (sendGreeting false l).
Proof.
  intros Hinv. unfold sendGreeting. rewrite andb_false_r.
  destruct (dataChannelRef l) as [[]|]; try exact Hinv;
    apply mutedInv_retry_timer, Hinv.
Qed.

Lemma mutedInv_step l ev :
  audioOff ev = true -> mutedInv l -> mutedInv (linkStep l ev).
Proof.
  intros Hoff Hinv. destruct ev as [enableAudio|dc|i]; simpl in *.
  - apply negb_true_iff in Hoff. subst enableAudio.
    unfold connectedTail. destruct (isOpen l).
    + apply mutedInv_sendGreeting, Hinv.
    + apply mutedInv_retry_timer, Hinv.
  - exact Hinv.
  - destruct (timers l !! i) as [[d action]|] eqn:Hi; [|exact Hinv].
    destruct Hinv as [Hg Ht].
    assert (Haction : action = TSendGreeting false).
    { rewrite Forall_lookup in Ht. apply (Ht i (d, action) Hi). }
    subst action. simpl. apply mutedInv_sendGreeting.
    split; [exact Hg|]. simpl.
    apply (Forall_delete _ _ _ Ht).
Qed.

Lemma mutedInv_run evs : forall l,
  forallb audioOff evs = true -> mutedInv l -> mutedInv (linkRun l evs).
Proof.
  induction evs as [|ev evs IH]; intros l Hoff Hinv; simpl; [exact Hinv|].
  simpl in Hoff. apply andb_true_iff in Hoff as [Hev Hevs].
  apply IH; [exact Hevs|]. apply mutedInv_step; assumption.
Qed.

(** With audio disabled the channel opens twice and no greeting is sent. *)
Lemma greeting_not_sent_when_muted :
  greetingsSent (linkRun newLink mutedSession) = 0
  /\ greetingsSent (linkRun newLink mutedSession) <> 1.
Proof. vm_compute. split; [reflexivity | discriminate]. Qed.

(** The flag is set when the greeting is armed, so a channel torn down
    before the trigger timer fires leaves the session without greeting. *)
Example greeting_lost_on_teardown :
  greetingsSent (linkRun newLink tornDownSession) = 0
  /\ hasGreetedRef (linkRun newLink tornDownSession) = true.
Proof. vm_compute. split; reflexivity. Qed.

(** With audio enabled, a late channel and a reconnection, the greeting is
    sent once. *)
Example greeting_sent_once :
  sent (linkRun newLink reconnectingSession)
  = [SessionUpdate GreetingInstructions; greetingTrigger].
Proof. vm_compute. reflexivity. Qed.

(* ===================================================================== *)
(** * Properties of the retry controller *)
(* ===================================================================== *)

Lemma wellTimed_next n :
  n < maxRetries ->
  wellTimed {| delay := (baseRetryDelay * 2 ^ Z.of_nat n)%Z; attempt := n + 1 |}.
Proof.
  intros Hn. unfold wellTimed. simpl. split; [lia|].
  f_equal. f_equal. lia.
Qed.

Lemma scheduleRetry_spec autoConnect st :
  scheduleRetry autoConnect st =
  if negb autoConnect then st
  else if maxRetries <=? retryCountRef st then
    {| retryCountRef := retryCountRef st;
       retryTimeoutRef := retryTimeoutRef st;
       scheduled := scheduled st;
       error_state :=
         Some (Js.lit "Connection lost. Please try refreshing the page.") |}
  else
    {| retryCountRef := retryCountRef st + 1;
       retryTimeoutRef :=
         Some {| delay := (baseRetryDelay * 2 ^ Z.of_nat (retryCountRef st))%Z;
                 attempt := retryCountRef st + 1 |};
       scheduled :=
         scheduled st
         ++ [{| delay := (baseRetryDelay * 2 ^ Z.of_nat (retryCountRef st))%Z;
                attempt := retryCountRef st + 1 |}];
       error_state := error_state st |}.
Proof. reflexivity. Qed.

Lemma retryInv_scheduleRetry autoConnect st :
  retryInv st -> retryInv (scheduleRetry autoConnect st).
Proof.
  intros [Hc Hs]. rewrite scheduleRetry_spec.
  destruct (negb autoConnect); [split; assumption|].
  destruct (maxRetries <=? retryCountRef st) eqn:E; [split; assumption|].
  apply Nat.leb_gt in E.
  split; simpl; [lia|].
  apply Forall_app. split; [exact Hs|].
  constructor; [apply wellTimed_next, E | constructor].
Qed.

Lemma retryInv_connectFailed err st :
  retryInv st -> retryInv (connectFailed err st).
Proof.
  intros [Hc Hs]. unfold connectFailed.
  destruct (retryCountRef st <? maxRetries) eqn:E.
  - apply Nat.ltb_lt in E. split; simpl; [lia|].
    apply Forall_app. split; [exact Hs|].
    constructor; [|constructor].
    replace (retryCountRef st + 1 - 1) with (retryCountRef st) by lia.
    apply wellTimed_next, E.
  - split; simpl; [lia | exact Hs].
Qed.

Lemma retryInv_step autoConnect st ev :
  retryInv st -> retryInv (retryStep autoConnect st ev).
Proof.
  intros Hinv. destruct ev as [pc|pcRef|err|]; simpl.
  - unfold handleConnectionStateChange.
    destruct (_ || _); [apply retryInv_scheduleRetry, Hinv|].
    destruct (_ || _); [apply retryInv_scheduleRetry, Hinv|].
    destruct (_ && _); [|exact Hinv].
    destruct Hinv as [_ Hs]. split; simpl; [lia | exact Hs].
  - unfold retryTimerFires. destruct (negb autoConnect); [exact Hinv|].
    destruct pcRef as [[[] []]|]; simpl; try exact Hinv.
    destruct Hinv as [_ Hs]. split; simpl; [lia | exact Hs].
  - apply retryInv_connectFailed, Hinv.
  - destruct Hinv as [_ Hs]. split; simpl; [lia | exact Hs].
Qed.

Lemma retryInv_run autoConnect evs : forall st,
  retryInv st -> retryInv (retryRun autoConnect st evs).
Proof.
  induction evs as [|ev evs IH]; intros st Hinv; simpl; [exact Hinv|].
  apply IH, retryInv_step, Hinv.
Qed.

(** A failure event reaches [scheduleRetry] or the [catch] of [connect()]. *)
Lemma retryStep_failure autoConnect st ev :
  isFailure ev = true ->
  retryStep autoConnect st ev = scheduleRetry autoConnect st
  \/ exists err, ev = EvConnectFailed err
                 /\ retryStep autoConnect st ev = connectFailed err st.
Proof.
  destruct ev as [pc|pcRef|err|]; simpl; try discriminate.
  - intros Hf. left. unfold handleConnectionStateChange.
    destruct (bool_decide (connectionState pc = PcDisconnected)); [reflexivity|].
    destruct (bool_decide (iceConnectionState pc = PcDisconnected)); [reflexivity|].
    simpl in *. rewrite Hf. reflexivity.
  - intros _. right. eauto.
Qed.

(** A failure below the ceiling, handled with auto-reconnect enabled or by
    the [catch] of [connect()]: the next attempt is scheduled. *)
Lemma retryStep_below_ceiling autoConnect st ev :
  isFailure ev = true ->
  autoConnect = true \/ (exists err, ev = EvConnectFailed err) ->
  retryCountRef st < maxRetries ->
  scheduled (retryStep autoConnect st ev)
  = scheduled st
    ++ [{| delay := (baseRetryDelay * 2 ^ (Z.of_nat (retryCountRef st + 1) - 1))%Z;
           attempt := retryCountRef st + 1 |}]
  /\ retryCountRef (retryStep autoConnect st ev) = retryCountRef st + 1.
Proof.
  intros Hf Hon Hlt.
  assert (Hpow : (Z.of_nat (retryCountRef st + 1) - 1
                  = Z.of_nat (retryCountRef st))%Z) by lia.
  rewrite Hpow.
  destruct (retryStep_failure autoConnect st ev Hf) as [Hs | (err & _ & ->)].
  - assert (autoConnect = true) as ->.
    { destruct Hon as [H | (err & ->)]; [exact H|].
      simpl in Hs. destruct autoConnect; [reflexivity|].
      exfalso. unfold connectFailed, scheduleRetry in Hs. simpl in Hs.
      assert (E : (retryCountRef st <? maxRetries) = true)
        by (apply Nat.ltb_lt, Hlt).
      rewrite E in Hs. apply (f_equal retryCountRef) in Hs. simpl in Hs. lia. }
    rewrite Hs, scheduleRetry_spec. cbn [negb].
    assert (E : (maxRetries <=? retryCountRef st) = false)
      by (apply Nat.leb_gt, Hlt).
    rewrite E. split; reflexivity.
  - unfold connectFailed.
    assert (E : (retryCountRef st <? maxRetries) = true)
      by (apply Nat.ltb_lt, Hlt).
    rewrite E. simpl.
    replace (retryCountRef st + 1 - 1) with (retryCountRef st) by lia.
    split; reflexivity.
Qed.

(** A failure at the ceiling schedules nothing; handled with auto-reconnect
    enabled or by the [catch] of [connect()] it sets the error state. *)
Lemma retryStep_at_ceiling autoConnect st ev :
  isFailure ev = true ->
  retryCountRef st = maxRetries ->
  scheduled (retryStep autoConnect st ev) = scheduled st
  /\ (autoConnect = true \/ (exists err, ev = EvConnectFailed err) ->
      error_state (retryStep autoConnect st ev) <> None).
Proof.
  intros Hf Hmax.
  assert (E1 : (maxRetries <=? retryCountRef st) = true)
    by (apply Nat.leb_le; lia).
  assert (E2 : (retryCountRef st <? maxRetries) = false)
    by (apply Nat.ltb_ge; lia).
  assert (Hcatch : forall err,
             scheduled (connectFailed err st) = scheduled st
             /\ error_state (connectFailed err st) <> None).
  { intros err. unfold connectFailed. rewrite E2. simpl. split; [reflexivity|].
    destruct (message err) as [m|]; simpl; [|discriminate].
    destruct (Js.truthy m); discriminate. }
  destruct (retryStep_failure autoConnect st ev Hf) as [Hs | (err & -> & Hs)].
  - split.
    + rewrite Hs, scheduleRetry_spec, E1. destruct autoConnect; reflexivity.
    + intros [-> | (err & ->)].
      * rewrite Hs, scheduleRetry_spec, E1. simpl. discriminate.
      * simpl. apply Hcatch.
  - rewrite Hs. split; [apply Hcatch | intros _; apply Hcatch].
Qed.

Lemma retryStep_at_ceiling_counter autoConnect st ev :
  isFailure ev = true ->
  retryCountRef st = maxRetries ->
  retryCountRef (retryStep autoConnect st ev)
  = match ev with EvConnectFailed _ => 0 | _ => maxRetries end.
Proof.
  intros Hf Hmax.
  destruct ev as [pc|pcRef|err|]; try discriminate Hf.
  - destruct (retryStep_failure autoConnect st (EvStateChange pc) Hf)
      as [Hs | (err & Herr & _)]; [|discriminate Herr].
    rewrite Hs, scheduleRetry_spec.
    rewrite (proj2 (Nat.leb_le maxRetries (retryCountRef st))) by lia.
    destruct autoConnect; exact Hmax.
  - cbn [retryStep]. unfold connectFailed.
    rewrite (proj2 (Nat.ltb_ge (retryCountRef st) maxRetries)) by lia.
    reflexivity.
Qed.

(** C4, as the code has it.  In any session, whatever happened before: a
    failure that finds the counter at [k - 1 < 5] schedules retry attempt
    [k] with delay [2000 * 2^(k - 1)] ms; a failure that finds the counter
    at the ceiling of 5 schedules nothing and sets the error state; every
    retry ever scheduled has an attempt number between 1 and 5 and the
    delay [2000 * 2^(attempt - 1)]; and at the ceiling the connection
    monitor leaves the counter at 5, while the [catch] block of
    [connect()] puts it back to 0, so that the next failed attempt is
    followed by retry attempt 1 again.  (A failure seen by the connection
    monitor with auto-reconnect disabled does nothing at all.) *)
Theorem retry_backoff_capped (autoConnect : bool) (evs : list RetryEvent)
    (ev : RetryEvent) :
  let st := retryRun autoConnect newRetryCtl evs in
  let st' := retryStep autoConnect st ev in
  isFailure ev = true ->
  Forall wellTimed (scheduled st')
  /\ retryCountRef st <= maxRetries
  /\ (retryCountRef st = maxRetries -> scheduled st' = scheduled st)
  /\ (autoConnect = true \/ (exists err, ev = EvConnectFailed err) ->
      (retryCountRef st < maxRetries ->
         scheduled st'
         = scheduled st
           ++ [{| delay :=
                    (baseRetryDelay * 2 ^ (Z.of_nat (retryCountRef st + 1) - 1))%Z;
                  attempt := retryCountRef st + 1 |}]
         /\ retryCountRef st' = retryCountRef st + 1)
      /\ (retryCountRef st = maxRetries -> error_state st' <> None))
  /\ (retryCountRef st = maxRetries ->
      retryCountRef st'
      = match ev with EvConnectFailed _ => 0 | _ => maxRetries end).
Proof.
  intros st st' Hf.
  assert (Hinv : retryInv st).
  { apply retryInv_run. split; [vm_compute; lia | constructor]. }
  assert (Hinv' : retryInv st') by apply retryInv_step, Hinv.
  destruct Hinv as [Hc _]. destruct Hinv' as [_ Hs'].
  split; [exact Hs'|]. split; [exact Hc|]. split; [|split].
  - intros Hmax. apply (retryStep_at_ceiling autoConnect st ev Hf Hmax).
  - intros Hon. split.
    + apply (retryStep_below_ceiling autoConnect st ev Hf Hon).
    + intros Hmax. apply (retryStep_at_ceiling autoConnect st ev Hf Hmax), Hon.
  - intros Hmax. apply (retryStep_at_ceiling_counter autoConnect st ev Hf Hmax).
Qed.

Lemma retry_backoff_capped_witness :
  scheduled (retryRun true newRetryCtl
               (replicate 3 (EvConnectFailed connectionRefused)))
  = [{| delay := 2000; attempt := 1 |}; {| delay := 4000; attempt := 2 |};
     {| delay := 8000; attempt := 3 |}].
Proof.
  destruct (retry_backoff_capped true
              (replicate 2 (EvConnectFailed connectionRefused))
              (EvConnectFailed connectionRefused))
    as (_ & _ & _ & Hon & _).
  - reflexivity.
  - destruct Hon as [Hbelow _]; [left; reflexivity|].
    destruct Hbelow as [Hsched _]; [vm_compute; lia|].
    exact Hsched.
Defined.

(** Seven connection attempts fail in a row: the fifth failure reaches the
    ceiling, the sixth schedules nothing, and the seventh schedules a retry
    again, the sixth of the session. *)
Lemma retry_scheduled_after_ceiling :
  let failures n :=
    retryRun true newRetryCtl (replicate n (EvConnectFailed connectionRefused)) in
  retryCountRef (failures 5) = maxRetries
  /\ scheduled (failures 6) = scheduled (failures 5)
  /\ scheduled (failures 7)
     = scheduled (failures 5) ++ [{| delay := 2000; attempt := 1 |}]
  /\ length (scheduled (failures 7)) = 6.
Proof. vm_compute. repeat split; reflexivity. Qed.

(** Six failures in a row: five retries at 2, 4, 8, 16 and 32 seconds, and
    nothing after the fifth. *)
Example retry_six_failures :
  List.map delay (scheduled (retryRun true newRetryCtl sixFailures))
  = [2000; 4000; 8000; 16000; 32000]%Z
  /\ error_state (retryRun true newRetryCtl sixFailures)
     = Some (Js.lit "Failed to send offer").
Proof. vm_compute. split; reflexivity. Qed.

(** The same through the connection monitor. *)
Example retry_six_drops :
  let st := retryRun true newRetryCtl (replicate 6 (EvStateChange lostConnection)) in
  List.map delay (scheduled st) = [2000; 4000; 8000; 16000; 32000]%Z
  /\ retryCountRef st = 5
  /\ error_state st
     = Some (Js.lit "Connection lost. Please try refreshing the page.").
Proof. vm_compute. repeat split; reflexivity. Qed.

(** Three failures, then a successful attempt resets the counter. *)
Example retry_three_failures_then_success :
  let st := retryRun true newRetryCtl threeFailuresThenSuccess in
  List.map delay (scheduled st) = [2000; 4000; 8000]%Z
  /\ retryCountRef st = 0.
Proof. vm_compute. repeat split; reflexivity. Qed.

(** In the [catch] of [connect()] the failure that finds the counter at the
    ceiling also sets it back to zero. *)
Example retry_counter_after_ceiling :
  retryCountRef (retryRun true newRetryCtl sixFailures) = 0
  /\ retryCountRef
       (retryRun true newRetryCtl (replicate 5 (EvConnectFailed connectionRefused)))
     = 5.
Proof. vm_compute. split; reflexivity. Qed.

(* ===================================================================== *)
(** * Properties of padEmbeddingTo1536 *)
(* ===================================================================== *)

Section Loops.
Context {St : Type}.

Lemma for_loop_S n (body : nat -> St -> St) s :
  for_loop (S n) body s = body n (for_loop n body s).
Proof.
  unfold for_loop. rewrite seq_S, fold_left_app. reflexivity.
Qed.

Lemma for_loop_ext n (body1 body2 : nat -> St -> St) s :
  (forall i s, i < n -> body1 i s = body2 i s) ->
  for_loop n body1 s = for_loop n body2 s.
Proof.
  induction n as [|n IH]; intros H; [reflexivity|].
  rewrite !for_loop_S, IH by (intros; apply H; lia).
  apply H. lia.
Qed.
End Loops.

(** A loop that reads [v[i]] at every index is a fold over [v]. *)
Lemma for_loop_fold {A St : Type} (d : A) (F : St -> A -> St) (v : list A)
    (s : St) :
  for_loop (length v) (fun i acc => F acc (nth i v d)) s = fold_left F v s.
Proof.
  induction v as [|x v IH] using rev_ind; [reflexivity|].
  rewrite length_app. simpl. rewrite Nat.add_1_r, for_loop_S.
  rewrite fold_left_app. simpl.
  rewrite app_nth2, Nat.sub_diag by lia. simpl. f_equal.
  rewrite <- IH. apply for_loop_ext.
  intros i acc Hi. rewrite app_nth1 by exact Hi. reflexivity.
Qed.

(** A loop that writes [f i] at every index below [n]. *)
Lemma for_loop_insert {A : Type} (f : nat -> A) (p : list A) n :
  n <= length p ->
  for_loop n (fun i p => <[i := f i]> p) p = (f <$> seq 0 n) ++ drop n p.
Proof.
  induction n as [|n IH]; intros Hn; [reflexivity|].
  rewrite for_loop_S, IH by lia.
  destruct (lookup_lt_is_Some_2 p n) as [y Hy]; [lia|].
  rewrite insert_app_r_alt by (rewrite length_fmap, length_seq; lia).
  rewrite length_fmap, length_seq, Nat.sub_diag.
  rewrite (drop_S p y n Hy), seq_S, fmap_app. simpl.
  rewrite <- app_assoc. reflexivity.
Qed.

Lemma fmap_seq_nth {A B : Type} (d : A) (g : A -> B) (v : list A) :
  (fun i => g (nth i v d)) <$> seq 0 (length v) = g <$> v.
Proof.
  induction v as [|x v IH] using rev_ind; [reflexivity|].
  rewrite length_app. simpl. rewrite Nat.add_1_r, seq_S, !fmap_app. simpl.
  rewrite app_nth2, Nat.sub_diag by lia. simpl. f_equal.
  rewrite <- IH. apply list_eq. intros i.
  rewrite !list_lookup_fmap.
  destruct (seq 0 (length v) !! i) as [j|] eqn:Hj; [|reflexivity].
  simpl. apply lookup_seq in Hj as [-> Hlt]. simpl.
  rewrite app_nth1 by exact Hlt. reflexivity.
Qed.

Lemma l2norm_unfold {A : Type} {arith : Arith A} (v : list A) :
  l2norm v
  = num_sqrt
      (for_loop (length v)
         (fun i sumSq => num_add sumSq (num_mul (at_index v i) (at_index v i)))
         num_zero).
Proof. reflexivity. Qed.

Lemma l2norm_R (v : list R) : l2norm v = sqrt (sumSq v).
Proof.
  unfold l2norm, sumSq, at_index. simpl.
  rewrite (for_loop_fold 0%R (fun acc val => (acc + val * val)%R)). reflexivity.
Qed.

Lemma fold_sumSq_nonneg (v : list R) : forall a,
  (0 <= a)%R -> (0 <= fold_left (fun acc val => acc + val * val) v a)%R.
Proof.
  induction v as [|x v IH]; intros a Ha; simpl; [exact Ha|].
  apply IH. pose proof (Rle_0_sqr x) as Hx. unfold Rsqr in Hx. lra.
Qed.

Lemma sumSq_nonneg (v : list R) : (0 <= sumSq v)%R.
Proof. apply fold_sumSq_nonneg. lra. Qed.

Lemma fold_sumSq_scale (c : R) (v : list R) : forall a,
  fold_left (fun acc val => acc + val * val)%R ((fun x => x * c)%R <$> v)
    (c * c * a)%R
  = (c * c * fold_left (fun acc val => acc + val * val) v a)%R.
Proof.
  induction v as [|x v IH]; intros a; simpl; [reflexivity|].
  rewrite <- IH. f_equal. ring.
Qed.

Lemma sumSq_scale (c : R) (v : list R) :
  sumSq ((fun x => x * c)%R <$> v) = (c * c * sumSq v)%R.
Proof.
  unfold sumSq. rewrite <- fold_sumSq_scale. f_equal. ring.
Qed.

Lemma scaleOf_pos (v : list R) : (0 < scaleOf v)%R.
Proof.
  unfold scaleOf. destruct (Rlt_dec 0 (l2norm v)) as [H|_]; [|lra].
  unfold Rdiv. rewrite Rmult_1_l. apply Rinv_0_lt_compat, H.
Qed.

(** The output of [padEmbeddingTo1536] on a vector shorter than 1536, in
    any arithmetic: every entry of [v] goes through the same operation (a
    product with [1 / magnitude] when the magnitude is positive, a plain
    copy otherwise) and through the 32-bit store, and zeros follow. *)
Lemma padEmbeddingTo1536_shape {A : Type} {arith : Arith A} (v : list A) :
  length v < 1536 ->
  padEmbeddingTo1536 v
  = ((fun x => if num_pos (l2norm v)
               then num_f32 (num_mul x (num_div num_one (l2norm v)))
               else num_f32 x) <$> v)
    ++ replicate (1536 - length v) num_zero.
Proof.
  intros Hn. unfold padEmbeddingTo1536, targetDim.
  assert (E1 : (length v =? 1536) = false) by (apply Nat.eqb_neq; lia).
  assert (E2 : (1536 <? length v) = false) by (apply Nat.ltb_ge; lia).
  rewrite E1, E2. cbv zeta. rewrite <- !(l2norm_unfold v).
  assert (Hcopy : for_loop (length v)
                    (fun i padded => <[i := num_f32 (at_index v i)]> padded)
                    (replicate 1536 num_zero)
                  = (num_f32 <$> v) ++ replicate (1536 - length v) num_zero).
  { rewrite (for_loop_insert (fun i => num_f32 (at_index v i)))
      by (rewrite length_replicate; lia).
    unfold at_index. rewrite (fmap_seq_nth num_zero num_f32 v).
    rewrite drop_replicate. reflexivity. }
  rewrite Hcopy.
  destruct (num_pos (l2norm v)); [|reflexivity].
  rewrite (for_loop_insert
             (fun i => num_f32 (num_mul (at_index v i)
                                  (num_div num_one (l2norm v)))))
    by (rewrite length_app, length_fmap, length_replicate; lia).
  unfold at_index.
  rewrite (fmap_seq_nth num_zero
             (fun x => num_f32 (num_mul x (num_div num_one (l2norm v)))) v).
  replace (length v) with (length (num_f32 <$> v)) at 1
    by apply length_fmap.
  rewrite drop_app_length. reflexivity.
Qed.

(** In any arithmetic, IEEE 754 included, the output has 1536 components
    and those from [n] on are zero. *)
Lemma padEmbeddingTo1536_tail_zero {A : Type} {arith : Arith A} (v : list A) :
  length v < 1536 ->
  length (padEmbeddingTo1536 v) = 1536
  /\ forall i, length v <= i < 1536 -> padEmbeddingTo1536 v !! i = Some num_zero.
Proof.
  intros Hlt. rewrite (padEmbeddingTo1536_shape v Hlt). split.
  - rewrite length_app, length_fmap, length_replicate. lia.
  - intros i [Hge Hi].
    rewrite lookup_app_r by (rewrite length_fmap; exact Hge).
    rewrite length_fmap. apply lookup_replicate_2. lia.
Qed.

(** The output of [padEmbeddingTo1536] on a vector shorter than 1536, in
    exact arithmetic. *)
Lemma padEmbeddingTo1536_short (v : list R) :
  length v < 1536 ->
  padEmbeddingTo1536 v
  = ((fun x => x * scaleOf v)%R <$> v) ++ replicate (1536 - length v) 0%R.
Proof.
  intros Hn. rewrite (padEmbeddingTo1536_shape v Hn). f_equal.
  apply list_fmap_ext. intros i x _. unfold scaleOf.
  change (num_pos (l2norm v)) with (if Rlt_dec 0 (l2norm v) then true else false).
  destruct (Rlt_dec 0 (l2norm v)); simpl; [reflexivity | ring].
Qed.

(** Whatever its input, [padEmbeddingTo1536] returns 1536 components. *)
Lemma padEmbeddingTo1536_length {A : Type} {arith : Arith A} (v : list A) :
  length (padEmbeddingTo1536 v) = 1536.
Proof.
  destruct (lt_eq_lt_dec (length v) 1536) as [[Hlt|Heq]|Hgt].
  - apply (padEmbeddingTo1536_tail_zero v Hlt).
  - unfold padEmbeddingTo1536, targetDim.
    rewrite (proj2 (Nat.eqb_eq _ _) Heq). exact Heq.
  - unfold padEmbeddingTo1536, targetDim.
    rewrite (proj2 (Nat.eqb_neq _ _)) by lia.
    rewrite (proj2 (Nat.ltb_lt _ _) Hgt).
    rewrite length_take. lia.
Qed.

(** So the value [generateLocalEmbedding] returns always passes the
    dimension test of [generateQueryEmbedding]. *)
Lemma generateLocalEmbedding_dimensions e text v :
  generateLocalEmbedding e text = Ok v -> bad_dimensions v = false.
Proof.
  unfold generateLocalEmbedding.
  destruct (negb (Js.truthy_opt text)); [discriminate|].
  destruct (getEmbedder e); [|discriminate].
  destruct (model e _) as [[[|x base]|]|]; try discriminate.
  intros [= <-]. simpl bad_dimensions.
  rewrite length_fmap, padEmbeddingTo1536_length. reflexivity.
Qed.

(** A NaN in the output of the model survives the padding (the magnitude is
    NaN, so nothing is rescaled) and is rejected by the validation of
    [retrieveChunksFromQdrant]: no search, the empty list. *)
Example retrieveChunks_nan_embedding :
  run (retrieveChunks (withEmbedder nanEmbedder quietEnv) (Some (Js.lit "fees"))
         3 None)
  = (Ok [],
     [CallGetQdrantClient; CallEnsureCollectionOnce;
      CallEmbeddingModel (Js.lit "fees")]).
Proof. vm_compute. reflexivity. Qed.

Example retrieveChunks_model_fails_to_load :
  run (retrieveChunks (withEmbedder brokenEmbedder quietEnv)
         (Some (Js.lit "fees")) 3 None)
  = (Ok [],
     [CallGetQdrantClient; CallEnsureCollectionOnce;
      CallEmbeddingModel (Js.lit "fees")]).
Proof. vm_compute. reflexivity. Qed.

(** Exact arithmetic, rounding left out: the output has 1536 components,
    there is one positive scalar [c] such that component [i < n] of the
    output is [c * v[i]], and the components [n .. 1535] are zero. *)
Lemma padEmbeddingTo1536_parallel_exact (v : list R) :
  0 < length v < 1536 ->
  let out := padEmbeddingTo1536 v in
  length out = 1536
  /\ exists c : R,
       (0 < c)%R
       /\ (forall i x, v !! i = Some x -> out !! i = Some (c * x)%R)
       /\ (forall i, length v <= i < 1536 -> out !! i = Some 0%R).
Proof.
  intros [Hpos Hlt] out. subst out.
  rewrite (padEmbeddingTo1536_short v Hlt).
  split.
  { rewrite length_app, length_fmap, length_replicate. lia. }
  exists (scaleOf v). split; [apply scaleOf_pos|]. split.
  - intros i x Hi.
    rewrite lookup_app_l
      by (rewrite length_fmap; apply (lookup_lt_Some v i x Hi)).
    rewrite list_lookup_fmap, Hi. simpl. f_equal. ring.
  - intros i [Hge Hi].
    rewrite lookup_app_r by (rewrite length_fmap; exact Hge).
    rewrite length_fmap. apply lookup_replicate_2. lia.
Qed.

(** The first [n] components of the output, and their norm. *)
Lemma padEmbeddingTo1536_head (v : list R) :
  length v < 1536 ->
  take (length v) (padEmbeddingTo1536 v) = (fun x => x * scaleOf v)%R <$> v.
Proof.
  intros Hlt. rewrite (padEmbeddingTo1536_short v Hlt).
  rewrite take_app_length'; [reflexivity|]. rewrite length_fmap. reflexivity.
Qed.

Lemma l2norm_sqr (v : list R) : (l2norm v * l2norm v = sumSq v)%R.
Proof. rewrite l2norm_R. apply sqrt_sqrt, sumSq_nonneg. Qed.

Lemma l2norm_nonneg (v : list R) : (0 <= l2norm v)%R.
Proof. rewrite l2norm_R. apply sqrt_pos. Qed.

Lemma padEmbeddingTo1536_head_norm (v : list R) :
  length v < 1536 ->
  (l2norm v <> 0%R -> l2norm (take (length v) (padEmbeddingTo1536 v)) = 1%R)
  /\ (l2norm v = 0%R -> take (length v) (padEmbeddingTo1536 v) = v).
Proof.
  intros Hlt. rewrite (padEmbeddingTo1536_head v Hlt).
  pose proof (l2norm_nonneg v) as Hn. split.
  - intros Hne. assert (Hpos : (0 < l2norm v)%R) by lra.
    rewrite l2norm_R, sumSq_scale, <- l2norm_sqr.
    unfold scaleOf. destruct (Rlt_dec 0 (l2norm v)) as [_|F]; [|contradiction].
    replace (1 / l2norm v * (1 / l2norm v) * (l2norm v * l2norm v))%R with 1%R
      by (field; lra).
    apply sqrt_1.
  - intros Hz. unfold scaleOf.
    destruct (Rlt_dec 0 (l2norm v)) as [F|_]; [lra|].
    etransitivity; [|apply list_fmap_id].
    apply list_fmap_ext. intros i x _. simpl. ring.
Qed.

(** Exact arithmetic, rounding left out: the first [n] components of the
    output have L2 norm 1 when [v] is not the zero vector, and are [v]
    itself when it is. *)
Lemma padEmbeddingTo1536_unit_norm_exact (v : list R) :
  0 < length v < 1536 ->
  let head := take (length v) (padEmbeddingTo1536 v) in
  (l2norm v <> 0%R -> l2norm head = 1%R)
  /\ (l2norm v = 0%R -> head = v).
Proof.
  intros [_ Hlt] head. subst head.
  apply (padEmbeddingTo1536_head_norm v Hlt).
Qed.

(** The same input in IEEE 754 arithmetic, as the engine computes it:
    [2.0] becomes [1.0] followed by zeros. *)
Example padEmbeddingTo1536_ieee_two :
  let out := padEmbeddingTo1536 [Ieee.double 2 0] in
  length out = 1536
  /\ take 3 out = [Ieee.double 1 0; S754_zero false; S754_zero false].
Proof. vm_compute. split; reflexivity. Qed.

(** [(3, 4)] in IEEE 754 arithmetic: the binary32 numbers nearest to 0.6
    and 0.8. *)
Example padEmbeddingTo1536_ieee_three_four :
  take 3 (padEmbeddingTo1536 [Ieee.double 3 0; Ieee.double 4 0])
  = [Ieee.double 10066330 (-24); Ieee.double 13421773 (-24); S754_zero false].
Proof. vm_compute. reflexivity. Qed.

(** Vectors of the target width or wider are returned as they are or cut. *)
Example padEmbeddingTo1536_wide :
  length (padEmbeddingTo1536 (replicate 1600 (Ieee.double 1 0))) = 1536
  /\ padEmbeddingTo1536 (replicate 1536 (Ieee.double 1 0))
     = replicate 1536 (Ieee.double 1 0).
Proof. vm_compute. split; reflexivity. Qed.

(* ===================================================================== *)
(** * padEmbeddingTo1536 as the engine computes it *)
(* ===================================================================== *)

(** Rounding keeps the sign it is given: a number rounded as a
    non-negative one is not below zero. *)
Lemma binary_round_aux_not_negative (prec emax m e : Z) (l : location) :
  SFltb (binary_round_aux prec emax false m e l) (S754_zero false) = false.
Proof.
  unfold binary_round_aux.
  destruct (shr_fexp prec emax m e l) as [mrs' e'].
  destruct (shr_fexp prec emax _ e' loc_Exact) as [mrs'' e''].
  destruct (shr_m mrs'') as [|p|p]; [reflexivity| |reflexivity].
  destruct (e'' <=? emax - prec)%Z; reflexivity.
Qed.

(** [1 / magnitude] is not negative when [magnitude > 0]. *)
Lemma invMagnitude_not_negative (magnitude : spec_float) :
  num_pos magnitude = true ->
  SFltb (num_div num_one magnitude) (S754_zero false) = false.
Proof.
  assert (Hone : num_one = S754_finite false 4503599627370496 (-52))
    by (vm_compute; reflexivity).
  rewrite Hone. cbn [num_pos num_div Ieee.arith].
  destruct magnitude as [s|s| |s m e]; cbn; try discriminate.
  - destruct s; [discriminate|reflexivity].
  - destruct s; [discriminate|]. intros _.
    unfold SFdiv.
    destruct (SFdiv_core_binary _ _ _ _ _ _) as [[mz ez] lz].
    apply binary_round_aux_not_negative.
Qed.








(** C2, as the code has it.  For a vector [v] of width [n] with
    [0 < n < 1536], in the arithmetic of the engine: the output has 1536
    components and those at the indices [n .. 1535] are zero; when the
    magnitude computed for [v] is positive, component [i < n] is the
    product of [v[i]] with one common factor, [1 / magnitude], rounded to
    binary32, and that factor is not negative; otherwise component [i < n]
    is [v[i]] rounded to binary32.  The first [n] components are thus
    parallel to [v] up to the rounding of each product. *)
Theorem padEmbeddingTo1536_parallel_rounded (v : list spec_float) :
  0 < length v < 1536 ->
  let out := padEmbeddingTo1536 v in
  let magnitude := l2norm v in
  let invMagnitude := num_div num_one magnitude in
  length out = 1536
  /\ (forall i, length v <= i < 1536 -> out !! i = Some (S754_zero false))
  /\ (num_pos magnitude = true ->
      SFltb invMagnitude (S754_zero false) = false
      /\ forall i x, v !! i = Some x ->
           out !! i = Some (Ieee.fround (num_mul x invMagnitude)))
  /\ (num_pos magnitude = false ->
      forall i x, v !! i = Some x -> out !! i = Some (Ieee.fround x)).
Proof.
  intros [_ Hlt] out magnitude invMagnitude.
  destruct (padEmbeddingTo1536_tail_zero v Hlt) as [Hlen Htail].
  split; [exact Hlen|]. split; [exact Htail|].
  subst out. rewrite (padEmbeddingTo1536_shape v Hlt). fold magnitude.
  assert (Hhead : forall (f : spec_float -> spec_float) i x,
            v !! i = Some x ->
            ((f <$> v) ++ replicate (1536 - length v) num_zero) !! i
            = Some (f x)).
  { intros f i x Hi.
    rewrite lookup_app_l
      by (rewrite length_fmap; apply (lookup_lt_Some v i x Hi)).
    rewrite list_lookup_fmap, Hi. reflexivity. }
  split.
  - intros Hpos. split; [apply invMagnitude_not_negative, Hpos|].
    intros i x Hi.
    rewrite (Hhead (fun x => if num_pos magnitude
                             then num_f32 (num_mul x (num_div num_one magnitude))
                             else num_f32 x) i x Hi).
    rewrite Hpos. reflexivity.
  - intros Hpos i x Hi.
    rewrite (Hhead (fun x => if num_pos magnitude
                             then num_f32 (num_mul x (num_div num_one magnitude))
                             else num_f32 x) i x Hi).
    rewrite Hpos. reflexivity.
Qed.

Lemma padEmbeddingTo1536_parallel_rounded_witness :
  let v := [Ieee.double 3 0; Ieee.double 4 0] in
  let out := padEmbeddingTo1536 v in
  length out = 1536
  /\ (forall i, 2 <= i < 1536 -> out !! i = Some (S754_zero false))
  /\ (num_pos (l2norm v) = true ->
      SFltb (num_div num_one (l2norm v)) (S754_zero false) = false
      /\ forall i x, v !! i = Some x ->
           out !! i = Some (Ieee.fround (num_mul x (num_div num_one (l2norm v)))))
  /\ (num_pos (l2norm v) = false ->
      forall i x, v !! i = Some x -> out !! i = Some (Ieee.fround x)).
Proof.
  apply (padEmbeddingTo1536_parallel_rounded
           [Ieee.double 3 0; Ieee.double 4 0]).
  cbn. lia.
Defined.

(** The first two components of the image of the near-unit vector
    [(0.60000008, 0.80000001)] are [(0.60000002, 0.79999995)]: the first
    entry lost one unit in the last place of 10066331, the second one of
    13421773, so no single scalar maps the vector to them. *)
Lemma padEmbeddingTo1536_not_parallel :
  ~ exists c : Q,
      (0 < c)%Q
      /\ Ieee.scaledBy c nearUnitVector (padEmbeddingTo1536 nearUnitVector).
Proof.
  intros (c & _ & Hscaled).
  destruct (Hscaled 0 (Ieee.double 10066331 (-24)) eq_refl)
    as (y0 & qx0 & qy0 & Hy0 & Hqx0 & Hqy0 & E0).
  destruct (Hscaled 1 (Ieee.double 13421773 (-24)) eq_refl)
    as (y1 & qx1 & qy1 & Hy1 & Hqx1 & Hqy1 & E1).
  vm_compute in Hy0. injection Hy0 as <-.
  vm_compute in Hy1. injection Hy1 as <-.
  vm_compute in Hqx0. injection Hqx0 as <-.
  vm_compute in Hqx1. injection Hqx1 as <-.
  vm_compute in Hqy0. injection Hqy0 as <-.
  vm_compute in Hqy1. injection Hqy1 as <-.
  match type of E0 with (?qy0 == c * ?qx0)%Q =>
    match type of E1 with (?qy1 == c * ?qx1)%Q =>
      assert (Hcross : (qy0 * qx1 == qy1 * qx0)%Q)
        by (rewrite E0, E1; ring)
    end
  end.
  apply Qeq_bool_iff in Hcross. vm_compute in Hcross. discriminate.
Qed.




(** The same through [generateLocalEmbedding]: the model hands back the
    near-unit vector and the embedding starts with other numbers. *)
Example generateLocalEmbedding_near_unit :
  exists out,
    generateLocalEmbedding nearUnitEmbedder (Some (Js.lit "fees"))
    = Ok (EmbArray (ENumber <$> out))
    /\ take 2 out
       = [Ieee.double 10066330 (-24); Ieee.double 13421772 (-24)]
    /\ nearUnitVector
       = [Ieee.double 10066331 (-24); Ieee.double 13421773 (-24)].
Proof.
  eexists. split; [reflexivity|]. split; [vm_compute; reflexivity|reflexivity].
Qed.

(** [(3, 4)] and [(1e200, 1)]: the two entries of the first are scaled by
    different numbers, and the second, whose squares overflow, becomes the
    zero vector. *)
Example padEmbeddingTo1536_ieee_overflow :
  padEmbeddingTo1536 [Ieee.double (10 ^ 200) 0; Ieee.double 1 0]
  = replicate 1536 (S754_zero false).
Proof. vm_compute. reflexivity. Qed.

(* ===================================================================== *)
(** * More on padEmbeddingTo1536 *)
(* ===================================================================== *)

(** X1.  In any arithmetic, whatever the width of its input (zero
    included), [padEmbeddingTo1536] returns exactly 1536 components; an
    input of 1536 components or more is cut to its first 1536 components,
    without any rescaling. *)
Theorem padEmbeddingTo1536_width {A : Type} {arith : Arith A} (v : list A) :
  length (padEmbeddingTo1536 v) = 1536
  /\ (1536 <= length v -> padEmbeddingTo1536 v = take 1536 v).
Proof.
  split; [apply padEmbeddingTo1536_length|].
  intros Hge. unfold padEmbeddingTo1536, targetDim.
  destruct (length v =? 1536) eqn:E.
  - apply Nat.eqb_eq in E. symmetry. apply take_ge. lia.
  - apply Nat.eqb_neq in E.
    rewrite (proj2 (Nat.ltb_lt 1536 (length v))) by lia. reflexivity.
Qed.

(** X2.  In any arithmetic, padding is idempotent: a padded vector is
    returned as it is by a second call. *)
Theorem padEmbeddingTo1536_idempotent {A : Type} {arith : Arith A} (v : list A) :
  padEmbeddingTo1536 (padEmbeddingTo1536 v) = padEmbeddingTo1536 v.
Proof.
  pose proof (padEmbeddingTo1536_length v) as Hlen.
  unfold padEmbeddingTo1536 at 1. unfold targetDim.
  rewrite Hlen. reflexivity.
Qed.

(* ===================================================================== *)
(** * More on the embedding generators *)
(* ===================================================================== *)

Lemma truthy_take (n : nat) (s : list N) :
  0 < n -> Js.truthy (take n s) = Js.truthy s.
Proof. destruct n; [lia|]. destruct s; reflexivity. Qed.

(** X5. [generateLocalEmbedding] reads at most the first 8000 code units of
    its text: the text and its first 8000 code units give the same outcome,
    whatever the model does. *)
Theorem generateLocalEmbedding_reads_8000 (e : Embedder) (text : list N) :
  generateLocalEmbedding e (Some text)
  = generateLocalEmbedding e (Some (take (N.to_nat 8000) text)).
Proof.
  unfold generateLocalEmbedding, Js.truthy_opt, Js.slice0.
  rewrite truthy_take by lia.
  destruct (negb (Js.truthy text)); [reflexivity|].
  cbn [default]. cbv zeta. unfold Datatypes.id.
  assert (Hshort : ((8000 <? N.of_nat (length (take (N.to_nat 8000) text)))%N
                    = false)).
  { apply N.ltb_ge. rewrite length_take. lia. }
  rewrite Hshort.
  destruct (8000 <? N.of_nat (length text))%N eqn:Hlong; [reflexivity|].
  apply N.ltb_ge in Hlong. rewrite take_ge by lia. reflexivity.
Qed.

(** X6. [generateQueryEmbedding] succeeds exactly when the local model is
    asked for, answers, and its answer is an array of 1536 entries; the
    [fallbackToOpenAI] option never turns a failure into a success. *)
Theorem generateQueryEmbedding_succeeds_iff (env : Env) (text : list N)
    (useLocal fallbackToOpenAI : bool) (t : list Call) (v : EmbVal) :
  fst (generateQueryEmbedding env text useLocal fallbackToOpenAI t) = Ok v
  <-> useLocal = true
      /\ env_generateLocalEmbedding env text = Ok v
      /\ bad_dimensions v = false.
Proof.
  unfold generateQueryEmbedding, try_catch, bind, callLocalEmbedding, call,
    generateOpenAIEmbedding, throw, ret.
  destruct useLocal; [|split; [discriminate|intros [? _]; discriminate]].
  destruct (env_generateLocalEmbedding env text) as [w|err] eqn:Hlocal.
  - destruct (bad_dimensions w) eqn:Hbad.
    + destruct fallbackToOpenAI; cbn;
        (split; [discriminate|intros (_ & [= ->] & ?); congruence]).
    + cbn. split.
      * intros [= ->]. auto.
      * intros (_ & [= ->] & _). reflexivity.
  - destruct fallbackToOpenAI; cbn;
      (split; [discriminate|intros (_ & ? & _); discriminate]).
Qed.

(* ===================================================================== *)
(** * ensureCollectionOnce *)
(* ===================================================================== *)

Lemma afterCreateError_cache client name e status cache calls :
  match afterCreateError client name e status cache calls with
  | (Ok c, cache', _) => cache' = Some c /\ cached_name c = name
  | (Throw _, cache', _) => cache' = cache
  end.
Proof.
  unfold afterCreateError.
  destruct (alreadyExists e status); [|reflexivity].
  destruct (getCollectionAgain client); cbn; auto.
Qed.

Lemma ensureCollectionOnce_cache client envName n cache :
  match ensureCollectionOnce client envName n cache with
  | (Ok c, cache', _) =>
      cache' = Some c /\ cached_name c = collectionNameOf envName n
  | (Throw _, cache', _) => cache' = cache
  end.
Proof.
  unfold ensureCollectionOnce.
  set (name := collectionNameOf envName n).
  match goal with |- context [if bool_decide _ then _ else ?m] =>
    set (miss := m) end.
  assert (Hmiss : match miss with
                  | (Ok c, cache', _) => cache' = Some c /\ cached_name c = name
                  | (Throw _, cache', _) => cache' = cache
                  end).
  { subst miss.
    destruct (getQdrantClient client); [|reflexivity].
    destruct (getCollection client) as [vectors|].
    - match goal with |- context [if ?b then _ else _] => destruct b end;
        cbn; auto.
    - destruct (createCollection client).
      + destruct (getCollectionAgain client); cbn; auto.
        apply afterCreateError_cache.
      + apply afterCreateError_cache. }
  destruct cache as [cached|]; [|exact Hmiss].
  case_bool_decide; [|exact Hmiss].
  cbn. auto.
Qed.

(** X7. Once [ensureCollectionOnce] has succeeded, every later call for
    the same collection answers from the module cache: it returns the same
    object and makes no call to the client, whatever state the store is in
    by then. *)
Theorem ensureCollectionOnce_cached (client later : QdrantClient)
    (envName n : option (list N)) (cache cache' : option CachedCollection)
    (c : CachedCollection) (calls : list ClientCall) :
  ensureCollectionOnce client envName n cache = (Ok c, cache', calls) ->
  ensureCollectionOnce later envName n cache' = (Ok c, cache', []).
Proof.
  intros Hfirst.
  pose proof (ensureCollectionOnce_cache client envName n cache) as Hc.
  rewrite Hfirst in Hc. destruct Hc as [-> Hname].
  unfold ensureCollectionOnce. rewrite bool_decide_eq_true_2 by exact Hname.
  reflexivity.
Qed.

Lemma ensureCollectionOnce_cached_witness :
  ensureCollectionOnce unreachableStore None None
    (snd (fst (ensureCollectionOnce emptyStore None None None)))
  = (fst (fst (ensureCollectionOnce emptyStore None None None)),
     snd (fst (ensureCollectionOnce emptyStore None None None)), []).
Proof.
  apply (ensureCollectionOnce_cached emptyStore unreachableStore None None None
           _ _ (snd (ensureCollectionOnce emptyStore None None None))).
  vm_compute. reflexivity.
Defined.

Lemma afterCreateError_calls client name e status cache calls :
  Forall (namesOnly name) calls ->
  Forall (namesOnly name)
    (snd (afterCreateError client name e status cache calls))
  /\ length (snd (afterCreateError client name e status cache calls))
     <= S (length calls)
  /\ length (List.filter isCreate
               (snd (afterCreateError client name e status cache calls)))
     = length (List.filter isCreate calls).
Proof.
  intros Hcalls. unfold afterCreateError.
  destruct (alreadyExists e status); [|cbn; auto with lia].
  destruct (getCollectionAgain client); cbn;
    rewrite List.filter_app, !length_app; cbn;
    (split; [apply Forall_app; split; [exact Hcalls|repeat constructor]|lia]).
Qed.

(** X8. What a call of [ensureCollectionOnce] can do: a failure leaves the
    module cache as it was and a success stores the returned object, under
    the requested name; the client is called at most four times, always for
    that name, and is asked at most once to create the collection, with
    vectors of 1536 numbers. *)
Theorem ensureCollectionOnce_footprint (client : QdrantClient)
    (envName n : option (list N)) (cache : option CachedCollection) :
  let name := collectionNameOf envName n in
  let outcome := ensureCollectionOnce client envName n cache in
  match fst (fst outcome) with
  | Ok c => snd (fst outcome) = Some c /\ cached_name c = name
  | Throw _ => snd (fst outcome) = cache
  end
  /\ Forall (namesOnly name) (snd outcome)
  /\ length (snd outcome) <= 4
  /\ length (List.filter isCreate (snd outcome)) <= 1.
Proof.
  intros name outcome. split.
  { pose proof (ensureCollectionOnce_cache client envName n cache) as Hc.
    fold name outcome in Hc. destruct outcome as [[[c|e] cache'] calls]; exact Hc. }
  subst outcome. unfold ensureCollectionOnce. fold name.
  match goal with |- context [if bool_decide _ then _ else ?m] =>
    set (miss := m) end.
  assert (Hmiss : Forall (namesOnly name) (snd miss)
                  /\ length (snd miss) <= 4
                  /\ length (List.filter isCreate (snd miss)) <= 1).
  { subst miss.
    destruct (getQdrantClient client); [|cbn; auto with lia].
    destruct (getCollection client) as [vectors|].
    - match goal with |- context [if ?b then _ else _] => destruct b end;
        cbn; (split; [repeat constructor|lia]).
    - destruct (createCollection client).
      + destruct (getCollectionAgain client).
        * cbn. split; [repeat constructor|lia].
        * match goal with |- context [afterCreateError ?c ?nm ?e ?s ?ch ?cs] =>
            destruct (afterCreateError_calls c nm e s ch cs) as (H1 & H2 & H3);
              [repeat constructor|]
          end.
          cbn in H2, H3. auto with lia.
      + match goal with |- context [afterCreateError ?c ?nm ?e ?s ?ch ?cs] =>
            destruct (afterCreateError_calls c nm e s ch cs) as (H1 & H2 & H3);
              [repeat constructor|]
          end.
        cbn in H2, H3. auto with lia. }
  destruct cache as [cached|]; [|exact Hmiss].
  case_bool_decide; [|exact Hmiss].
  cbn. auto with lia.
Qed.

(** X9. A collection that exists with vectors of another size than 1536 is
    refused when it is read for the first time: the call throws, nothing is
    cached, and the only call made is the one that read the collection. *)
Theorem ensureCollectionOnce_wrong_size (client : QdrantClient)
    (envName n : option (list N)) (vectors : Vectors) (size : nat) :
  getQdrantClient client = Ok tt ->
  getCollection client = Ok (Some vectors) ->
  vectors_content vectors = Some (Some size)
  \/ (vectors_content vectors = None /\ vectors_size vectors = Some size) ->
  size <> 0 ->
  size <> 1536 ->
  exists e,
    ensureCollectionOnce client envName n None
    = (Throw e, None, [GetCollection (collectionNameOf envName n)]).
Proof.
  intros Hclient Hget Hsize Hnz Hne.
  unfold ensureCollectionOnce. rewrite Hclient, Hget. cbn [mbind option_bind].
  assert (Htest : (size =? 1536) = false) by (apply Nat.eqb_neq; exact Hne).
  destruct Hsize as [Hc|[Hc Hs]]; rewrite Hc.
  - destruct size as [|k]; [contradiction|].
    cbn [truthy_nat default andb]. unfold Datatypes.id.
    rewrite Htest. cbn [negb]. eexists. reflexivity.
  - rewrite Hs. destruct size as [|k]; [contradiction|].
    cbn [truthy_nat default andb]. unfold Datatypes.id.
    rewrite Htest. cbn [negb]. eexists. reflexivity.
Qed.

Lemma ensureCollectionOnce_wrong_size_witness :
  exists e,
    ensureCollectionOnce smallVectorStore None None None
    = (Throw e, None, [GetCollection (collectionNameOf None None)]).
Proof.
  apply (ensureCollectionOnce_wrong_size smallVectorStore None None
           {| vectors_content := Some (Some 384); vectors_size := None |} 384).
  - reflexivity.
  - reflexivity.
  - left. reflexivity.
  - lia.
  - lia.
Defined.

(* ===================================================================== *)
(** * storeChunkInQdrant *)
(* ===================================================================== *)

(** X10. [storeChunkInQdrant] validates before it writes: an embedding that
    is not an array of 1536 numbers makes it throw without any call to the
    store, and every point it hands to [upsert] carries a vector of 1536
    numbers, the generated id and the collection name it was given. *)
Theorem storeChunkInQdrant_validates_first (client upsert : result unit)
    (uuid : list N) (p : StoreParams) :
  (invalid_embedding (sp_embedding p) = true ->
   exists e, storeChunkInQdrant client uuid upsert p = (Throw e, []))
  /\ (forall collectionName point,
        Upsert collectionName point ∈ snd (storeChunkInQdrant client uuid upsert p) ->
        invalid_embedding (EmbArray (point_vector point)) = false
        /\ sp_embedding p = EmbArray (point_vector point)
        /\ point_id point = uuid
        /\ sp_collectionName p = Some collectionName
        /\ Js.truthy collectionName = true).
Proof.
  unfold storeChunkInQdrant, invalid_embedding. split.
  - intros Hbad.
    destruct client; [|eexists; reflexivity].
    destruct (negb (Js.truthy_opt (sp_collectionName p))); [eexists; reflexivity|].
    destruct (sp_embedding p) as [| |embedding]; try (eexists; reflexivity).
    destruct (negb (length embedding =? 1536)); [eexists; reflexivity|].
    cbn in Hbad. rewrite Hbad. eexists; reflexivity.
  - intros collectionName point.
    destruct client; [|cbn; intros H; inversion H].
    destruct (sp_collectionName p) as [nm|] eqn:Hname;
      [|cbn; intros H; inversion H].
    cbn [Js.truthy_opt].
    destruct (Js.truthy nm) eqn:Hnm; [|cbn; intros H; inversion H].
    cbn [negb].
    destruct (sp_embedding p) as [| |embedding];
      try solve [cbn; intros H; inversion H].
    destruct (negb (length embedding =? 1536)) eqn:Hlen;
      [cbn; intros H; inversion H|].
    destruct (existsb not_a_valid_number embedding) eqn:Hnum;
      [cbn; intros H; inversion H|].
    intros Hin.
    assert (Hcall : Upsert collectionName point
                    = Upsert (default [] (Some nm))
                        {| point_id := uuid;
                           point_named := sp_isNamedVector p;
                           point_vector := embedding;
                           point_payload := payloadOf p |}).
    { destruct upsert; cbn in Hin; apply list_elem_of_singleton in Hin;
        exact Hin. }
    injection Hcall as -> ->. cbn.
    rewrite Hlen, Hnum. auto.
Qed.

Lemma or_else_truthy (a : option (list N)) :
  Js.or_else (Some (default [] (Js.or_else a (Some [])))) None
  = Js.or_else a None.
Proof. destruct a as [[|c s]|]; reflexivity. Qed.

(** X11. What comes back of a stored chunk: a search hit that carries the
    payload written by [storeChunkInQdrant] is turned by the retrieval into
    a chunk with the stored text, document id and chunk id; the chunk index
    comes back unless it is 0, which is read back as null, and a blank
    category or file name is not stored at all. *)
Theorem stored_chunk_read_back (p : StoreParams) (i : N) (s : option Q) :
  let chunk :=
    chunk_of_hit {| hit_id := i; score := s; payload := Some (payloadOf p) |} in
  content chunk = default [] (sp_content p)
  /\ document_id chunk = Js.or_else (sp_document_id p) None
  /\ chunk_id chunk
     = Some (interpolate (sp_document_id p) ++ Js.lit "_"
             ++ interpolate_index (sp_chunk_index p))
  /\ chunk_index chunk
     = match sp_chunk_index p with Some 0%N => None | other => other end
  /\ category chunk
     = (if present (sp_category p) then sp_category p else None)
  /\ file_name chunk
     = (if present (sp_file_name p) then sp_file_name p else None).
Proof.
  intros chunk. subst chunk. unfold chunk_of_hit, payload_field, payloadOf.
  cbn [payload mbind option_bind p_document_id p_chunk_index p_chunk_id p_text
         p_content p_category p_file_name content document_id chunk_id
         chunk_index category file_name].
  split; [|split; [|split; [|split; [|split]]]].
  - destruct (sp_content p) as [[|c t]|]; reflexivity.
  - apply or_else_truthy.
  - unfold Js.or_else.
    destruct (interpolate (sp_document_id p)); reflexivity.
  - destruct (sp_chunk_index p) as [[|k]|]; reflexivity.
  - unfold present. destruct (sp_category p) as [[|c t]|]; try reflexivity.
    cbn [Js.truthy andb].
    destruct (Js.truthy (Js.trim (c :: t))); reflexivity.
  - unfold present. destruct (sp_file_name p) as [[|c t]|]; try reflexivity.
    cbn [Js.truthy andb].
    destruct (Js.truthy (Js.trim (c :: t))); reflexivity.
Qed.

(* ===================================================================== *)
(** * More on retrieveChunksFromQdrant *)
(* ===================================================================== *)

(** X12. A category filter that the store cannot apply is dropped: when
    the filtered search fails with a missing-index error, the search is made
    once more without the filter (and without the timeout), and its hits
    are the result. *)
Theorem retrieveChunksFromQdrant_filter_fallback (env : Env) (query : list N)
    (vector : list EmbElem) (matchCount : spec_float) (category : list N)
    (info : CollectionInfo) (filterError : JsError) (hit : Hit)
    (hits : list Hit) :
  let named :=
    match isNamedVector info with Some false => false | _ => true end in
  let filtered :=
    {| req_named := named; req_vector := vector; req_limit := matchCount;
       req_filter := Some category; req_timeout := Some 500 |} in
  let plain :=
    {| req_named := named; req_vector := vector; req_limit := matchCount;
       req_filter := None; req_timeout := None |} in
  env_getQdrantClient env = Ok tt ->
  env_ensureCollectionOnce env = Ok info ->
  invalid_embedding (EmbArray vector) = false ->
  Js.truthy category = true ->
  env_search env filtered = Throw filterError ->
  is_missing_index_error filterError = true ->
  env_search env plain = Ok (Some (hit :: hits)) ->
  run (retrieveChunksFromQdrant env query (Some (EmbArray vector)) matchCount
         (Some category))
  = (Ok (chunk_of_hit <$> hit :: hits),
     [CallGetQdrantClient; CallEnsureCollectionOnce; CallSearch filtered;
      CallSearch plain]).
Proof.
  intros named filtered plain Hclient Hinfo Hvalid Hcat Hfail Hindex Hplain.
  run_js. rewrite Hclient, Hinfo. cbn [app]. rewrite Hvalid.
  cbn [Js.truthy_opt]. rewrite Hcat.
  fold named. fold filtered. rewrite Hfail. rewrite Hindex.
  fold plain. rewrite Hplain. reflexivity.
Qed.

Lemma retrieveChunksFromQdrant_filter_fallback_witness :
  fst (run (retrieveChunksFromQdrant missingIndexEnv feesQuestion
              (Some (EmbArray zeroVector)) 3 (Some (Js.lit "fees"))))
  = Ok [chunk_of_hit {| hit_id := 7%N; score := Some (61 # 100);
                        payload := None |}].
Proof.
  rewrite (retrieveChunksFromQdrant_filter_fallback missingIndexEnv
             feesQuestion zeroVector 3 (Js.lit "fees")
             {| name := Js.lit "document_chunks"; isNamedVector := Some true |}
             (Error (Js.lit "Bad request: Index required but not found for category"))
             {| hit_id := 7%N; score := Some (61 # 100); payload := None |} []).
  - reflexivity.
  - reflexivity.
  - reflexivity.
  - vm_compute. reflexivity.
  - reflexivity.
  - reflexivity.
  - vm_compute. reflexivity.
  - reflexivity.
Defined.

Lemma retrieveChunksFromQdrant_searches_from (env : Env) (query : list N)
    (queryEmbedding : option EmbVal) (matchCount : spec_float)
    (category : option (list N)) (t : list Call) :
  searchesOf t = [] ->
  let searches :=
    searchesOf
      (snd (retrieveChunksFromQdrant env query queryEmbedding matchCount
              category t)) in
  Forall (wellFormedSearch matchCount category) searches
  /\ length searches <= 2
  /\ (Js.truthy_opt category = false -> length searches <= 1).
Proof.
  intros Hstart searches. subst searches. run_js.
  destruct (env_getQdrantClient env);
    [|cbn; unfold searchesOf in *; rewrite !omap_app, Hstart; cbn;
      auto with lia].
  destruct (env_ensureCollectionOnce env) as [info|];
    [|cbn; unfold searchesOf in *; rewrite !omap_app, Hstart; cbn;
      auto with lia].
  assert (Hmain : forall (embedding : EmbVal) (t0 : list Call),
    searchesOf t0 = [] ->
    let m := (exec match embedding with
       | EmbNullish =>
           throw (TypeError "Cannot read properties of undefined (reading 'length')")
       | _ => ret tt
       end then
       if invalid_embedding embedding then
         exec match embedding with
              | EmbNotArray =>
                  if env_development env
                  then throw (TypeError "embedding?.slice is not a function")
                  else ret tt
              | _ => ret tt
              end then
         ret []
       else
         let vector := match embedding with EmbArray l => l | _ => [] end in
         let isNamedVector :=
           match isNamedVector info with Some false => false | _ => true end in
         try_catch
           (let filter :=
              if Js.truthy_opt category then category else None in
            let* searchResult :=
              match filter with
              | Some _ =>
                  try_catch
                    (search env {| req_named := isNamedVector; req_vector := vector;
                                   req_limit := matchCount; req_filter := filter;
                                   req_timeout := Some 500 |})
                    (fun filterError =>
                       if is_missing_index_error filterError then
                         search env {| req_named := isNamedVector;
                                       req_vector := vector;
                                       req_limit := matchCount; req_filter := None;
                                       req_timeout := None |}
                       else throw filterError)
              | None =>
                  search env {| req_named := isNamedVector; req_vector := vector;
                                req_limit := matchCount; req_filter := None;
                                req_timeout := Some 500 |}
              end in
            exec match searchResult with
                 | Some (_ :: _) => ret tt
                 | _ =>
                     try_catch
                       (exec call CallGetCollection (env_getCollection env) then
                        ret tt)
                       (fun infoError => ret tt)
                 end then
            match searchResult with
            | Some hits => ret (List.map chunk_of_hit hits)
            | None =>
                throw (TypeError "Cannot read properties of undefined (reading 'map')")
            end)
           (fun error => throw error))%js in
    let searches := searchesOf (snd (m t0)) in
    Forall (wellFormedSearch matchCount category) searches
    /\ length searches <= 2
    /\ (Js.truthy_opt category = false -> length searches <= 1)).
  { clear Hstart. intros embedding t0 Ht m searches. subst m searches.
    unfold search, try_catch, bind, call, ret, throw.
    unfold searchesOf in *.
    destruct embedding as [| |vector]; cbn [invalid_embedding].
    - done_searching Ht.
    - destruct (env_development env); done_searching Ht.
    - destruct (negb (length vector =? 1536) || existsb not_a_valid_number vector)
        eqn:Hvalid; [done_searching Ht|].
      assert (Hwf : forall named filter timeout,
                 filter = None \/ (filter = category /\ Js.truthy_opt category = true) ->
                 wellFormedSearch matchCount category
                   {| req_named := named; req_vector := vector;
                      req_limit := matchCount; req_filter := filter;
                      req_timeout := timeout |}).
      { intros named filter timeout Hf. unfold wellFormedSearch. cbn.
        rewrite Hvalid. auto. }
      destruct (Js.truthy_opt category) eqn:Hcat.
      + destruct category as [cat|]; [|discriminate].
        destruct (env_search env _) as [[[|h hs]|]|e] eqn:Hs1.
        * destruct (env_getCollection env); done_searching Ht.
        * done_searching Ht.
        * destruct (env_getCollection env); done_searching Ht.
        * destruct (is_missing_index_error e).
          -- clear Hs1.
             destruct (env_search env _) as [[[|h hs]|]|e2] eqn:Hs2.
             ++ destruct (env_getCollection env); done_searching Ht.
             ++ done_searching Ht.
             ++ destruct (env_getCollection env); done_searching Ht.
             ++ done_searching Ht.
          -- done_searching Ht.
      + destruct (env_search env _) as [[[|h hs]|]|e] eqn:Hs1.
        * destruct (env_getCollection env); done_searching Ht.
        * done_searching Ht.
        * destruct (env_getCollection env); done_searching Ht.
        * done_searching Ht. }
  assert (Hstart' : searchesOf ((t ++ [CallGetQdrantClient])
                                ++ [CallEnsureCollectionOnce]) = []).
  { unfold searchesOf in *. rewrite !omap_app, Hstart. reflexivity. }
  destruct queryEmbedding as [embedding|].
  - apply (Hmain embedding). exact Hstart'.
  - destruct (env_generateLocalEmbedding env query) as [embedding|e].
    + assert (Hstart'' : searchesOf (((t ++ [CallGetQdrantClient])
                                      ++ [CallEnsureCollectionOnce])
                                     ++ [CallEmbeddingModel query]) = []).
      { unfold searchesOf in *. rewrite omap_app, Hstart'. reflexivity. }
      destruct (bad_dimensions embedding);
        [cbn; unfold searchesOf in *; rewrite !omap_app, Hstart; cbn;
         auto with lia|].
      apply (Hmain embedding). exact Hstart''.
    + cbn. unfold searchesOf in *. rewrite !omap_app, Hstart. cbn.
      auto with lia.
Qed.

(** X13. Whatever the collaborators do, [retrieveChunksFromQdrant] searches
    the store at most twice, and only once when no category is given; every
    search carries a vector of 1536 numbers, the requested limit, and either
    no filter or the requested category. *)
Theorem retrieveChunksFromQdrant_searches (env : Env) (query : list N)
    (queryEmbedding : option EmbVal) (matchCount : spec_float)
    (category : option (list N)) :
  let searches :=
    searchesOf
      (snd (run (retrieveChunksFromQdrant env query queryEmbedding matchCount
                   category))) in
  Forall (wellFormedSearch matchCount category) searches
  /\ length searches <= 2
  /\ (Js.truthy_opt category = false -> length searches <= 1).
Proof.
  apply retrieveChunksFromQdrant_searches_from. reflexivity.
Qed.

(* ===================================================================== *)
(** * The context retrieval endpoint as a whole *)
(* ===================================================================== *)

Lemma retrieveChunks_total env query matchCount category t :
  exists chunks t',
    retrieveChunks env query matchCount category t = (Ok chunks, t').
Proof.
  destruct (blank query) eqn:Hb.
  - unfold retrieveChunks. rewrite Hb. unfold ret. eauto.
  - rewrite (retrieveChunks_unfold _ _ _ _ _ Hb).
    destruct (retrieveChunksFromQdrant _ _ _ _ _ t) as [[chunks|e] t']; eauto.
Qed.

Lemma gate_shape (chunks : list Chunk) :
  status (gate chunks) = 200
  /\ error (json (gate chunks)) = None
  /\ instructions (json (gate chunks)) = None
  /\ exists n, chunksFound (json (gate chunks)) = Some n
               /\ n <= length chunks
               /\ Js.truthy_opt (context (json (gate chunks))) = (0 <? n).
Proof.
  unfold gate. destruct chunks as [|c0 rest].
  - cbn. eauto 10.
  - destruct (Qltb _ _).
    + cbn. repeat split. exists 0. cbn. auto with lia.
    + cbn [status json error instructions chunksFound context].
      repeat split. exists (length (c0 :: rest)).
      cbn [Js.truthy_opt]. rewrite buildContextBlock_truthy. cbn. auto.
Qed.

(** The answer to a body that cannot be read. *)
Lemma POST_unreadable engine env e t :
  exists response,
    POST engine env (Throw e) t = (Ok response, t)
    /\ status response = 500.
Proof. eexists. split; reflexivity. Qed.

(** The answer to a body that was read. *)
Lemma POST_answer engine env body t :
  exists response t',
    POST engine env (Ok body) t = (Ok response, t')
    /\ status response = statusFor (Ok body)
    /\ (status response = 200 ->
        exists s,
          property (Js.lit "question") body = Some (JsonString s)
          /\ match limitFor engine (Ok body) with
             | Ok limit =>
                 t' = snd (retrieveChunks env (Some (Js.trim s)) limit None t)
                 /\ response
                    = gate (match fst (retrieveChunks env (Some (Js.trim s))
                                         limit None t) with
                            | Ok chunks => chunks
                            | Throw _ => []
                            end)
             | Throw e =>
                 t' = t
                 /\ response
                    = {| status := 200;
                         json := {| context := None; instructions := None;
                                    chunksFound := Some 0; reason := None;
                                    topSimilarity := None;
                                    error := message e;
                                    details := None |} |}
             end)
    /\ (status response <> 200 -> t' = t).
Proof.
  assert (Hobject : forall r,
            destructure body = Ok r ->
            body_question r = property (Js.lit "question") body
            /\ body_matchCount r
               = default (JsonNumber (Ieee.ofNat 5))
                   (property (Js.lit "matchCount") body)).
  { intros r. destruct body; cbn [destructure]; intros [= <-]; auto. }
  assert (Hstatus : isNull body = false ->
            statusFor (Ok body)
            = match property (Js.lit "question") body with
              | None => 400
              | Some question =>
                  if negb (ToBoolean question) then 400
                  else match question with
                       | JsonString s =>
                           if Js.truthy (Js.trim s) then 200 else 400
                       | _ => 500
                       end
              end).
  { intros H. unfold statusFor. rewrite H. reflexivity. }
  unfold POST, try_catch, bind, ret, limitFor.
  destruct (destructure body) as [r|e] eqn:Hr.
  - destruct (Hobject r eq_refl) as [Hq Hm].
    rewrite Hstatus by (destruct body; [discriminate Hr|reflexivity..]).
    rewrite Hq, Hm.
    destruct (property (Js.lit "question") body) as [question|];
      [|answered_early].
    destruct (negb (ToBoolean question)); [answered_early|].
    destruct question as [|b|x|s|items|fields]; cbn [trimOf];
      try answered_early.
    destruct (Js.truthy (Js.trim s)); [|answered_early].
    cbn [negb].
    destruct (effectiveMatchCount engine _) as [limit|e].
    + destruct (retrieveChunks_total env (Some (Js.trim s)) limit None t)
        as (chunks & t' & Hchunks).
      rewrite Hchunks. cbn [fst snd].
      do 2 eexists. split; [reflexivity|].
      split; [apply gate_shape|].
      split; [|intros H; destruct H; apply gate_shape].
      intros _. exists s. rewrite Hchunks. auto.
    + do 2 eexists. split; [reflexivity|].
      split; [reflexivity|]. split; [|intros H; destruct H; reflexivity].
      intros _. exists s. auto.
  - destruct body; try discriminate Hr. answered_early.
Qed.

(** X14. The endpoint always answers, and its status tells why: 500 when
    the body cannot be read, is [null], or carries a question that is
    truthy without being a string; 400 when the question is missing, falsy
    or a string of white space; 200 in every other case, whatever the
    embedding model and the vector store do. *)
Theorem POST_always_answers (engine : Engine) (env : Env)
    (body : result JsonValue) :
  exists response,
    fst (run (POST engine env body)) = Ok response
    /\ status response = statusFor body.
Proof.
  unfold run. destruct body as [body|e].
  - destruct (POST_answer engine env body []) as (response & t' & -> & H & _).
    eauto.
  - destruct (POST_unreadable engine env e []) as (response & -> & H). eauto.
Qed.

(** Bodies that are answered with each status. *)
Example POST_statuses :
  let statusOf body :=
    match fst (run (POST sampleEngine quietEnv body)) with
    | Ok response => Some (status response)
    | Throw _ => None
    end in
  statusOf (Throw (Error (Js.lit "Unexpected end of JSON input"))) = Some 500
  /\ statusOf (Ok JsonNull) = Some 500
  /\ statusOf (Ok (askWith (JsonNumber (Ieee.ofNat 42)) JsonNull)) = Some 500
  /\ statusOf (Ok (JsonArray [])) = Some 400
  /\ statusOf (Ok (askWith (JsonNumber (S754_zero false)) JsonNull)) = Some 400
  /\ statusOf (Ok (askWith (JsonString (Js.lit "  ")) JsonNull)) = Some 400
  /\ statusOf (Ok (askWith (JsonString feesQuestion) JsonNull)) = Some 200.
Proof. vm_compute. repeat split; reflexivity. Qed.

(** X15. What a 200 answer of the endpoint looks like: it carries no
    [instructions], it always reports [chunksFound], and it carries a
    non-empty [context] exactly when [chunksFound] is positive.  It carries
    an [error] only when [matchCount] cannot be converted to a number, and
    then the text of that failure.  A failed retrieval is therefore told
    apart from an empty one by nothing. *)
Theorem POST_answer_shape (engine : Engine) (env : Env)
    (body : result JsonValue) (response : HttpResponse) :
  fst (run (POST engine env body)) = Ok response ->
  status response = 200 ->
  instructions (json response) = None
  /\ (exists n, chunksFound (json response) = Some n
                /\ Js.truthy_opt (context (json response)) = (0 <? n))
  /\ match limitFor engine body with
     | Ok _ => error (json response) = None
     | Throw e =>
         error (json response) = message e
         /\ chunksFound (json response) = Some 0
     end.
Proof.
  unfold run. destruct body as [body|e].
  - destruct (POST_answer engine env body [])
      as (response' & t' & -> & _ & Hok & _).
    cbn [fst]. intros [= <-] H200.
    destruct (Hok H200) as (s & _ & Hlimit).
    destruct (limitFor engine (Ok body)) as [limit|e].
    + destruct Hlimit as [_ ->].
      match goal with |- context [gate ?c] =>
        destruct (gate_shape c) as (_ & He & Hi & n & Hn & _ & Hc) end.
      eauto.
    + destruct Hlimit as [_ ->]. cbn.
      split; [reflexivity|]. split; [exists 0; split; reflexivity|].
      split; reflexivity.
  - destruct (POST_unreadable engine env e []) as (response' & -> & H).
    cbn [fst]. intros [= <-] H200. congruence.
Qed.

Lemma POST_answer_shape_witness :
  let response := gate [] in
  instructions (json response) = None
  /\ (exists n, chunksFound (json response) = Some n
                /\ Js.truthy_opt (context (json response)) = (0 <? n))
  /\ error (json response) = None.
Proof.
  apply (POST_answer_shape sampleEngine quietEnv
           (Ok (askWith (JsonString feesQuestion) (JsonNumber (Ieee.ofNat 3))))).
  - vm_compute. reflexivity.
  - reflexivity.
Defined.

(** A [matchCount] that is an object with a [toString] of its own: the
    answer is a 200 that carries an [error]. *)
Example POST_answer_with_error :
  let body :=
    askWith (JsonString feesQuestion)
      (JsonObject [(Js.lit "toString", JsonNumber (Ieee.ofNat 1))]) in
  exists response,
    run (POST sampleEngine quietEnv (Ok body)) = (Ok response, [])
    /\ status response = 200
    /\ error (json response)
       = Some (Js.lit "Cannot convert object to primitive value").
Proof. eexists. vm_compute. repeat split; reflexivity. Qed.

Lemma max_not_below (n : spec_float) :
  SFltb (Ieee.max n (Ieee.ofNat 1)) (Ieee.ofNat 1) = false.
Proof.
  unfold Ieee.max.
  destruct n as [s| | |s m e]; try reflexivity.
  - destruct s; reflexivity.
  - change (Ieee.ofNat 1) with (S754_finite false 4503599627370496 (-52)).
    cbv iota.
    destruct (SFltb (S754_finite s m e) _) eqn:Hlt; [reflexivity|].
    destruct (SFltb _ (S754_finite s m e)); exact Hlt.
Qed.

(** X16. The endpoint searches the store at most once per request, never
    with a category filter and always with a vector of 1536 numbers.  The
    limit it asks for is [Math.max(matchCount || 5, 1)]: never a number
    below one, and NaN when [matchCount] does not convert to a number. *)
Theorem POST_searches (engine : Engine) (env : Env)
    (body : result JsonValue) :
  let searches := searchesOf (snd (run (POST engine env body))) in
  length searches <= 1
  /\ Forall (fun req =>
               req_filter req = None
               /\ limitFor engine body = Ok (req_limit req)
               /\ SFltb (req_limit req) (Ieee.ofNat 1) = false
               /\ invalid_embedding (EmbArray (req_vector req)) = false)
       searches.
Proof.
  intros searches. subst searches. unfold run.
  destruct body as [body|e]; [|cbn; auto].
  destruct (POST_answer engine env body [])
    as (response & t' & -> & _ & Hok & Hnot).
  cbn [snd].
  destruct (decide (status response = 200)) as [H200|H200];
    [|rewrite (Hnot H200); cbn; auto].
  destruct (Hok H200) as (s & _ & Hlimit).
  destruct (limitFor engine (Ok body)) as [limit|e] eqn:Hl;
    [|destruct Hlimit as [-> _]; cbn; auto].
  destruct Hlimit as [-> _].
  assert (Hm : SFltb limit (Ieee.ofNat 1) = false).
  { unfold limitFor, effectiveMatchCount in Hl.
    destruct (ToNumber engine _) as [n|]; [|discriminate Hl].
    injection Hl as <-. apply max_not_below. }
  set (q := Some (Js.trim s)).
  destruct (blank q) eqn:Hb.
  - unfold retrieveChunks. rewrite Hb. cbn. auto.
  - rewrite (retrieveChunks_unfold _ _ _ _ _ Hb).
    pose proof (retrieveChunksFromQdrant_searches_from env
                  (Js.trim (default [] q)) None limit None [] eq_refl)
      as (Hwf & _ & Hone).
    destruct (retrieveChunksFromQdrant _ _ _ _ _ _) as [[chunks|e] t'];
      cbn [snd] in *; (split; [apply Hone; reflexivity|]);
      (eapply Forall_impl; [exact Hwf|]);
      intros req (Hv & Hlim & [Hf|[Hf _]]); rewrite Hlim; auto.
Qed.

(** Values of [matchCount] and the limit that reaches the store. *)
Example POST_limits :
  let limitOf matchCount :=
    req_limit <$>
      searchesOf
        (snd (run (POST sampleEngine quietEnv
                     (Ok (askWith (JsonString feesQuestion) matchCount))))) in
  limitOf (JsonNumber (Ieee.ofNat 3)) = [Ieee.ofNat 3]
  /\ limitOf (JsonNumber (S754_zero false)) = [Ieee.ofNat 5]
  /\ limitOf (JsonNumber (Ieee.double (-2) 0)) = [Ieee.ofNat 1]
  /\ limitOf (JsonNumber (Ieee.double 5 (-1))) = [Ieee.double 5 (-1)]
  /\ limitOf (JsonString (Js.lit "7")) = [Ieee.ofNat 7]
  /\ limitOf (JsonString (Js.lit "many")) = [S754_nan]
  /\ limitOf (JsonObject []) = [S754_nan]
  /\ limitOf (JsonBool true) = [Ieee.ofNat 1].
Proof. vm_compute. repeat split; reflexivity. Qed.

(* ===================================================================== *)
(** * More on the prewarm cache and fetchAndSendContext *)
(* ===================================================================== *)

Lemma send_footprint msg l l' :
  send msg l = Ok l' ->
  dataChannelRef l' = dataChannelRef l
  /\ hasGreetedRef l' = hasGreetedRef l
  /\ timers l' = timers l
  /\ sent l' = sent l ++ [msg].
Proof.
  unfold send. destruct (dataChannelRef l) as [[]|]; try discriminate.
  intros [= <-]. cbn. auto.
Qed.

(** X17. What [fetchAndSendContext] can do to the control channel: it
    leaves the channel ref, the greeting flag and the pending timers alone,
    issues at most one request, and writes at most one message, which is an
    assistant item with a non-empty text. *)
Theorem fetchAndSendContext_footprint (fetch : NetRequest -> FetchOutcome)
    (sessionId category question : option (list N)) (pw : Prewarm) (l : Link) :
  let outcome := fetchAndSendContext fetch sessionId category question pw l in
  dataChannelRef (fst outcome) = dataChannelRef l
  /\ hasGreetedRef (fst outcome) = hasGreetedRef l
  /\ timers (fst outcome) = timers l
  /\ length (snd outcome) <= 1
  /\ (sent (fst outcome) = sent l
      \/ exists content,
           sent (fst outcome)
           = sent l ++ [ConversationItemCreate Assistant content]
           /\ nonEmptyContent content = true).
Proof.
  intros outcome. subst outcome. unfold fetchAndSendContext.
  destruct (negb (isOpen l)); [cbn; auto 10|].
  destruct (blank question); [cbn; auto 10|].
  destruct (usable _) eqn:Husable.
  - match goal with |- context [send ?m l] =>
      destruct (send m l) as [l'|e] eqn:Hsend end; [|cbn; auto 10].
    apply send_footprint in Hsend as (H1 & H2 & H3 & H4).
    cbn [fst snd]. rewrite H1, H2, H3, H4.
    repeat (split; [auto with lia|]). right. eexists. split; [reflexivity|].
    unfold usable in Husable.
    destruct (prewarmCacheRef pw !! _) as [data|]; [|discriminate].
    cbn. destruct (context data); [exact Husable|discriminate].
  - destruct (fetch _) as [e|response|st]; [cbn; auto 10| |cbn; auto 10].
    destruct (negb (ok response)); [cbn; auto 10|].
    destruct (has_context (json response)) eqn:Hctx; [|cbn; auto 10].
    match goal with |- context [send ?m l] =>
      destruct (send m l) as [l'|e] eqn:Hsend end; [|cbn; auto 10].
    apply send_footprint in Hsend as (H1 & H2 & H3 & H4).
    cbn [fst snd]. rewrite H1, H2, H3, H4.
    repeat (split; [auto with lia|]). right. eexists. split; [reflexivity|].
    unfold has_context in Hctx.
    destruct (chunksFound (json response)); [|discriminate].
    apply andb_true_iff in Hctx as [_ Hctx].
    destruct (instructions (json response)) as [[|c i]|]; cbn;
      try reflexivity;
      destruct (context (json response)); try discriminate; exact Hctx.
Qed.

(** X18. [prewarmContext] only ever adds to the cache: every entry keeps
    its value, at most one entry is added and at most one request is
    issued per call. *)
Theorem prewarmContext_keeps_entries (fetch : NetRequest -> FetchOutcome)
    (sessionId category question : option (list N)) (l : Link) (pw : Prewarm) :
  let outcome := prewarmContext fetch sessionId category question l pw in
  prewarmCacheRef pw ⊆ prewarmCacheRef (fst outcome)
  /\ size (prewarmCacheRef (fst outcome)) <= S (size (prewarmCacheRef pw))
  /\ length (snd outcome) <= 1.
Proof.
  intros outcome. subst outcome. unfold prewarmContext.
  destruct (blank question); [cbn; auto with lia|].
  destruct (negb (isOpen l)); [cbn; auto with lia|].
  destruct (prewarmCacheRef pw !! _) eqn:Hk; [cbn; auto with lia|].
  cbn [fst snd prewarmCacheRef].
  destruct (fetch _) as [e|response|st]; [auto with lia| |auto with lia].
  destruct (ok response); [|auto with lia].
  split; [apply insert_subseteq; exact Hk|].
  rewrite map_size_insert_None by exact Hk. auto with lia.
Qed.

Lemma trim_nil : Js.trim [] = [].
Proof. reflexivity. Qed.

Lemma blank_false_iff (q : list N) :
  blank (Some q) = false <-> Js.trim q <> [].
Proof.
  unfold blank. split.
  - intros H Ht. rewrite Ht in H. cbn in H. rewrite orb_true_r in H.
    discriminate.
  - intros Ht. destruct q as [|c q]; [contradiction|]. cbn [Js.truthy negb orb].
    destruct (Js.trim (c :: q)); [contradiction|reflexivity].
Qed.

(** X19. The cache key holds the first 100 code units of the question
    only: when two questions agree on them and a usable entry is cached for
    one, [fetchAndSendContext] answers the other from that entry, without a
    request. *)
Theorem prewarm_cache_truncates_question (fetch : NetRequest -> FetchOutcome)
    (sessionId category : option (list N)) (q1 q2 : list N) (pw : Prewarm)
    (l : Link) :
  blank (Some q1) = false ->
  take 100 (Js.trim q1) = take 100 (Js.trim q2) ->
  usable (prewarmCacheRef pw !! cacheKey sessionId category (Js.trim q1)) = true ->
  fetchAndSendContext fetch sessionId category (Some q2) pw l
  = fetchAndSendContext fetch sessionId category (Some q1) pw l
  /\ snd (fetchAndSendContext fetch sessionId category (Some q2) pw l) = [].
Proof.
  intros Hq1 Hsame Husable.
  assert (Hq2 : blank (Some q2) = false).
  { apply blank_false_iff. apply blank_false_iff in Hq1.
    intros Ht. rewrite Ht in Hsame. destruct (Js.trim q1); [contradiction|].
    discriminate. }
  assert (Hkey : cacheKey sessionId category (Js.trim q2)
                 = cacheKey sessionId category (Js.trim q1)).
  { unfold cacheKey, Js.slice0. rewrite Hsame. reflexivity. }
  unfold fetchAndSendContext. rewrite Hq1, Hq2. cbn [default].
  unfold Datatypes.id. rewrite Hkey, Husable.
  split; [reflexivity|].
  destruct (negb (isOpen l)); [reflexivity|].
  destruct (send _ l); reflexivity.
Qed.

Lemma prewarm_cache_truncates_question_witness :
  fetchAndSendContext sampleFetch None None (Some (longQuestion "fees"))
    (prewarmedFor (longQuestion "hostel")) openLink
  = fetchAndSendContext sampleFetch None None (Some (longQuestion "hostel"))
      (prewarmedFor (longQuestion "hostel")) openLink
  /\ snd (fetchAndSendContext sampleFetch None None (Some (longQuestion "fees"))
            (prewarmedFor (longQuestion "hostel")) openLink) = [].
Proof.
  apply (prewarm_cache_truncates_question sampleFetch None None
           (longQuestion "hostel") (longQuestion "fees")
           (prewarmedFor (longQuestion "hostel")) openLink).
  - vm_compute. reflexivity.
  - vm_compute. reflexivity.
  - vm_compute. reflexivity.
Defined.

Lemma cacheKey_session (s1 s2 category : option (list N)) (trimmed : list N) :
  cacheKey s1 category trimmed = cacheKey s2 category trimmed ->
  sessionKey s1 = sessionKey s2.
Proof.
  unfold cacheKey, sessionKey. intros H. apply app_inv_tail in H. exact H.
Qed.

(** X20. The cache is per session id: an entry prewarmed under one session
    id is not found by a [fetchAndSendContext] that carries another one (or
    none, when the first is set), which then asks the endpoint again. *)
Theorem prewarm_cache_is_per_session (fetch : NetRequest -> FetchOutcome)
    (warmId fetchId category : option (list N)) (q : list N) (l : Link)
    (pw : Prewarm) :
  isOpen l = true ->
  blank (Some q) = false ->
  sessionKey warmId <> sessionKey fetchId ->
  prewarmCacheRef pw !! cacheKey fetchId category (Js.trim q) = None ->
  snd (fetchAndSendContext fetch fetchId category (Some q)
         (fst (prewarmContext fetch warmId category (Some q) l pw)) l)
  = [ragRequest fetchId category (Js.trim q)].
Proof.
  intros Hopen Hq Hid Hnone.
  assert (Hstill :
    prewarmCacheRef (fst (prewarmContext fetch warmId category (Some q) l pw))
      !! cacheKey fetchId category (Js.trim q) = None).
  { unfold prewarmContext. rewrite Hq, Hopen. cbn [negb default].
    unfold Datatypes.id.
    destruct (prewarmCacheRef pw !! cacheKey warmId _ _); [exact Hnone|].
    cbn [fst prewarmCacheRef].
    destruct (fetch _) as [e|response|st]; try exact Hnone.
    destruct (ok response); [|exact Hnone].
    rewrite lookup_insert_ne; [exact Hnone|].
    intros Hk. apply Hid. eapply cacheKey_session. exact Hk. }
  unfold fetchAndSendContext. rewrite Hopen, Hq. cbn [negb default].
  unfold Datatypes.id. rewrite Hstill. cbn [usable].
  destruct (fetch _) as [e|response|st]; try reflexivity.
  destruct (negb (ok response)); [reflexivity|].
  destruct (has_context (json response)); [|reflexivity].
  destruct (send _ l); reflexivity.
Qed.

Lemma prewarm_cache_is_per_session_witness :
  snd (fetchAndSendContext sampleFetch None None (Some feesQuestion)
         (fst (prewarmContext sampleFetch (Some (Js.lit "session-1")) None
                 (Some feesQuestion) openLink emptyPrewarm)) openLink)
  = [ragRequest None None (Js.trim feesQuestion)].
Proof.
  apply (prewarm_cache_is_per_session sampleFetch (Some (Js.lit "session-1"))
           None None feesQuestion openLink emptyPrewarm).
  - reflexivity.
  - vm_compute. reflexivity.
  - vm_compute. discriminate.
  - reflexivity.
Defined.

(* ===================================================================== *)
(** * saveConversation: the exchanges *)
(* ===================================================================== *)

Lemma buildExchanges_pair (userMsg assistantMsg : Message) (rest : list Message) :
  buildExchanges (userMsg :: assistantMsg :: rest)
  = (if bool_decide (role userMsg = User)
        && bool_decide (role assistantMsg = Assistant)
     then [(msg_content userMsg, msg_content assistantMsg,
            createdAt assistantMsg)]
     else [])
    ++ buildExchanges rest.
Proof. reflexivity. Qed.

(** X21. For a log made of whole exchanges (a user turn followed by the
    assistant's reply, any number of times) [saveConversation] builds
    exactly these exchanges, in order, each stamped with the time of its
    reply. *)
Theorem buildExchanges_whole_exchanges (xs : list Exchange) :
  buildExchanges (exchangesLog xs)
  = (fun x => (question x, answer x, answeredAt x)) <$> xs.
Proof.
  unfold exchangesLog.
  induction xs as [|x xs IH]; [reflexivity|].
  cbn [fmap list_fmap concat exchangeMessages app].
  rewrite buildExchanges_pair, IH. reflexivity.
Qed.

(** X22. The pairing is by position: when the log starts with an assistant
    message (the reply to the greeting trigger) and goes on with whole
    exchanges, every pair is an assistant turn followed by a user turn and
    no exchange at all is built. *)
Theorem buildExchanges_after_greeting (greeting greetedAt : list N)
    (xs : list Exchange) :
  buildExchanges
    ({| role := Assistant; msg_content := greeting; createdAt := greetedAt |}
     :: exchangesLog xs)
  = [].
Proof.
  unfold exchangesLog.
  revert greeting greetedAt.
  induction xs as [|x xs IH]; intros greeting greetedAt; [reflexivity|].
  cbn [fmap list_fmap concat exchangeMessages app].
  rewrite buildExchanges_pair. cbn [role]. rewrite bool_decide_eq_false_2 by discriminate.
  cbn [andb app]. apply IH.
Qed.

(* ===================================================================== *)
(** * The handlers of one connection *)
(* ===================================================================== *)

Lemma transcript_stopInterimSTT vc :
  transcript (stopInterimSTT vc) = transcript vc.
Proof. unfold stopInterimSTT. destruct (negb _); reflexivity. Qed.

Lemma stopInterimSTT_idempotent vc :
  stopInterimSTT (stopInterimSTT vc) = stopInterimSTT vc.
Proof.
  unfold stopInterimSTT. destruct (negb (speechRecognitionRef vc)) eqn:H.
  - rewrite H. reflexivity.
  - cbn. rewrite H. reflexivity.
Qed.

Lemma onResponseTranscript_user event st :
  currentUserMessageRef (onResponseTranscript event st)
  = currentUserMessageRef st.
Proof.
  unfold onResponseTranscript.
  destruct (Js.truthy _); [|reflexivity].
  destruct (bool_decide _ && (_ <? _)); reflexivity.
Qed.

Lemma onTranscriptionCompletedRefs_accepts event now st :
  let text :=
    first_truthy [ev_transcript event; ev_item_input_audio_transcript event] in
  Js.truthy text && Js.truthy (Js.trim text) = true ->
  currentUserMessageRef (onTranscriptionCompletedRefs event now st) = text.
Proof.
  intros text Htext. unfold onTranscriptionCompletedRefs. fold text.
  rewrite Htext. case_bool_decide as Hnew; [reflexivity|].
  destruct (decide (currentUserMessageRef st = text)) as [E|E];
    [exact E|contradiction].
Qed.

(** Only a completed transcription writes the ref of the user's message. *)
Lemma handleDataChannelEvent_user type event now st :
  type <> ConversationItemInputAudioTranscriptionCompleted ->
  currentUserMessageRef (handleDataChannelEvent type event (refHandlers now) st)
  = currentUserMessageRef st.
Proof.
  intros Htype. destruct type; try contradiction; dispatch;
    repeat case_match; try reflexivity;
    try apply onResponseTranscript_user;
    unfold onResponseDone; destruct (Js.truthy _ && _); reflexivity.
Qed.

Lemma blank_accepted (s : list N) :
  Js.truthy s && Js.truthy (Js.trim s) = true -> blank (Some s) = false.
Proof.
  intros H. apply andb_true_iff in H as [H1 H2]. unfold blank.
  rewrite H1, H2. reflexivity.
Qed.

(** One inbound message keeps the log and adds at most one message, whose
    text is not blank. *)
Lemma handleDataChannelEvent_log type event now st :
  exists added,
    conversationMessagesRef
      (handleDataChannelEvent type event (refHandlers now) st)
    = conversationMessagesRef st ++ added
    /\ length added <= 1
    /\ Forall (fun m => blank (Some (msg_content m)) = false) added.
Proof.
  assert (Hsame : forall st' : Transcript,
            conversationMessagesRef st' = conversationMessagesRef st ->
            exists added,
              conversationMessagesRef st' = conversationMessagesRef st ++ added
              /\ length added <= 1
              /\ Forall (fun m => blank (Some (msg_content m)) = false) added).
  { intros st' H. exists []. rewrite app_nil_r. cbn. auto. }
  assert (Hdone : exists added,
            conversationMessagesRef (onResponseDone now st)
            = conversationMessagesRef st ++ added
            /\ length added <= 1
            /\ Forall (fun m => blank (Some (msg_content m)) = false) added).
  { unfold onResponseDone.
    destruct (Js.truthy _ && Js.truthy _) eqn:Htext;
      [|apply Hsame; reflexivity].
    eexists. cbn. split; [reflexivity|]. split; [cbn; lia|].
    repeat constructor. apply blank_accepted. exact Htext. }
  assert (Hheard : exists added,
            conversationMessagesRef (onTranscriptionCompletedRefs event now st)
            = conversationMessagesRef st ++ added
            /\ length added <= 1
            /\ Forall (fun m => blank (Some (msg_content m)) = false) added).
  { unfold onTranscriptionCompletedRefs.
    destruct (Js.truthy _ && Js.truthy _) eqn:Htext;
      [|apply Hsame; reflexivity].
    case_bool_decide; [|apply Hsame; reflexivity].
    eexists. cbn. split; [reflexivity|]. split; [cbn; lia|].
    repeat constructor. apply blank_accepted. exact Htext. }
  destruct type; dispatch; try exact Hdone; try exact Hheard;
    repeat case_match; apply Hsame; try reflexivity;
    apply onResponseTranscript_step.
Qed.

Lemma transcript_startInterimSTT cl vc :
  transcript (startInterimSTT cl vc) = transcript vc.
Proof. unfold startInterimSTT. destruct (_ && _); reflexivity. Qed.

Lemma transcript_onSpeechStarted cl vc :
  transcript (onSpeechStarted cl vc) = transcript vc.
Proof.
  unfold onSpeechStarted. cbv zeta. rewrite !transcript_startInterimSTT.
  cbn [setIsRecording transcript].
  destruct (Js.truthy _); cbn [afterPrewarm transcript];
    rewrite transcript_startInterimSTT; reflexivity.
Qed.

Lemma transcript_onSpeechStopped vc :
  transcript (onSpeechStopped vc) = transcript vc.
Proof. unfold onSpeechStopped. rewrite transcript_stopInterimSTT. reflexivity. Qed.

Lemma transcript_onTranscriptionCompleted cl event now vc :
  transcript (onTranscriptionCompleted cl event now vc)
  = onTranscriptionCompletedRefs event now (transcript vc).
Proof.
  unfold onTranscriptionCompleted, onTranscriptionCompletedRefs.
  cbv zeta. rewrite !transcript_stopInterimSTT.
  destruct (Js.truthy _ && Js.truthy _);
    [|apply transcript_stopInterimSTT].
  case_bool_decide; [reflexivity|apply transcript_stopInterimSTT].
Qed.

Lemma transcript_onResponseDoneSaved cl now vc :
  transcript (onResponseDoneSaved cl now vc)
  = onResponseDone now (transcript vc).
Proof.
  unfold onResponseDoneSaved, onResponseDone.
  destruct (Js.truthy _ && Js.truthy _); reflexivity.
Qed.

(** On the three refs, the handlers of [connect()] do what [refHandlers]
    say. *)
Lemma sessionStep_transcript cl vc ev :
  transcript (sessionStep cl vc ev)
  = handleDataChannelEvent (in_type ev) (in_event ev)
      (refHandlers (in_now ev)) (transcript vc).
Proof.
  destruct ev as [type event now].
  destruct type; dispatch; repeat case_match;
    first [ reflexivity
          | apply transcript_onSpeechStarted
          | apply transcript_onSpeechStopped
          | apply transcript_onTranscriptionCompleted
          | apply transcript_onResponseDoneSaved ].
Qed.

Lemma sessionRun_user cl others : forall vc,
  Forall (fun ev => in_type ev
                    <> ConversationItemInputAudioTranscriptionCompleted) others ->
  currentUserMessageRef (transcript (sessionRun cl vc others))
  = currentUserMessageRef (transcript vc).
Proof.
  induction others as [|ev others IH]; intros vc Hothers; [reflexivity|].
  apply Forall_cons in Hothers as [Hev Hothers].
  cbn [sessionRun fold_left].
  etransitivity; [apply IH; exact Hothers|].
  rewrite sessionStep_transcript.
  apply handleDataChannelEvent_user. exact Hev.
Qed.

(** X23. A transcription that repeats the last accepted one is dropped:
    when the same transcription arrives again, directly or after any
    number of inbound messages that are not completed transcriptions,
    nothing is recorded, saved or fetched for it; only the interim
    transcript is cleared. *)
Theorem onTranscriptionCompleted_repeated (cl : Closure)
    (event : ResponseEvent) (now later : list N) (others : list Inbound)
    (vc : VoiceChat) :
  Forall (fun ev => in_type ev
                    <> ConversationItemInputAudioTranscriptionCompleted) others ->
  let completed at_ :=
    {| in_type := ConversationItemInputAudioTranscriptionCompleted;
       in_event := event; in_now := at_ |} in
  let heard := sessionRun cl vc (completed now :: others) in
  sessionStep cl heard (completed later) = stopInterimSTT heard.
Proof.
  intros Hothers completed heard.
  assert (Huser : currentUserMessageRef (transcript heard)
                  = currentUserMessageRef
                      (onTranscriptionCompletedRefs event now (transcript vc))).
  { unfold heard.
    change (sessionRun cl vc (completed now :: others))
      with (sessionRun cl (sessionStep cl vc (completed now)) others).
    rewrite (sessionRun_user cl others _ Hothers).
    rewrite sessionStep_transcript. reflexivity. }
  clearbody heard. unfold completed. dispatch.
  unfold onTranscriptionCompleted. cbv zeta.
  set (text := first_truthy
                 [ev_transcript event; ev_item_input_audio_transcript event]).
  destruct (Js.truthy text && Js.truthy (Js.trim text)) eqn:Htext;
    [|reflexivity].
  rewrite transcript_stopInterimSTT, Huser.
  rewrite (onTranscriptionCompletedRefs_accepts event now (transcript vc) Htext).
  fold text. rewrite bool_decide_eq_false_2 by (intros H; apply H; reflexivity).
  reflexivity.
Qed.

Lemma onTranscriptionCompleted_repeated_witness :
  sessionStep firstConnect
    (sessionRun firstConnect sampleChat
       [{| in_type := ConversationItemInputAudioTranscriptionCompleted;
           in_event := fullEvent (Js.lit "What are the fees?");
           in_now := Js.lit "2025-01-01T00:00:00.000Z" |};
        {| in_type := InputAudioBufferSpeechStarted;
           in_event := fullEvent []; in_now := [] |};
        {| in_type := ResponseContentPartAdded;
           in_event := partialEvent (Js.lit "Hello"); in_now := [] |}])
    {| in_type := ConversationItemInputAudioTranscriptionCompleted;
       in_event := fullEvent (Js.lit "What are the fees?");
       in_now := Js.lit "2025-01-01T00:00:09.000Z" |}
  = stopInterimSTT
      (sessionRun firstConnect sampleChat
         [{| in_type := ConversationItemInputAudioTranscriptionCompleted;
             in_event := fullEvent (Js.lit "What are the fees?");
             in_now := Js.lit "2025-01-01T00:00:00.000Z" |};
          {| in_type := InputAudioBufferSpeechStarted;
             in_event := fullEvent []; in_now := [] |};
          {| in_type := ResponseContentPartAdded;
             in_event := partialEvent (Js.lit "Hello"); in_now := [] |}]).
Proof.
  apply (onTranscriptionCompleted_repeated firstConnect
           (fullEvent (Js.lit "What are the fees?"))
           (Js.lit "2025-01-01T00:00:00.000Z")
           (Js.lit "2025-01-01T00:00:09.000Z")
           [{| in_type := InputAudioBufferSpeechStarted;
               in_event := fullEvent []; in_now := [] |};
            {| in_type := ResponseContentPartAdded;
               in_event := partialEvent (Js.lit "Hello"); in_now := [] |}]
           sampleChat).
  repeat constructor; discriminate.
Defined.

(** X24. The conversation log only grows over the inbound messages of a
    connection: every message, whatever its label, keeps the messages
    recorded so far, adds at most one message, and never adds a message
    whose text is empty or blank. *)
Theorem session_log_append_only (cl : Closure) (evs : list Inbound)
    (vc : VoiceChat) :
  exists added,
    conversationMessagesRef (transcript (sessionRun cl vc evs))
    = conversationMessagesRef (transcript vc) ++ added
    /\ length added <= length evs
    /\ Forall (fun m => blank (Some (msg_content m)) = false) added.
Proof.
  revert vc. induction evs as [|ev evs IH]; intros vc.
  - exists []. rewrite app_nil_r. cbn. auto.
  - cbn [sessionRun fold_left].
    destruct (IH (sessionStep cl vc ev)) as (more & Hmore & Hlen & Hok).
    destruct (handleDataChannelEvent_log (in_type ev) (in_event ev) (in_now ev)
                (transcript vc)) as (added & Hadded & Hone & Hok1).
    rewrite <- (sessionStep_transcript cl vc ev) in Hadded.
    exists (added ++ more). unfold sessionRun in Hmore.
    rewrite Hmore, Hadded, app_assoc. split; [reflexivity|].
    rewrite length_app. cbn [length]. split; [lia|].
    apply Forall_app. auto.
Qed.

Lemma fetchAndSendContext_requests fetch sessionId category question pw l :
  snd (fetchAndSendContext fetch sessionId category (Some question) pw l) = []
  \/ snd (fetchAndSendContext fetch sessionId category (Some question) pw l)
     = [ragRequest sessionId category (Js.trim question)].
Proof.
  unfold fetchAndSendContext.
  destruct (negb (isOpen l)); [auto|].
  destruct (blank _); [auto|].
  destruct (usable _).
  - destruct (send _ l); auto.
  - cbn [default]. unfold Datatypes.id.
    destruct (fetch _) as [e|response|st]; auto.
    destruct (negb (ok response)); [auto|].
    destruct (has_context _); [|auto].
    destruct (send _ l); auto.
Qed.

Lemma prewarmContext_requests fetch sessionId category question l pw :
  snd (prewarmContext fetch sessionId category (Some question) l pw) = []
  \/ snd (prewarmContext fetch sessionId category (Some question) l pw)
     = [ragRequest sessionId category (Js.trim question)].
Proof.
  unfold prewarmContext.
  destruct (blank _); [auto|].
  destruct (negb (isOpen l)); [auto|].
  cbn [default]. unfold Datatypes.id.
  destruct (prewarmCacheRef pw !! _); auto.
Qed.

Lemma saveIncrementally_fromClosure cl messages :
  Forall (fromClosure cl) (saveIncrementally (cl_sessionId cl) messages).
Proof.
  unfold saveIncrementally, saveConversation.
  destruct (Js.truthy_opt (cl_sessionId cl)); [|constructor].
  destruct (cl_sessionId cl) as [sid|] eqn:Hsid; [|constructor].
  destruct (negb (Js.truthy sid)); [constructor|].
  destruct messages; [constructor|].
  repeat constructor. cbn. exact Hsid.
Qed.

Lemma requests_startInterimSTT cl vc :
  requests (startInterimSTT cl vc) = requests vc.
Proof. unfold startInterimSTT. destruct (_ && _); reflexivity. Qed.

Lemma requests_stopInterimSTT vc :
  requests (stopInterimSTT vc) = requests vc.
Proof. unfold stopInterimSTT. destruct (negb _); reflexivity. Qed.

Lemma sessionStep_requests cl vc ev :
  exists new,
    requests (sessionStep cl vc ev) = requests vc ++ new
    /\ Forall (fromClosure cl) new.
Proof.
  assert (Hsame : forall vc' : VoiceChat,
            requests vc' = requests vc ->
            exists new, requests vc' = requests vc ++ new
                        /\ Forall (fromClosure cl) new).
  { intros vc' H. exists []. rewrite app_nil_r. auto. }
  assert (Hdone : forall now,
            exists new,
              requests (onResponseDoneSaved cl now vc) = requests vc ++ new
              /\ Forall (fromClosure cl) new).
  { intros now. unfold onResponseDoneSaved.
    destruct (Js.truthy _ && Js.truthy _); [|apply Hsame; reflexivity].
    eexists. cbn [updated requests]. split; [reflexivity|].
    apply saveIncrementally_fromClosure. }
  assert (Hheard : forall event now,
            exists new,
              requests (onTranscriptionCompleted cl event now vc)
              = requests vc ++ new
              /\ Forall (fromClosure cl) new).
  { intros event now. unfold onTranscriptionCompleted. cbv zeta.
    destruct (Js.truthy _ && Js.truthy _);
      [|apply Hsame; apply requests_stopInterimSTT].
    case_bool_decide; [|apply Hsame; apply requests_stopInterimSTT].
    eexists. cbn [updated requests]. rewrite requests_stopInterimSTT.
    split; [reflexivity|].
    apply Forall_app. split; [apply saveIncrementally_fromClosure|].
    match goal with |- context [fetchAndSendContext ?f ?s ?c (Some ?q) ?pw ?l] =>
      destruct (fetchAndSendContext_requests f s c q pw l) as [-> | ->] end;
      [constructor|].
    apply Forall_cons. split; [|constructor].
    split; [reflexivity|]. left. reflexivity. }
  assert (Hspeech : exists new,
            requests (onSpeechStarted cl vc) = requests vc ++ new
            /\ Forall (fromClosure cl) new).
  { unfold onSpeechStarted. cbv zeta.
    destruct (Js.truthy _);
      [|apply Hsame; rewrite requests_startInterimSTT; reflexivity].
    eexists. cbn [afterPrewarm requests]. rewrite requests_startInterimSTT.
    cbn [setIsRecording requests]. split; [reflexivity|].
    match goal with |- context [prewarmContext ?f ?s ?c (Some ?q) ?l ?pw] =>
      destruct (prewarmContext_requests f s c q l pw) as [-> | ->] end;
      [constructor|].
    apply Forall_cons. split; [|constructor].
    split; [reflexivity|]. right. reflexivity. }
  destruct ev as [type event now].
  destruct type; dispatch; try apply Hdone; try apply Hheard;
    try exact Hspeech; repeat case_match; apply Hsame;
    first [ reflexivity
          | unfold onSpeechStopped; rewrite requests_stopInterimSTT;
            reflexivity ].
Qed.

(** X25. The requests that the inbound messages of a connection cause use
    the values the handlers closed over, not the current state: every save
    carries the session id of the render that built [connect()], so none is
    issued when that id was not set yet, and every retrieval carries the
    category of that render and the session id closed over by the function
    that issues it: [fetchAndSendContext] after a completed transcription,
    [prewarmContext] when speech starts. *)
Theorem session_requests_from_closure (cl : Closure) (evs : list Inbound)
    (vc : VoiceChat) :
  exists new,
    requests (sessionRun cl vc evs) = requests vc ++ new
    /\ Forall (fromClosure cl) new
    /\ (cl_sessionId cl = None -> List.filter isSave new = []).
Proof.
  assert (Hnone : forall new, Forall (fromClosure cl) new ->
                    cl_sessionId cl = None -> List.filter isSave new = []).
  { intros new Hnew Hsid. induction Hnew as [|r new Hr _ IH]; [reflexivity|].
    destruct r; cbn in *; [exact IH|congruence]. }
  assert (Hrun : exists new,
             requests (sessionRun cl vc evs) = requests vc ++ new
             /\ Forall (fromClosure cl) new).
  { revert vc. induction evs as [|ev evs IH]; intros vc.
    - exists []. rewrite app_nil_r. cbn. auto.
    - cbn [sessionRun fold_left].
      destruct (IH (sessionStep cl vc ev)) as (more & Hmore & Hok).
      destruct (sessionStep_requests cl vc ev) as (new & Hnew & Hok1).
      exists (new ++ more). unfold sessionRun in Hmore.
      rewrite Hmore, Hnew, app_assoc. split; [reflexivity|].
      apply Forall_app. auto. }
  destruct Hrun as (new & Hnew & Hok). exists new. auto.
Qed.

(* ===================================================================== *)
(** * More on the retry controller *)
(* ===================================================================== *)

Lemma retryRun_app autoConnect st evs1 evs2 :
  retryRun autoConnect st (evs1 ++ evs2)
  = retryRun autoConnect (retryRun autoConnect st evs1) evs2.
Proof. unfold retryRun. apply fold_left_app. Qed.

Lemma replicate_snoc {A} (n : nat) (x : A) :
  replicate (S n) x = replicate n x ++ [x].
Proof. induction n as [|n IH]; [reflexivity|]. cbn in *. rewrite <- IH. reflexivity. Qed.

Lemma succ_mod_6 (n : nat) :
  S n mod 6 = (if n mod 6 <? 5 then S (n mod 6) else 0)
  /\ S n / 6 = (if n mod 6 <? 5 then n / 6 else S (n / 6)).
Proof.
  pose proof (Nat.div_mod_eq n 6) as Hn.
  pose proof (Nat.mod_upper_bound n 6 ltac:(lia)) as Hlt.
  destruct (Nat.ltb_spec (n mod 6) 5).
  - assert (Hq : S n / 6 = n / 6).
    { symmetry. apply (Nat.div_unique (S n) 6 (n / 6) (S (n mod 6))); lia. }
    split; [|exact Hq].
    symmetry. apply (Nat.mod_unique (S n) 6 (n / 6) (S (n mod 6))); lia.
  - assert (Hq : S n / 6 = S (n / 6)).
    { symmetry. apply (Nat.div_unique (S n) 6 (S (n / 6)) 0); lia. }
    split; [|exact Hq].
    symmetry. apply (Nat.mod_unique (S n) 6 (S (n / 6)) 0); lia.
Qed.

(** X26. The retry counter of [connect()] wraps around: its [catch] block
    schedules a retry for five failures in a row and on the sixth puts the
    counter back to 0 without scheduling one, so after [n] consecutive
    failed attempts the counter stands at [n mod 6] and [n - n / 6] retries
    were scheduled; a seventh failure starts the backoff again. *)
Theorem connectFailed_counter_wraps (autoConnect : bool) (err : JsError)
    (n : nat) :
  let st :=
    retryRun autoConnect newRetryCtl (replicate n (EvConnectFailed err)) in
  retryCountRef st = n mod 6
  /\ length (scheduled st) = n - n / 6.
Proof.
  induction n as [|n IH]; [split; reflexivity|].
  cbv zeta in *. rewrite replicate_snoc, retryRun_app.
  destruct IH as [Hcount Hlen].
  set (st := retryRun autoConnect newRetryCtl (replicate n (EvConnectFailed err)))
    in *.
  destruct (succ_mod_6 n) as [Hmod Hdiv]. rewrite Hmod, Hdiv.
  pose proof (Nat.div_mod_eq n 6) as Hn.
  change (retryRun autoConnect st [EvConnectFailed err])
    with (connectFailed err st).
  unfold connectFailed. rewrite Hcount. unfold maxRetries.
  destruct (n mod 6 <? 5) eqn:Hlt.
  - cbn [retryCountRef scheduled]. rewrite length_app, Hlen. cbn [length].
    split; lia.
  - cbn [retryCountRef scheduled]. rewrite Hlen. split; lia.
Qed.

Lemma scheduleRetry_count (st : RetryCtl) :
  retryCountRef st <= maxRetries ->
  retryCountRef (scheduleRetry true st) = Nat.min (S (retryCountRef st)) 5
  /\ length (scheduled (scheduleRetry true st))
     = length (scheduled st) + (if retryCountRef st <? 5 then 1 else 0)
  /\ (retryCountRef st = 5 ->
      error_state (scheduleRetry true st)
      = Some (Js.lit "Connection lost. Please try refreshing the page.")).
Proof.
  unfold scheduleRetry, maxRetries. intros Hle. cbn [negb].
  destruct (Nat.leb_spec 5 (retryCountRef st)) as [Hge|Hlt].
  - cbn [retryCountRef scheduled error_state].
    destruct (Nat.ltb_spec (retryCountRef st) 5); [lia|].
    repeat split; lia.
  - cbn [retryCountRef scheduled error_state]. rewrite length_app.
    destruct (Nat.ltb_spec (retryCountRef st) 5); [|lia].
    cbn [length]. repeat split; lia.
Qed.

(** X27. The connection monitor does give up: when the connection is
    reported lost or failed [n] times in a row, it schedules a retry for the
    first five reports only and then shows the "Connection lost" error. *)
Theorem lost_connection_gives_up (pc : PeerConnection) (n : nat) :
  isFailure (EvStateChange pc) = true ->
  let st := retryRun true newRetryCtl (replicate n (EvStateChange pc)) in
  retryCountRef st = Nat.min n 5
  /\ length (scheduled st) = Nat.min n 5
  /\ (5 < n ->
      error_state st
      = Some (Js.lit "Connection lost. Please try refreshing the page.")).
Proof.
  intros Hfail.
  assert (Hstep : forall st,
            retryStep true st (EvStateChange pc) = scheduleRetry true st).
  { intros st. cbn [retryStep]. unfold handleConnectionStateChange.
    cbn [isFailure] in Hfail.
    destruct (bool_decide (connectionState pc = PcDisconnected)
              || bool_decide (iceConnectionState pc = PcDisconnected));
      [reflexivity|].
    cbn [orb] in Hfail. rewrite Hfail. reflexivity. }
  induction n as [|n IH]; [cbn; repeat split; lia|].
  cbv zeta in *. rewrite replicate_snoc, retryRun_app.
  destruct IH as (Hcount & Hlen & Herr).
  set (st := retryRun true newRetryCtl (replicate n (EvStateChange pc))) in *.
  change (retryRun true st [EvStateChange pc])
    with (retryStep true st (EvStateChange pc)).
  rewrite Hstep.
  destruct (scheduleRetry_count st) as (Hc & Hl & He);
    [rewrite Hcount; unfold maxRetries; lia|].
  rewrite Hc, Hl, Hcount, Hlen.
  split; [lia|]. split.
  - destruct (Nat.ltb_spec (Nat.min n 5) 5); lia.
  - intros Hn. apply He. lia.
Qed.

Lemma lost_connection_gives_up_witness :
  let st :=
    retryRun true newRetryCtl
      (replicate 7 (EvStateChange {| connectionState := PcDisconnected;
                                     iceConnectionState := PcDisconnected |})) in
  retryCountRef st = Nat.min 7 5
  /\ length (scheduled st) = Nat.min 7 5
  /\ (5 < 7 ->
      error_state st
      = Some (Js.lit "Connection lost. Please try refreshing the page.")).
Proof.
  apply (lost_connection_gives_up
           {| connectionState := PcDisconnected;
              iceConnectionState := PcDisconnected |} 7).
  reflexivity.
Defined.

(* ===================================================================== *)
(** * More on disconnect and the greeting *)
(* ===================================================================== *)

(** X28. [disconnect] is idempotent: a second call right after the first,
    with or without the [onConversationEnd] callback, changes nothing; in
    particular it saves nothing, reports no conversation and runs no
    cleanup again. *)
Theorem disconnect_idempotent (first second : bool) (vc : VoiceChat) :
  disconnect second (disconnect first vc) = disconnect first vc.
Proof.
  unfold disconnect. cbn. rewrite app_nil_r. reflexivity.
Qed.

Lemma lookup_snoc {A} (ts : list A) (t : A) :
  (ts ++ [t]) !! length ts = Some t.
Proof. apply list_lookup_middle. reflexivity. Qed.

Lemma delete_snoc {A} (ts : list A) (t : A) :
  delete (length ts) (ts ++ [t]) = ts.
Proof.
  induction ts as [|a ts IH]; [reflexivity|]. cbn. f_equal. exact IH.
Qed.

(** X29. The greeting does go out after a successful [connect()] with
    audio enabled, when it was not sent before: if the channel is open, or
    opens before the retry timer fires, and stays open until the trigger
    timer fires, the channel receives the greeting instructions followed by
    the greeting trigger, the flag is raised and no timer is left behind. *)
Theorem greeting_sent_after_connect (l : Link) :
  hasGreetedRef l = false ->
  let l' := linkRun l (greetingScript l) in
  sent l' = sent l ++ [SessionUpdate GreetingInstructions; greetingTrigger]
  /\ hasGreetedRef l' = true
  /\ timers l' = timers l.
Proof.
  intros Hflag.
  assert (Hgreet : forall l0 : Link,
            hasGreetedRef l0 = false -> isOpen l0 = true ->
            sendGreeting true l0
            = {| dataChannelRef := dataChannelRef l0;
                 hasGreetedRef := true;
                 sent := sent l0 ++ [SessionUpdate GreetingInstructions];
                 timers := timers l0 ++ [(300, TGreetingTrigger)] |}).
  { intros l0 Hf Hopen. unfold sendGreeting. rewrite Hf, Hopen. cbn [negb andb].
    unfold sendSessionUpdate.
    assert (Hopen1 : isOpen (set_hasGreeted true l0) = true) by exact Hopen.
    rewrite Hopen1, (send_open _ _ Hopen1). reflexivity. }
  assert (Htrigger : forall (s : list ChannelMsg) (ts : list (nat * TimerAction)),
            linkStep
              {| dataChannelRef := Some RsOpen; hasGreetedRef := true;
                 sent := s; timers := ts ++ [(300, TGreetingTrigger)] |}
              (EvTimer (length ts))
            = {| dataChannelRef := Some RsOpen; hasGreetedRef := true;
                 sent := s ++ [greetingTrigger]; timers := ts |}).
  { intros s ts. cbn [linkStep timers]. rewrite lookup_snoc.
    cbn [runTimer dataChannelRef hasGreetedRef sent]. rewrite delete_snoc.
    reflexivity. }
  unfold greetingScript, linkRun. destruct (isOpen l) eqn:Hopen.
  - cbn [fold_left].
    change (linkStep l (EvConnected true)) with (connectedTail true l).
    unfold connectedTail.
    rewrite Hopen, (Hgreet l Hflag Hopen).
    assert (Hdc : dataChannelRef l = Some RsOpen).
    { unfold isOpen in Hopen.
      destruct (dataChannelRef l) as [[]|]; try discriminate. reflexivity. }
    rewrite Hdc, Htrigger. cbn. rewrite <- app_assoc. auto.
  - cbn [fold_left].
    change (linkStep l (EvConnected true)) with (connectedTail true l).
    unfold connectedTail. rewrite Hopen.
    change (linkStep (setTimeout (TSendGreeting true) 500 l)
              (EvChannel (Some RsOpen)))
      with {| dataChannelRef := Some RsOpen; hasGreetedRef := hasGreetedRef l;
              sent := sent l;
              timers := timers l ++ [(500, TSendGreeting true)] |}.
    set (opened := {| dataChannelRef := Some RsOpen;
                      hasGreetedRef := hasGreetedRef l;
                      sent := sent l; timers := timers l |}).
    assert (Hretry :
      linkStep {| dataChannelRef := Some RsOpen;
                  hasGreetedRef := hasGreetedRef l;
                  sent := sent l;
                  timers := timers l ++ [(500, TSendGreeting true)] |}
        (EvTimer (length (timers l)))
      = sendGreeting true opened).
    { cbn [linkStep timers]. rewrite lookup_snoc.
      cbn [runTimer dataChannelRef hasGreetedRef sent]. rewrite delete_snoc.
      reflexivity. }
    rewrite Hretry, (Hgreet opened Hflag eq_refl).
    subst opened. cbn [dataChannelRef sent timers].
    rewrite Htrigger. cbn. rewrite <- app_assoc. auto.
Qed.

Lemma greeting_sent_after_connect_witness :
  let l' := linkRun newLink (greetingScript newLink) in
  sent l' = sent newLink ++ [SessionUpdate GreetingInstructions; greetingTrigger]
  /\ hasGreetedRef l' = true
  /\ timers l' = timers newLink.
Proof.
  apply (greeting_sent_after_connect newLink). reflexivity.
Defined.

Lemma greetingSpent_sendGreeting enableAudio l :
  greetingSpent l ->
  greetingSpent (sendGreeting enableAudio l)
  /\ sent (sendGreeting enableAudio l) = sent l.
Proof.
  intros [Hflag Hpending]. unfold sendGreeting. rewrite Hflag. cbn [negb andb].
  destruct (dataChannelRef l) as [[]|]; (split; [|reflexivity]);
    try (split; assumption);
    (split; [exact Hflag|]);
    unfold triggersPending in *; cbn;
    rewrite List.filter_app, length_app, Hpending; reflexivity.
Qed.

Lemma greetingSpent_step l ev :
  greetingSpent l ->
  greetingSpent (linkStep l ev) /\ sent (linkStep l ev) = sent l.
Proof.
  intros Hspent. destruct ev as [enableAudio|dc|i]; cbn [linkStep].
  - unfold connectedTail. destruct (isOpen l).
    + apply greetingSpent_sendGreeting, Hspent.
    + destruct Hspent as [Hflag Hpending]. split; [|reflexivity].
      split; [exact Hflag|]. unfold triggersPending in *. cbn.
      rewrite List.filter_app, length_app, Hpending. reflexivity.
  - split; [exact Hspent|reflexivity].
  - destruct (timers l !! i) as [[d action]|] eqn:Hi;
      [|split; [exact Hspent|reflexivity]].
    destruct Hspent as [Hflag Hpending].
    pose proof (filter_delete_length is_triggerTimer (timers l) i (d, action) Hi)
      as Hdel.
    unfold triggersPending in Hpending. rewrite Hpending in Hdel.
    destruct action as [enableAudio|]; cbn in Hdel; [|lia].
    cbn [runTimer].
    match goal with |- context [sendGreeting enableAudio ?l0] =>
      destruct (greetingSpent_sendGreeting enableAudio l0) as [Hs Hsent] end.
    { split; [exact Hflag|]. unfold triggersPending. cbn. lia. }
    split; [exact Hs|]. rewrite Hsent. reflexivity.
Qed.

(** X30. A greeting that was lost is lost for good: once the flag is up
    and no trigger is pending (the trigger timer found the channel closed,
    or the greeting was sent), no later [connect()], channel change or timer
    makes the greeting logic send anything again; in particular a
    reconnection never greets. *)
Theorem greeting_never_retried (l : Link) (evs : list LinkEvent) :
  hasGreetedRef l = true ->
  triggersPending l = 0 ->
  sent (linkRun l evs) = sent l
  /\ greetingsSent (linkRun l evs) = greetingsSent l.
Proof.
  intros Hflag Hpending.
  assert (Hspent : greetingSpent l) by (split; assumption).
  clear Hflag Hpending.
  assert (Hsent : sent (linkRun l evs) = sent l).
  { revert l Hspent. induction evs as [|ev evs IH]; intros l Hspent;
      [reflexivity|].
    cbn [linkRun fold_left].
    destruct (greetingSpent_step l ev Hspent) as [Hs Hsame].
    rewrite <- Hsame. apply IH. exact Hs. }
  split; [exact Hsent|]. unfold greetingsSent. rewrite Hsent. reflexivity.
Qed.

Lemma greeting_never_retried_witness :
  let lost :=
    linkRun openLink [EvConnected true; EvChannel (Some RsClosed); EvTimer 0] in
  sent (linkRun lost [EvChannel (Some RsOpen); EvConnected true; EvTimer 0])
  = sent lost
  /\ greetingsSent
       (linkRun lost [EvChannel (Some RsOpen); EvConnected true; EvTimer 0])
     = greetingsSent lost.
Proof.
  apply (greeting_never_retried
           (linkRun openLink
              [EvConnected true; EvChannel (Some RsClosed); EvTimer 0])
           [EvChannel (Some RsOpen); EvConnected true; EvTimer 0]).
  - reflexivity.
  - reflexivity.
Defined.

(** What the greeting script does to a channel whose flag is down. *)
Lemma greetingScript_sends (l : Link) :
  hasGreetedRef l = false ->
  linkRun l (greetingScript l)
  = {| dataChannelRef := Some RsOpen;
       hasGreetedRef := true;
       sent := sent l ++ [SessionUpdate GreetingInstructions; greetingTrigger];
       timers := timers l |}.
Proof.
  intros Hflag.
  assert (Hgreet : forall l0 : Link,
            hasGreetedRef l0 = false -> isOpen l0 = true ->
            sendGreeting true l0
            = {| dataChannelRef := dataChannelRef l0;
                 hasGreetedRef := true;
                 sent := sent l0 ++ [SessionUpdate GreetingInstructions];
                 timers := timers l0 ++ [(300, TGreetingTrigger)] |}).
  { intros l0 Hf Hopen. unfold sendGreeting. rewrite Hf, Hopen. cbn [negb andb].
    unfold sendSessionUpdate.
    assert (Hopen1 : isOpen (set_hasGreeted true l0) = true) by exact Hopen.
    rewrite Hopen1, (send_open _ _ Hopen1). reflexivity. }
  assert (Htrigger : forall (s : list ChannelMsg) (ts : list (nat * TimerAction)),
            linkStep
              {| dataChannelRef := Some RsOpen; hasGreetedRef := true;
                 sent := s; timers := ts ++ [(300, TGreetingTrigger)] |}
              (EvTimer (length ts))
            = {| dataChannelRef := Some RsOpen; hasGreetedRef := true;
                 sent := s ++ [greetingTrigger]; timers := ts |}).
  { intros s ts. cbn [linkStep timers]. rewrite lookup_snoc.
    cbn [runTimer dataChannelRef hasGreetedRef sent]. rewrite delete_snoc.
    reflexivity. }
  unfold greetingScript, linkRun. destruct (isOpen l) eqn:Hopen.
  - cbn [fold_left].
    change (linkStep l (EvConnected true)) with (connectedTail true l).
    unfold connectedTail.
    rewrite Hopen, (Hgreet l Hflag Hopen).
    assert (Hdc : dataChannelRef l = Some RsOpen).
    { unfold isOpen in Hopen.
      destruct (dataChannelRef l) as [[]|]; try discriminate. reflexivity. }
    rewrite Hdc, Htrigger. rewrite <- app_assoc. reflexivity.
  - cbn [fold_left].
    change (linkStep l (EvConnected true)) with (connectedTail true l).
    unfold connectedTail. rewrite Hopen.
    change (linkStep (setTimeout (TSendGreeting true) 500 l)
              (EvChannel (Some RsOpen)))
      with {| dataChannelRef := Some RsOpen; hasGreetedRef := hasGreetedRef l;
              sent := sent l;
              timers := timers l ++ [(500, TSendGreeting true)] |}.
    set (opened := {| dataChannelRef := Some RsOpen;
                      hasGreetedRef := hasGreetedRef l;
                      sent := sent l; timers := timers l |}).
    assert (Hretry :
      linkStep {| dataChannelRef := Some RsOpen;
                  hasGreetedRef := hasGreetedRef l;
                  sent := sent l;
                  timers := timers l ++ [(500, TSendGreeting true)] |}
        (EvTimer (length (timers l)))
      = sendGreeting true opened).
    { cbn [linkStep timers]. rewrite lookup_snoc.
      cbn [runTimer dataChannelRef hasGreetedRef sent]. rewrite delete_snoc.
      reflexivity. }
    rewrite Hretry, (Hgreet opened Hflag eq_refl).
    subst opened. cbn [dataChannelRef sent timers].
    rewrite Htrigger. rewrite <- app_assoc. reflexivity.
Qed.

Lemma greetingSpent_run (evs : list LinkEvent) : forall l,
  greetingSpent l -> sent (linkRun l evs) = sent l.
Proof.
  induction evs as [|ev evs IH]; intros l Hspent; [reflexivity|].
  cbn [linkRun fold_left].
  destruct (greetingSpent_step l ev Hspent) as [Hs Hsame].
  rewrite <- Hsame. apply IH. exact Hs.
Qed.

Lemma linkRun_app (l : Link) (evs1 evs2 : list LinkEvent) :
  linkRun l (evs1 ++ evs2) = linkRun (linkRun l evs1) evs2.
Proof. unfold linkRun. apply fold_left_app. Qed.

(** C6, as the code has it.  Over any sequence of connects, channel state
    changes and timer firings of one mounted component the greeting trigger
    is sent at most once, and never while the greeting-sent flag is down;
    once it has been sent no trigger is pending; it is not sent at all
    when every [connect()] of the sequence runs with audio disabled; and
    from any point at which the flag is still down, a [connect()] that
    completes with audio enabled, on a channel that is open (or opens
    before the retry timer fires) and is open when the trigger timer
    fires, makes it sent exactly once, whatever happens afterwards. *)
Theorem greeting_exactly_once (evs : list LinkEvent) :
  let l := linkRun newLink evs in
  greetingsSent l <= 1
  /\ (hasGreetedRef l = false -> greetingsSent l = 0)
  /\ (greetingsSent l = 1 -> triggersPending l = 0)
  /\ (forallb audioOff evs = true -> greetingsSent l = 0)
  /\ (hasGreetedRef l = false ->
      forall later,
        greetingsSent (linkRun l (greetingScript l ++ later)) = 1).
Proof.
  intros l.
  assert (Hinv : greetingInv l).
  { apply greetingInv_run. split; [vm_compute; lia | reflexivity]. }
  destruct Hinv as [Hle Hzero].
  split; [lia|]. split; [intros Hg; specialize (Hzero Hg); lia|].
  split; [lia|]. split.
  - intros Hoff.
    assert (Hm : mutedInv l).
    { apply mutedInv_run; [exact Hoff|]. split; [reflexivity | constructor]. }
    destruct Hm as [Hg _]. specialize (Hzero Hg). lia.
  - intros Hflag later. specialize (Hzero Hflag).
    rewrite linkRun_app, (greetingScript_sends l Hflag).
    unfold greetingsSent at 1. rewrite greetingSpent_run.
    + cbn [sent]. rewrite List.filter_app, length_app.
      unfold greetingsSent in Hzero.
      replace (length (List.filter is_greetingTrigger (sent l))) with 0 by lia.
      reflexivity.
    + split; [reflexivity|]. unfold triggersPending in *. cbn [timers]. lia.
Qed.

(* ===================================================================== *)
(** * Scenarios *)
(* ===================================================================== *)

(** A first call in front of an empty store reads, creates and reads
    again. *)
Example ensureCollectionOnce_creates_collection :
  snd (ensureCollectionOnce emptyStore None None None)
  = [GetCollection (Js.lit "document_chunks");
     CreateCollection (Js.lit "document_chunks") 1536;
     GetCollection (Js.lit "document_chunks")].
Proof. vm_compute. reflexivity. Qed.

(** The collection of 384-wide vectors is refused when it is read, yet
    accepted when the store is found to hold it only after a failed
    creation: that path does not look at the size. *)
Example ensureCollectionOnce_race_skips_size_check :
  exists c,
    fst (fst (ensureCollectionOnce
                {| getQdrantClient := Ok tt;
                   getCollection := Throw (Error (Js.lit "timeout"));
                   createCollection := createCollection smallVectorStore;
                   getCollectionAgain := getCollectionAgain smallVectorStore |}
                None None None))
    = Ok c.
Proof. eexists. vm_compute. reflexivity. Qed.

(** A chunk with an embedding of 384 numbers is refused before the store
    is called. *)
Example storeChunkInQdrant_short_embedding :
  snd (storeChunkInQdrant (Ok tt) (Js.lit "0000") (Ok tt) shortChunk) = [].
Proof. vm_compute. reflexivity. Qed.

(** The handlers of a first [connect()] closed over no session id: a
    question and its reply are recorded, and nothing is saved. *)
Example session_first_connect_saves_nothing :
  let vc :=
    sessionRun firstConnect sampleChat
      [{| in_type := ConversationItemInputAudioTranscriptionCompleted;
          in_event := fullEvent weatherQuestion;
          in_now := Js.lit "2025-01-01T00:01:00.000Z" |};
       {| in_type := ResponseAudioTranscriptDone;
          in_event := fullEvent (Js.lit "I cannot tell.");
          in_now := Js.lit "2025-01-01T00:01:01.000Z" |};
       {| in_type := ResponseDone; in_event := fullEvent [];
          in_now := Js.lit "2025-01-01T00:01:02.000Z" |}] in
  length (conversationMessagesRef (transcript vc))
  = 2 + length (conversationMessagesRef (transcript sampleChat))
  /\ List.filter isSave (requests vc) = List.filter isSave (requests sampleChat).
Proof. vm_compute. split; reflexivity. Qed.

(** When speech starts, the last accepted question is prewarmed under the
    session id the handlers closed over; the retrieval for the next
    question carries the one inside [fetchAndSendContext]. *)
Example session_speech_started_prewarms :
  let vc :=
    sessionRun laterConnect sampleChat
      [{| in_type := InputAudioBufferSpeechStarted; in_event := fullEvent [];
          in_now := Js.lit "2025-01-01T00:01:00.000Z" |};
       {| in_type := ConversationItemInputAudioTranscriptionCompleted;
          in_event := fullEvent weatherQuestion;
          in_now := Js.lit "2025-01-01T00:01:03.000Z" |}] in
  retrievalSessionIds (requests vc) = [Some (Js.lit "voice-1"); None]
  /\ length (List.filter isSave (requests vc)) = 1
  /\ isRecording vc = true.
Proof. vm_compute. repeat split; reflexivity. Qed.

(** A reply that arrives as a content part and is closed by the completion
    of its audio is recorded like any other. *)
Example transcript_content_part_reply :
  let st :=
    transcriptRun newTranscript
      [(ResponseCreated, fullEvent []);
       (ResponseContentPartAdded, partEvent (Js.lit "Hello there"));
       (ConversationItemOutputAudioCompleted, fullEvent [])] in
  currentAssistantMessageRef st = Js.lit "Hello there"
  /\ List.map msg_content (conversationMessagesRef st) = [Js.lit "Hello there"].
Proof. vm_compute. split; reflexivity. Qed.

(** An [error] message without a text sets the default one. *)
Example session_error_message :
  error_state
    (retry (sessionStep firstConnect sampleChat
              {| in_type := ErrorType; in_event := fullEvent [];
                 in_now := [] |}))
  = Some (Js.lit "An error occurred in the voice chat").
Proof. vm_compute. reflexivity. Qed.
